(** * Virtual GPIO / NVIC simulation (07_Virtual_Simulation)

    A shallow embedding of [sim_gpio.c], [sim_nvic.c] and the NVIC part of
    [sim_hal_wrapper.c], followed by the properties of the simulation core.

    Conventions of the embedding:
    - C unsigned integers ([uint8_t], [uint32_t]) are [N]; the places where
      the source narrows a value write the wrap-around out ([u8], [u32]);
    - the file-static variables of the two translation units and the state
      of libc's [rand] form one [World]; every C function is a computation
      [M A := World -> A * World];
    - a function pointer is an address ([funptr]) or NULL ([None]); what the
      code behind an address does is given by a handler environment;
    - [printf] output is diagnostic only and is not part of the model. *)

From stdpp Require Import base numbers list strings pretty sorting.

Local Open Scope N_scope.

(** ** C integer types *)

Definition uint8_t := N.
Definition uint32_t := N.
Definition funptr := N.

Definition u8 (x : N) : uint8_t := x mod 256.
Definition u32 (x : N) : uint32_t := x mod 4294967296.

(** C truth value of an integer used as a condition. *)
Definition truthy (x : N) : bool := negb (x =? 0).

(** ** Data of sim_gpio.c *)

Record VirtualGPIOPin := mkPin {
  mode : uint8_t;
  output_type : uint8_t;
  speed : uint8_t;
  pupd : uint8_t;
  alt_function : uint8_t;
  value : uint8_t;
  irq_enabled : uint8_t;
  irq_handler : option funptr
}.

Record VirtualGPIOPort := mkPort {
  pins : list VirtualGPIOPin;
  clock_enabled : uint8_t;
  name : N
}.

(** The file-static variables of sim_gpio.c. *)
Record GPIOStatics := mkGPIO {
  gpio_ports : list VirtualGPIOPort;
  gpio_initialized : uint8_t;
  gpio_error_injection_enabled : uint8_t;
  gpio_last_error : uint8_t
}.

(** ** Data of sim_nvic.c *)

Record VirtualIRQ := mkIRQ {
  enabled : uint8_t;
  pending : uint8_t;
  active : uint8_t;
  priority : uint8_t;
  handler : option funptr;
  irq_name : string
}.

(** The file-static variables of sim_nvic.c. *)
Record NVICStatics := mkNVIC {
  irq_lines : list VirtualIRQ;
  nvic_initialized : uint8_t;
  global_irq_enabled : uint8_t;
  nvic_error_injection_enabled : uint8_t;
  nvic_last_error : uint8_t
}.

(** ** The process state *)

(** libc's pseudo random generator is an oracle: [rand_tape] lists the values
    that the successive calls of [rand()] return in this run, [rand_pos]
    counts the calls made so far. *)
Record World := mkWorld {
  gpio : GPIOStatics;
  nvic : NVICStatics;
  rand_tape : nat -> N;
  rand_pos : nat
}.

Definition M (A : Type) : Type := World -> A * World.

Definition ret {A} (a : A) : M A := fun w => (a, w).

Definition bind {A B} (m : M A) (k : A -> M B) : M B :=
  fun w => let (a, w') := m w in k a w'.

Definition gets {A} (f : World -> A) : M A := fun w => (f w, w).

Definition modify (f : World -> World) : M unit := fun w => (tt, f w).

Notation "'let*' x ':=' m 'in' k" := (bind m (fun x => k))
  (at level 10, x name, m at level 100, k at level 200).
Notation "m '>>' k" := (bind m (fun _ => k))
  (at level 65, right associativity).

Definition with_gpio (f : GPIOStatics -> GPIOStatics) (w : World) : World :=
  mkWorld (f (gpio w)) (nvic w) (rand_tape w) (rand_pos w).

Definition with_nvic (f : NVICStatics -> NVICStatics) (w : World) : World :=
  mkWorld (gpio w) (f (nvic w)) (rand_tape w) (rand_pos w).

(** [rand()]: the next value of the tape. *)
Definition rand : M N :=
  fun w => (rand_tape w (rand_pos w),
            mkWorld (gpio w) (nvic w) (rand_tape w) (S (rand_pos w))).

(** [srand(time(NULL))]: the seed decides which values [rand()] returns; they
    are the tape's, whatever the seed was. *)
Definition srand_time : M unit := ret tt.

(** * sim_gpio.c *)

Module sim_gpio.

Definition MAX_GPIO_PORTS : N := 9.
Definition MAX_GPIO_PINS : N := 16.

Definition GPIO_MODE_INPUT : N := 0.
Definition GPIO_MODE_OUTPUT : N := 1.
Definition GPIO_MODE_ALTERNATE : N := 2.
Definition GPIO_MODE_ANALOG : N := 3.
Definition GPIO_MODE_IT_RISING : N := 4.
Definition GPIO_MODE_IT_FALLING : N := 5.
Definition GPIO_MODE_IT_BOTH : N := 6.

Definition GPIO_OTYPE_PP : N := 0.
Definition GPIO_OTYPE_OD : N := 1.

Definition GPIO_SPEED_LOW : N := 0.
Definition GPIO_SPEED_MEDIUM : N := 1.
Definition GPIO_SPEED_FAST : N := 2.
Definition GPIO_SPEED_HIGH : N := 3.

Definition GPIO_PUPD_NONE : N := 0.
Definition GPIO_PUPD_UP : N := 1.
Definition GPIO_PUPD_DOWN : N := 2.

Definition GPIO_ERROR_NONE : N := 0.
Definition GPIO_ERROR_INVALID_PORT : N := 1.
Definition GPIO_ERROR_INVALID_PIN : N := 2.
Definition GPIO_ERROR_CONFIG : N := 3.
Definition GPIO_ERROR_INTERRUPT : N := 4.
Definition GPIO_ERROR_PINMUX : N := 5.

(** *** Field assignments *)

Definition set_mode (v : uint8_t) (p : VirtualGPIOPin) : VirtualGPIOPin :=
  mkPin v (output_type p) (speed p) (pupd p) (alt_function p) (value p)
        (irq_enabled p) (irq_handler p).
Definition set_output_type (v : uint8_t) (p : VirtualGPIOPin) : VirtualGPIOPin :=
  mkPin (mode p) v (speed p) (pupd p) (alt_function p) (value p)
        (irq_enabled p) (irq_handler p).
Definition set_speed (v : uint8_t) (p : VirtualGPIOPin) : VirtualGPIOPin :=
  mkPin (mode p) (output_type p) v (pupd p) (alt_function p) (value p)
        (irq_enabled p) (irq_handler p).
Definition set_pupd (v : uint8_t) (p : VirtualGPIOPin) : VirtualGPIOPin :=
  mkPin (mode p) (output_type p) (speed p) v (alt_function p) (value p)
        (irq_enabled p) (irq_handler p).
Definition set_alt_function (v : uint8_t) (p : VirtualGPIOPin) : VirtualGPIOPin :=
  mkPin (mode p) (output_type p) (speed p) (pupd p) v (value p)
        (irq_enabled p) (irq_handler p).
Definition set_value (v : uint8_t) (p : VirtualGPIOPin) : VirtualGPIOPin :=
  mkPin (mode p) (output_type p) (speed p) (pupd p) (alt_function p) v
        (irq_enabled p) (irq_handler p).
Definition set_irq_enabled (v : uint8_t) (p : VirtualGPIOPin) : VirtualGPIOPin :=
  mkPin (mode p) (output_type p) (speed p) (pupd p) (alt_function p) (value p)
        v (irq_handler p).
Definition set_irq_handler (h : option funptr) (p : VirtualGPIOPin) : VirtualGPIOPin :=
  mkPin (mode p) (output_type p) (speed p) (pupd p) (alt_function p) (value p)
        (irq_enabled p) h.

Definition set_pins (f : list VirtualGPIOPin -> list VirtualGPIOPin)
    (P : VirtualGPIOPort) : VirtualGPIOPort :=
  mkPort (f (pins P)) (clock_enabled P) (name P).
Definition set_clock_enabled (v : uint8_t) (P : VirtualGPIOPort) : VirtualGPIOPort :=
  mkPort (pins P) v (name P).

Definition set_ports (f : list VirtualGPIOPort -> list VirtualGPIOPort)
    (g : GPIOStatics) : GPIOStatics :=
  mkGPIO (f (gpio_ports g)) (gpio_initialized g)
         (gpio_error_injection_enabled g) (gpio_last_error g).
Definition set_initialized (v : uint8_t) (g : GPIOStatics) : GPIOStatics :=
  mkGPIO (gpio_ports g) v (gpio_error_injection_enabled g) (gpio_last_error g).
Definition set_error_injection_enabled (v : uint8_t) (g : GPIOStatics) : GPIOStatics :=
  mkGPIO (gpio_ports g) (gpio_initialized g) v (gpio_last_error g).
Definition set_last_error (v : uint8_t) (g : GPIOStatics) : GPIOStatics :=
  mkGPIO (gpio_ports g) (gpio_initialized g) (gpio_error_injection_enabled g) v.

(** The pin a freshly initialised table holds: Input, push-pull, low speed,
    no pull, AF0, value 0, no interrupt, no handler. *)
Definition default_pin : VirtualGPIOPin :=
  mkPin GPIO_MODE_INPUT GPIO_OTYPE_PP GPIO_SPEED_LOW GPIO_PUPD_NONE 0 0 0 None.

(** [gpio_ports[port]] and [gpio_ports[port].pins[pin]]; the source reads
    them only after the range checks. *)
Definition port_at (w : World) (port : uint8_t) : VirtualGPIOPort :=
  default (mkPort [] 0 0) (gpio_ports (gpio w) !! N.to_nat port).

Definition pin_at (w : World) (port pin : uint8_t) : VirtualGPIOPin :=
  default default_pin (pins (port_at w port) !! N.to_nat pin).

(** An assignment through [p = &gpio_ports[port].pins[pin]]. *)
Definition write_pin (port pin : uint8_t)
    (f : VirtualGPIOPin -> VirtualGPIOPin) (w : World) : World :=
  with_gpio (set_ports
    (alter (set_pins (alter f (N.to_nat pin))) (N.to_nat port))) w.

Definition update_pin (port pin : uint8_t)
    (f : VirtualGPIOPin -> VirtualGPIOPin) : M unit :=
  modify (write_pin port pin f).

Definition update_port (port : uint8_t)
    (f : VirtualGPIOPort -> VirtualGPIOPort) : M unit :=
  modify (with_gpio (set_ports (alter f (N.to_nat port)))).

Definition assign_last_error (v : uint8_t) : M unit :=
  modify (with_gpio (set_last_error v)).

(** *** VirtualGPIO_Init

    The two loops assign every field of every pin of every port, so the
    table they leave does not depend on what it held before. *)
Definition init_port (port : nat) : VirtualGPIOPort :=
  mkPort (replicate (N.to_nat MAX_GPIO_PINS) default_pin) 0
         (65 + N.of_nat port).

Definition fresh_ports : list VirtualGPIOPort :=
  init_port <$> seq 0 (N.to_nat MAX_GPIO_PORTS).

Definition VirtualGPIO_Init : M unit :=
  let* initialized := gets (fun w => gpio_initialized (gpio w)) in
  if truthy initialized then ret tt else
  srand_time >>
  modify (with_gpio (set_ports (fun _ => fresh_ports))) >>
  modify (with_gpio (set_initialized 1)).

(** [if (!gpio_initialized) VirtualGPIO_Init();] *)
Definition ensure_init : M unit :=
  let* initialized := gets (fun w => gpio_initialized (gpio w)) in
  if truthy initialized then ret tt else VirtualGPIO_Init.

Definition VirtualGPIO_SetErrorInjection (enable : uint8_t) : M unit :=
  modify (with_gpio (set_error_injection_enabled enable)).

Definition VirtualGPIO_GetLastError : M uint8_t :=
  gets (fun w => gpio_last_error (gpio w)).

Definition inject_error : M uint8_t :=
  let* enabled := gets (fun w => gpio_error_injection_enabled (gpio w)) in
  if negb (truthy enabled) then ret 0 else
  let* r := rand in
  if r mod 10 =? 0 then
    let* r' := rand in
    assign_last_error (u8 (r' mod 5 + 1)) >>
    ret 1
  else ret 0.

Definition VirtualGPIO_EnableClock (port : uint8_t) : M uint8_t :=
  ensure_init >>
  if MAX_GPIO_PORTS <=? port then
    assign_last_error GPIO_ERROR_INVALID_PORT >> ret 0
  else
  let* injected := inject_error in
  if truthy injected then ret 0 else
  update_port port (set_clock_enabled 1) >>
  ret 1.

Definition VirtualGPIO_ConfigurePin (port pin mode output_type speed pupd : uint8_t)
    : M uint8_t :=
  ensure_init >>
  if MAX_GPIO_PORTS <=? port then
    assign_last_error GPIO_ERROR_INVALID_PORT >> ret 0
  else
  if MAX_GPIO_PINS <=? pin then
    assign_last_error GPIO_ERROR_INVALID_PIN >> ret 0
  else
  let* clock := gets (fun w => clock_enabled (port_at w port)) in
  if negb (truthy clock) then
    assign_last_error GPIO_ERROR_CONFIG >> ret 0
  else
  let* injected := inject_error in
  if truthy injected then ret 0 else
  update_pin port pin (set_mode mode) >>
  update_pin port pin (set_output_type output_type) >>
  update_pin port pin (set_speed speed) >>
  update_pin port pin (set_pupd pupd) >>
  assign_last_error GPIO_ERROR_NONE >>
  ret 1.

Definition VirtualGPIO_SetAltFunction (port pin alt_func : uint8_t) : M uint8_t :=
  ensure_init >>
  if (MAX_GPIO_PORTS <=? port) || (MAX_GPIO_PINS <=? pin) then
    assign_last_error GPIO_ERROR_PINMUX >> ret 0
  else
  let* injected := inject_error in
  if truthy injected then ret 0 else
  let* p := gets (fun w => pin_at w port pin) in
  (if negb (mode p =? GPIO_MODE_ALTERNATE)
   then assign_last_error GPIO_ERROR_PINMUX else ret tt) >>
  update_pin port pin (set_alt_function alt_func) >>
  assign_last_error GPIO_ERROR_NONE >>
  ret 1.

Definition VirtualGPIO_WritePin (port pin value : uint8_t) : M uint8_t :=
  ensure_init >>
  if (MAX_GPIO_PORTS <=? port) || (MAX_GPIO_PINS <=? pin) then
    assign_last_error GPIO_ERROR_INVALID_PORT >> ret 0
  else
  let* injected := inject_error in
  if truthy injected then ret 0 else
  update_pin port pin (set_value (if truthy value then 1 else 0)) >>
  assign_last_error GPIO_ERROR_NONE >>
  ret 1.

(** [VirtualGPIO_ReadPin] returns its status and, when it stores through the
    [value] pointer, the value stored there. *)
Definition VirtualGPIO_ReadPin (port pin : uint8_t) : M (uint8_t * option uint8_t) :=
  ensure_init >>
  if (MAX_GPIO_PORTS <=? port) || (MAX_GPIO_PINS <=? pin) then
    assign_last_error GPIO_ERROR_INVALID_PIN >> ret (0, None)
  else
  let* injected := inject_error in
  if truthy injected then ret (0, None) else
  let* p := gets (fun w => pin_at w port pin) in
  let* v :=
    (if mode p =? GPIO_MODE_INPUT then
       let* v :=
         (if pupd p =? GPIO_PUPD_UP then ret 1
          else if pupd p =? GPIO_PUPD_DOWN then ret 0
          else let* r := rand in ret (u8 (r mod 2))) in
       update_pin port pin (set_value v) >>
       ret v
     else ret (value p)) in
  assign_last_error GPIO_ERROR_NONE >>
  ret (1, Some v).

Definition VirtualGPIO_TogglePin (port pin : uint8_t) : M uint8_t :=
  ensure_init >>
  if (MAX_GPIO_PORTS <=? port) || (MAX_GPIO_PINS <=? pin) then
    assign_last_error GPIO_ERROR_INVALID_PIN >> ret 0
  else
  update_pin port pin (fun p => set_value (if truthy (value p) then 0 else 1) p) >>
  assign_last_error GPIO_ERROR_NONE >>
  ret 1.

Definition VirtualGPIO_ConfigureInterrupt (port pin mode : uint8_t)
    (handler : option funptr) : M uint8_t :=
  ensure_init >>
  if (MAX_GPIO_PORTS <=? port) || (MAX_GPIO_PINS <=? pin) then
    assign_last_error GPIO_ERROR_INTERRUPT >> ret 0
  else
  let* injected := inject_error in
  if truthy injected then ret 0 else
  update_pin port pin (set_mode mode) >>
  update_pin port pin (set_irq_enabled 1) >>
  update_pin port pin (set_irq_handler handler) >>
  assign_last_error GPIO_ERROR_NONE >>
  ret 1.

Section handlers.

(** What the code behind a pin-interrupt callback does when it is called with
    [(port, pin)]. *)
Variable gpio_handler : funptr -> uint8_t -> uint8_t -> World -> World.

(** [VirtualGPIO_SimulateInterrupt] returns the calls [p->irq_handler(port,
    pin)] it made, in order. *)
Definition VirtualGPIO_SimulateInterrupt (port pin edge : uint8_t)
    : M (list (funptr * uint8_t * uint8_t)) :=
  ensure_init >>
  if (MAX_GPIO_PORTS <=? port) || (MAX_GPIO_PINS <=? pin) then ret [] else
  let* p := gets (fun w => pin_at w port pin) in
  if negb (truthy (irq_enabled p)) then ret [] else
  let should_trigger :=
    if ((mode p =? GPIO_MODE_IT_RISING) && (edge =? 1))
       || ((mode p =? GPIO_MODE_IT_FALLING) && (edge =? 0))
       || (mode p =? GPIO_MODE_IT_BOTH)
    then 1 else 0 in
  if truthy should_trigger then
    match irq_handler p with
    | Some h => modify (gpio_handler h port pin) >> ret [(h, port, pin)]
    | None => ret []
    end
  else ret [].

End handlers.

End sim_gpio.

(** * sim_nvic.c *)

Module sim_nvic.

Definition MAX_IRQ_LINES : N := 240.
Definition MAX_PRIORITY : N := 15.

Definition NVIC_ERROR_NONE : N := 0.
Definition NVIC_ERROR_INVALID_IRQ : N := 1.
Definition NVIC_ERROR_PRIORITY : N := 2.

(** *** Field assignments *)

Definition set_enabled (v : uint8_t) (l : VirtualIRQ) : VirtualIRQ :=
  mkIRQ v (pending l) (active l) (priority l) (handler l) (irq_name l).
Definition set_pending (v : uint8_t) (l : VirtualIRQ) : VirtualIRQ :=
  mkIRQ (enabled l) v (active l) (priority l) (handler l) (irq_name l).
Definition set_active (v : uint8_t) (l : VirtualIRQ) : VirtualIRQ :=
  mkIRQ (enabled l) (pending l) v (priority l) (handler l) (irq_name l).
Definition set_priority (v : uint8_t) (l : VirtualIRQ) : VirtualIRQ :=
  mkIRQ (enabled l) (pending l) (active l) v (handler l) (irq_name l).
Definition set_handler (h : option funptr) (l : VirtualIRQ) : VirtualIRQ :=
  mkIRQ (enabled l) (pending l) (active l) (priority l) h (irq_name l).
Definition set_irq_name (s : string) (l : VirtualIRQ) : VirtualIRQ :=
  mkIRQ (enabled l) (pending l) (active l) (priority l) (handler l) s.

Definition set_lines (f : list VirtualIRQ -> list VirtualIRQ)
    (n : NVICStatics) : NVICStatics :=
  mkNVIC (f (irq_lines n)) (nvic_initialized n) (global_irq_enabled n)
         (nvic_error_injection_enabled n) (nvic_last_error n).
Definition set_initialized (v : uint8_t) (n : NVICStatics) : NVICStatics :=
  mkNVIC (irq_lines n) v (global_irq_enabled n)
         (nvic_error_injection_enabled n) (nvic_last_error n).
Definition set_global_irq_enabled (v : uint8_t) (n : NVICStatics) : NVICStatics :=
  mkNVIC (irq_lines n) (nvic_initialized n) v
         (nvic_error_injection_enabled n) (nvic_last_error n).
Definition set_error_injection_enabled (v : uint8_t) (n : NVICStatics) : NVICStatics :=
  mkNVIC (irq_lines n) (nvic_initialized n) (global_irq_enabled n) v
         (nvic_last_error n).
Definition set_last_error (v : uint8_t) (n : NVICStatics) : NVICStatics :=
  mkNVIC (irq_lines n) (nvic_initialized n) (global_irq_enabled n)
         (nvic_error_injection_enabled n) v.

(** The line a freshly initialised table holds at index [i]. *)
Definition default_irq (i : nat) : VirtualIRQ :=
  mkIRQ 0 0 0 MAX_PRIORITY None ("IRQ_" +:+ pretty (N.of_nat i)).

(** [irq_lines[i]]; the source reads it only for [i < MAX_IRQ_LINES]. *)
Definition irq_at (w : World) (i : nat) : VirtualIRQ :=
  default (default_irq i) (irq_lines (nvic w) !! i).

(** An assignment to a field of [irq_lines[i]]. *)
Definition write_irq (i : nat) (f : VirtualIRQ -> VirtualIRQ) (w : World) : World :=
  with_nvic (set_lines (alter f i)) w.

Definition update_irq (i : nat) (f : VirtualIRQ -> VirtualIRQ) : M unit :=
  modify (write_irq i f).

Definition assign_last_error (v : uint8_t) : M unit :=
  modify (with_nvic (set_last_error v)).

(** *** VirtualNVIC_Init

    The loop assigns every field of every line. *)
Definition fresh_lines : list VirtualIRQ :=
  default_irq <$> seq 0 (N.to_nat MAX_IRQ_LINES).

Definition VirtualNVIC_Init : M unit :=
  let* initialized := gets (fun w => nvic_initialized (nvic w)) in
  if truthy initialized then ret tt else
  modify (with_nvic (set_lines (fun _ => fresh_lines))) >>
  modify (with_nvic (set_initialized 1)) >>
  modify (with_nvic (set_global_irq_enabled 1)).

(** [if (!nvic_initialized) VirtualNVIC_Init();] *)
Definition ensure_init : M unit :=
  let* initialized := gets (fun w => nvic_initialized (nvic w)) in
  if truthy initialized then ret tt else VirtualNVIC_Init.

Definition VirtualNVIC_SetErrorInjection (enable : uint8_t) : M unit :=
  modify (with_nvic (set_error_injection_enabled enable)).

Definition VirtualNVIC_GetLastError : M uint8_t :=
  gets (fun w => nvic_last_error (nvic w)).

Definition inject_error : M uint8_t :=
  let* enabled := gets (fun w => nvic_error_injection_enabled (nvic w)) in
  if negb (truthy enabled) then ret 0 else
  let* r := rand in
  if r mod 10 =? 0 then
    let* r' := rand in
    assign_last_error (u8 (r' mod 2 + 1)) >>
    ret 1
  else ret 0.

Definition VirtualNVIC_EnableIRQ (irq_num : uint8_t) : M uint8_t :=
  ensure_init >>
  if MAX_IRQ_LINES <=? irq_num then
    assign_last_error NVIC_ERROR_INVALID_IRQ >> ret 0
  else
  let* injected := inject_error in
  if truthy injected then ret 0 else
  update_irq (N.to_nat irq_num) (set_enabled 1) >>
  assign_last_error NVIC_ERROR_NONE >>
  ret 1.

Definition VirtualNVIC_DisableIRQ (irq_num : uint8_t) : M uint8_t :=
  ensure_init >>
  if MAX_IRQ_LINES <=? irq_num then
    assign_last_error NVIC_ERROR_INVALID_IRQ >> ret 0
  else
  update_irq (N.to_nat irq_num) (set_enabled 0) >>
  assign_last_error NVIC_ERROR_NONE >>
  ret 1.

Definition VirtualNVIC_SetPriority (irq_num priority : uint8_t) : M uint8_t :=
  ensure_init >>
  if MAX_IRQ_LINES <=? irq_num then
    assign_last_error NVIC_ERROR_INVALID_IRQ >> ret 0
  else
  if MAX_PRIORITY <? priority then
    assign_last_error NVIC_ERROR_PRIORITY >> ret 0
  else
  let* injected := inject_error in
  if truthy injected then ret 0 else
  update_irq (N.to_nat irq_num) (set_priority priority) >>
  assign_last_error NVIC_ERROR_NONE >>
  ret 1.

Definition VirtualNVIC_GetPriority (irq_num : uint8_t) : M uint8_t :=
  ensure_init >>
  if MAX_IRQ_LINES <=? irq_num then ret MAX_PRIORITY else
  gets (fun w => priority (irq_at w (N.to_nat irq_num))).

(** [strncpy(dst, name, sizeof(dst) - 1)] into the 32-byte name buffer, whose
    last byte is never written and stays 0. *)
Definition strncpy_name (name : string) : string := String.substring 0 31 name.

Definition VirtualNVIC_SetHandler (irq_num : uint8_t) (handler : option funptr)
    (name : option string) : M uint8_t :=
  ensure_init >>
  if MAX_IRQ_LINES <=? irq_num then
    assign_last_error NVIC_ERROR_INVALID_IRQ >> ret 0
  else
  update_irq (N.to_nat irq_num) (set_handler handler) >>
  match name with
  | Some s => update_irq (N.to_nat irq_num) (set_irq_name (strncpy_name s))
  | None => ret tt
  end >>
  assign_last_error NVIC_ERROR_NONE >>
  ret 1.

Definition VirtualNVIC_SetPending (irq_num : uint8_t) : M uint8_t :=
  ensure_init >>
  if MAX_IRQ_LINES <=? irq_num then
    assign_last_error NVIC_ERROR_INVALID_IRQ >> ret 0
  else
  let* injected := inject_error in
  if truthy injected then ret 0 else
  update_irq (N.to_nat irq_num) (set_pending 1) >>
  assign_last_error NVIC_ERROR_NONE >>
  ret 1.

Definition VirtualNVIC_ClearPending (irq_num : uint8_t) : M uint8_t :=
  ensure_init >>
  if MAX_IRQ_LINES <=? irq_num then
    assign_last_error NVIC_ERROR_INVALID_IRQ >> ret 0
  else
  update_irq (N.to_nat irq_num) (set_pending 0) >>
  assign_last_error NVIC_ERROR_NONE >>
  ret 1.

Definition VirtualNVIC_IsPending (irq_num : uint8_t) : M uint8_t :=
  ensure_init >>
  if MAX_IRQ_LINES <=? irq_num then ret 0 else
  gets (fun w => pending (irq_at w (N.to_nat irq_num))).

Definition VirtualNVIC_EnableGlobalIRQ : M unit :=
  modify (with_nvic (set_global_irq_enabled 1)).

Definition VirtualNVIC_DisableGlobalIRQ : M unit :=
  modify (with_nvic (set_global_irq_enabled 0)).

(** *** find_highest_priority_pending

    The condition of the loop body, and the body as a step on the two locals
    [(highest_irq, highest_priority)]; [highest_irq = -1] is [None]. *)
Definition dispatchable (l : VirtualIRQ) : bool :=
  truthy (enabled l) && truthy (pending l) && negb (truthy (active l)).

Definition scan_step (w : World) (acc : option nat * uint8_t) (i : nat)
    : option nat * uint8_t :=
  if dispatchable (irq_at w i) then
    if priority (irq_at w i) <? acc.2 then (Some i, priority (irq_at w i))
    else acc
  else acc.

(** The locals after the iterations [i = 0 .. n-1] of the [for] loop. *)
Definition scan_lines (w : World) (n : nat) : option nat * uint8_t :=
  foldl (scan_step w) (None, u8 (MAX_PRIORITY + 1)) (seq 0 n).

Definition find_highest_priority_pending : M (option nat) :=
  gets (fun w => (scan_lines w (N.to_nat MAX_IRQ_LINES)).1).

Section handlers.

(** What the code behind an IRQ handler address does when it is called. *)
Variable nvic_handler : funptr -> World -> World.

(** [VirtualNVIC_ProcessInterrupts] returns the IRQ numbers it dispatched (at
    most one). *)
Definition VirtualNVIC_ProcessInterrupts : M (list nat) :=
  ensure_init >>
  let* global := gets (fun w => global_irq_enabled (nvic w)) in
  if negb (truthy global) then ret [] else
  let* found := find_highest_priority_pending in
  match found with
  | Some irq_num =>
      update_irq irq_num (set_pending 0) >>
      update_irq irq_num (set_active 1) >>
      let* irq := gets (fun w => irq_at w irq_num) in
      match handler irq with
      | Some h => modify (nvic_handler h)
      | None => ret tt
      end >>
      update_irq irq_num (set_active 0) >>
      ret [irq_num]
  | None => ret []
  end.

(** The [while] loop of [VirtualNVIC_ProcessAllPending], [processed] being the
    local counter and [dispatched] the IRQ numbers dispatched so far.  The
    loop is not structurally recursive; [fuel] bounds the iterations and
    [None] means the fuel ran out before the loop ended. *)
Fixpoint process_loop (fuel : nat) (processed : N) (dispatched : list nat)
    : M (option (N * list nat)) :=
  match fuel with
  | O => ret None
  | S fuel' =>
      let* found := find_highest_priority_pending in
      match found with
      | None => ret (Some (processed, dispatched))
      | Some _ =>
          let* d := VirtualNVIC_ProcessInterrupts in
          let processed := processed + 1 in
          if 100 <? processed then ret (Some (processed, dispatched ++ d))
          else process_loop fuel' processed (dispatched ++ d)
      end
  end.

(** [VirtualNVIC_ProcessAllPending] returns the final value of [processed]
    (which it prints) and the IRQ numbers dispatched, in order. *)
Definition VirtualNVIC_ProcessAllPending (fuel : nat)
    : M (option (N * list nat)) :=
  ensure_init >>
  process_loop fuel 0 [].

End handlers.

End sim_nvic.

(** * sim_hal_wrapper.c (NVIC part) *)

Module sim_hal_wrapper.

Definition HAL_NVIC_EnableIRQ (irq_num : uint8_t) : M unit :=
  sim_nvic.VirtualNVIC_EnableIRQ irq_num >> ret tt.

Definition HAL_NVIC_DisableIRQ (irq_num : uint8_t) : M unit :=
  sim_nvic.VirtualNVIC_DisableIRQ irq_num >> ret tt.

(** [uint8_t priority = (preempt_priority << 2) | (sub_priority & 0x3);] is
    computed on [uint32_t] and narrowed to [uint8_t] by the initialisation. *)
Definition HAL_NVIC_SetPriority (irq_num : uint8_t)
    (preempt_priority sub_priority : uint32_t) : M unit :=
  let priority :=
    u8 (N.lor (u32 (N.shiftl preempt_priority 2)) (N.land sub_priority 3)) in
  let priority := if 15 <? priority then 15 else priority in
  sim_nvic.VirtualNVIC_SetPriority irq_num priority >> ret tt.

End sim_hal_wrapper.

(** * sim_hal_wrapper.c (GPIO part and HAL_Init) *)

Module sim_hal_gpio.

Inductive HAL_StatusTypeDef := HAL_OK | HAL_ERROR | HAL_BUSY | HAL_TIMEOUT.

Record GPIO_InitTypeDef := mkGPIOInit {
  Pin : uint32_t;
  Mode : uint32_t;
  Pull : uint32_t;
  Speed : uint32_t;
  Alternate : uint32_t
}.

Inductive GPIO_PinState := GPIO_PIN_RESET | GPIO_PIN_SET.

Definition GPIOA_PORT : N := 0.
Definition GPIOB_PORT : N := 1.
Definition GPIOC_PORT : N := 2.

Definition GPIO_MODE_INPUT : N := 0x00000000.
Definition GPIO_MODE_OUTPUT_OD : N := 0x00000011.
Definition GPIO_MODE_AF_PP : N := 0x00000002.
Definition GPIO_MODE_AF_OD : N := 0x00000012.
Definition GPIO_MODE_ANALOG : N := 0x00000003.
Definition GPIO_MODE_IT_RISING : N := 0x10110000.
Definition GPIO_MODE_IT_FALLING : N := 0x10210000.
Definition GPIO_MODE_IT_RISING_FALLING : N := 0x10310000.

Definition GPIO_NOPULL : N := 0.
Definition GPIO_PULLUP : N := 1.
Definition GPIO_PULLDOWN : N := 2.

Definition GPIO_SPEED_FREQ_LOW : N := 0.
Definition GPIO_SPEED_FREQ_MEDIUM : N := 1.
Definition GPIO_SPEED_FREQ_HIGH : N := 2.
Definition GPIO_SPEED_FREQ_VERY_HIGH : N := 3.

(** [switch (hal_mode & 0xFF)] *)
Definition hal_mode_to_virtual (hal_mode : uint32_t) : uint8_t :=
  let m := N.land hal_mode 0xFF in
  if m =? 0x00 then 0
  else if m =? 0x01 then 1
  else if m =? 0x02 then 2
  else if m =? 0x03 then 3
  else if m =? 0x11 then 1
  else if m =? 0x12 then 2
  else 0.

Definition is_interrupt_mode (hal_mode : uint32_t) : uint8_t :=
  if negb (N.land hal_mode 0x10000000 =? 0) then 1 else 0.

Definition get_interrupt_type (hal_mode : uint32_t) : uint8_t :=
  if truthy (N.land hal_mode 0x00100000) then 4
  else if truthy (N.land hal_mode 0x00200000) then 5
  else if truthy (N.land hal_mode 0x00300000) then 6
  else 4.

(** [HAL_GPIO_Init]; the argument is [None] for a NULL [GPIO_Init].  The
    [uint32_t] fields are narrowed to the [uint8_t] parameters of the virtual
    driver at each call. *)
Definition HAL_GPIO_Init (port : uint8_t) (GPIO_Init : option GPIO_InitTypeDef)
    : M HAL_StatusTypeDef :=
  match GPIO_Init with
  | None => ret HAL_ERROR
  | Some init =>
      let* clock := sim_gpio.VirtualGPIO_EnableClock port in
      if negb (truthy clock) then ret HAL_ERROR else
      if truthy (is_interrupt_mode (Mode init)) then
        let irq_type := get_interrupt_type (Mode init) in
        let* ok := sim_gpio.VirtualGPIO_ConfigureInterrupt port (u8 (Pin init))
                     irq_type None in
        if negb (truthy ok) then ret HAL_ERROR else ret HAL_OK
      else
        let mode := hal_mode_to_virtual (Mode init) in
        let output_type := if truthy (N.land (Mode init) 0x10) then 1 else 0 in
        let* ok := sim_gpio.VirtualGPIO_ConfigurePin port (u8 (Pin init)) mode
                     output_type (u8 (Speed init)) (u8 (Pull init)) in
        if negb (truthy ok) then ret HAL_ERROR else
        if mode =? 2 then
          let* ok := sim_gpio.VirtualGPIO_SetAltFunction port (u8 (Pin init))
                       (u8 (Alternate init)) in
          if negb (truthy ok) then ret HAL_ERROR else ret HAL_OK
        else ret HAL_OK
  end.

(** [HAL_GPIO_ReadPin]: the local [value] starts at 0 and is overwritten when
    the driver stores through the pointer; [pin] is a [uint16_t], narrowed to
    the driver's [uint8_t]. *)
Definition HAL_GPIO_ReadPin (port : uint8_t) (pin : N) : M GPIO_PinState :=
  let* r := sim_gpio.VirtualGPIO_ReadPin port (u8 pin) in
  let value := default 0 r.2 in
  if truthy r.1 then ret (if truthy value then GPIO_PIN_SET else GPIO_PIN_RESET)
  else ret GPIO_PIN_RESET.

Definition HAL_GPIO_WritePin (port : uint8_t) (pin : N) (state : GPIO_PinState)
    : M unit :=
  sim_gpio.VirtualGPIO_WritePin port (u8 pin)
    (match state with GPIO_PIN_SET => 1 | GPIO_PIN_RESET => 0 end) >> ret tt.

Definition HAL_GPIO_TogglePin (port : uint8_t) (pin : N) : M unit :=
  sim_gpio.VirtualGPIO_TogglePin port (u8 pin) >> ret tt.

Definition HAL_Init : M HAL_StatusTypeDef :=
  sim_gpio.VirtualGPIO_Init >>
  sim_nvic.VirtualNVIC_Init >>
  ret HAL_OK.

End sim_hal_gpio.

(** * Vocabulary of the properties *)

(** ** Program start and reachable states *)

(** The process at program start: the statics of both files are zero
    initialised, except [global_irq_enabled = 1]. *)
Definition boot (tape : nat -> N) : World :=
  mkWorld
    (mkGPIO (replicate 9 (mkPort (replicate 16 (mkPin 0 0 0 0 0 0 0 None)) 0 0))
            0 0 0)
    (mkNVIC (replicate 240 (mkIRQ 0 0 0 0 None "")) 0 1 0 0)
    tape 0.

(** What every state of sim_gpio.c that the API can produce satisfies: the
    table has 9 ports of 16 pins, every [value] is 0 or 1, and before the
    first use the table is still the zero-initialised one. *)
Definition port_wf (P : VirtualGPIOPort) : Prop :=
  length (pins P) = 16%nat ∧ Forall (fun p => value p ≤ 1) (pins P).

Definition port_untouched (P : VirtualGPIOPort) : Prop :=
  clock_enabled P = 0 ∧ Forall (fun p => p = sim_gpio.default_pin) (pins P).

Definition gpio_wf (w : World) : Prop :=
  length (gpio_ports (gpio w)) = 9%nat ∧
  Forall port_wf (gpio_ports (gpio w)) ∧
  (gpio_initialized (gpio w) = 0 → Forall port_untouched (gpio_ports (gpio w))).

(** The same for sim_nvic.c: 240 lines, priorities within 0..15, and before
    the first use no line is enabled. *)
Definition nvic_wf (w : World) : Prop :=
  length (irq_lines (nvic w)) = 240%nat ∧
  Forall (fun l => priority l ≤ 15) (irq_lines (nvic w)) ∧
  (nvic_initialized (nvic w) = 0 →
   Forall (fun l => enabled l = 0) (irq_lines (nvic w))).

(** The tables as the API presents them: they are created on first use. *)
Definition pin_table (w : World) : list VirtualGPIOPort :=
  gpio_ports (gpio (sim_gpio.ensure_init w).2).

Definition irq_table (w : World) : list VirtualIRQ :=
  irq_lines (nvic (sim_nvic.ensure_init w).2).

(** ** Edges and triggers of pin interrupts *)

Inductive Edge := Rising | Falling.
Inductive Trigger := TrigRising | TrigFalling | TrigBoth.

(** The [edge] argument of [VirtualGPIO_SimulateInterrupt]: 1 is a rising
    edge, 0 a falling edge. *)
Definition edge_code (e : Edge) : uint8_t :=
  match e with Rising => 1 | Falling => 0 end.

Definition trigger_mode (t : Trigger) : uint8_t :=
  match t with
  | TrigRising => sim_gpio.GPIO_MODE_IT_RISING
  | TrigFalling => sim_gpio.GPIO_MODE_IT_FALLING
  | TrigBoth => sim_gpio.GPIO_MODE_IT_BOTH
  end.

(** Rising fires on a rising edge, Falling on a falling edge, Both on either. *)
Definition trigger_matches (t : Trigger) (e : Edge) : bool :=
  match t, e with
  | TrigRising, Rising => true
  | TrigFalling, Falling => true
  | TrigBoth, _ => true
  | _, _ => false
  end.

(** ** Calls of the API that return a status *)

Inductive api_call :=
| CallEnableClock (port : uint8_t)
| CallConfigurePin (port pin mode output_type speed pupd : uint8_t)
| CallSetAltFunction (port pin alt_func : uint8_t)
| CallWritePin (port pin value : uint8_t)
| CallReadPin (port pin : uint8_t)
| CallTogglePin (port pin : uint8_t)
| CallConfigureInterrupt (port pin mode : uint8_t) (handler : option funptr)
| CallEnableIRQ (irq_num : uint8_t)
| CallDisableIRQ (irq_num : uint8_t)
| CallSetPriority (irq_num priority : uint8_t)
| CallSetHandler (irq_num : uint8_t) (handler : option funptr) (name : option string)
| CallSetPending (irq_num : uint8_t)
| CallClearPending (irq_num : uint8_t).

Definition run_call (c : api_call) : M uint8_t :=
  match c with
  | CallEnableClock port => sim_gpio.VirtualGPIO_EnableClock port
  | CallConfigurePin port pin mode output_type speed pupd =>
      sim_gpio.VirtualGPIO_ConfigurePin port pin mode output_type speed pupd
  | CallSetAltFunction port pin alt_func =>
      sim_gpio.VirtualGPIO_SetAltFunction port pin alt_func
  | CallWritePin port pin value => sim_gpio.VirtualGPIO_WritePin port pin value
  | CallReadPin port pin =>
      let* r := sim_gpio.VirtualGPIO_ReadPin port pin in ret r.1
  | CallTogglePin port pin => sim_gpio.VirtualGPIO_TogglePin port pin
  | CallConfigureInterrupt port pin mode handler =>
      sim_gpio.VirtualGPIO_ConfigureInterrupt port pin mode handler
  | CallEnableIRQ irq_num => sim_nvic.VirtualNVIC_EnableIRQ irq_num
  | CallDisableIRQ irq_num => sim_nvic.VirtualNVIC_DisableIRQ irq_num
  | CallSetPriority irq_num priority =>
      sim_nvic.VirtualNVIC_SetPriority irq_num priority
  | CallSetHandler irq_num handler name =>
      sim_nvic.VirtualNVIC_SetHandler irq_num handler name
  | CallSetPending irq_num => sim_nvic.VirtualNVIC_SetPending irq_num
  | CallClearPending irq_num => sim_nvic.VirtualNVIC_ClearPending irq_num
  end.

(** Running a sequence of calls, statuses ignored. *)
Definition run_calls (cs : list api_call) (w : World) : World :=
  foldl (fun w c => (run_call c w).2) w cs.

(** A step of a client program: a call above, or one of the API functions
    that return nothing. *)
Inductive api_step :=
| StepCall (c : api_call)
| StepGpioInit
| StepGpioSetErrorInjection (enable : uint8_t)
| StepNvicInit
| StepNvicSetErrorInjection (enable : uint8_t)
| StepEnableGlobalIRQ
| StepDisableGlobalIRQ.

Definition run_step (s : api_step) (w : World) : World :=
  match s with
  | StepCall c => (run_call c w).2
  | StepGpioInit => (sim_gpio.VirtualGPIO_Init w).2
  | StepGpioSetErrorInjection enable =>
      (sim_gpio.VirtualGPIO_SetErrorInjection enable w).2
  | StepNvicInit => (sim_nvic.VirtualNVIC_Init w).2
  | StepNvicSetErrorInjection enable =>
      (sim_nvic.VirtualNVIC_SetErrorInjection enable w).2
  | StepEnableGlobalIRQ => (sim_nvic.VirtualNVIC_EnableGlobalIRQ w).2
  | StepDisableGlobalIRQ => (sim_nvic.VirtualNVIC_DisableGlobalIRQ w).2
  end.

Definition run_steps (ss : list api_step) (w : World) : World :=
  foldl (fun w s => run_step s w) w ss.

(** The calls whose source passes through [inject_error]. *)
Definition fault_gated (c : api_call) : bool :=
  match c with
  | CallTogglePin _ _ | CallDisableIRQ _ | CallSetHandler _ _ _
  | CallClearPending _ => false
  | _ => true
  end.

Definition is_gpio_call (c : api_call) : bool :=
  match c with
  | CallEnableIRQ _ | CallDisableIRQ _ | CallSetPriority _ _
  | CallSetHandler _ _ _ | CallSetPending _ | CallClearPending _ => false
  | _ => true
  end.

(** The fault-injection roll of the call's translation unit is armed and the
    next value of [rand()] is a multiple of 10. *)
Definition roll_fires (c : api_call) (w : World) : Prop :=
  (if is_gpio_call c then gpio_error_injection_enabled (gpio w)
   else nvic_error_injection_enabled (nvic w)) ≠ 0 ∧
  rand_tape w (rand_pos w) mod 10 = 0.

(** ** Dispatch order of the interrupt controller *)

(** Line [i] may be dispatched: enabled, pending and not active. *)
Definition eligible (w : World) (i : nat) : Prop :=
  ∃ l, irq_lines (nvic w) !! i = Some l ∧
       enabled l ≠ 0 ∧ pending l ≠ 0 ∧ active l = 0.

(** Line [i] is eligible, no eligible line has a numerically lower priority,
    and among those of its priority it has the lowest IRQ number. *)
Definition lowest_eligible (w : World) (i : nat) : Prop :=
  eligible w i ∧
  ∀ j, eligible w j →
    priority (sim_nvic.irq_at w i) ≤ priority (sim_nvic.irq_at w j) ∧
    (priority (sim_nvic.irq_at w j) = priority (sim_nvic.irq_at w i) → (i ≤ j)%nat).

(** Calling a handler pointer: NULL is not called. *)
Definition invoke (nvic_handler : funptr → World → World)
    (h : option funptr) (w : World) : World :=
  match h with Some f => nvic_handler f w | None => w end.

(** ** The priority value as the adapter's description words it *)

Definition spec_combined_priority (preempt sub : uint32_t) : N :=
  N.min 15 (N.lor (N.shiftl preempt 2) sub).

(** ** Concrete runs *)

(** A run in which no fault-injection roll fires, and one in which every
    roll fires. *)
Definition quiet_tape : nat → N := fun _ => 1.
Definition firing_tape : nat → N := fun _ => 0.

(** Handlers that do nothing. *)
Definition idle_irq_handlers : funptr → World → World := fun _ w => w.
Definition idle_pin_handlers : funptr → uint8_t → uint8_t → World → World :=
  fun _ _ _ w => w.

(** IRQ 6 at priority 2 and IRQ 23 at priority 1, both enabled and pending. *)
Definition two_pending_world : World :=
  run_calls [CallEnableIRQ 6; CallSetPriority 6 2; CallEnableIRQ 23;
             CallSetPriority 23 1; CallSetPending 6; CallSetPending 23]
            (boot quiet_tape).

(** IRQ 0 enabled and pending, its handler (at address 7) marks IRQ 0 pending
    again each time it runs. *)
Definition storm_world : World :=
  run_calls [CallEnableIRQ 0; CallSetHandler 0 (Some 7) None; CallSetPending 0]
            (boot quiet_tape).

Definition storm_handlers (f : funptr) (w : World) : World :=
  if f =? 7 then (sim_nvic.VirtualNVIC_SetPending 0 w).2 else w.

(** PA5 configured as an output and driven high. *)
Definition led_world : World :=
  run_calls [CallEnableClock 0;
             CallConfigurePin 0 5 sim_gpio.GPIO_MODE_OUTPUT sim_gpio.GPIO_OTYPE_PP
                              sim_gpio.GPIO_SPEED_HIGH sim_gpio.GPIO_PUPD_NONE;
             CallWritePin 0 5 1]
            (boot quiet_tape).

(** The same, then fault injection switched on in a run where every roll
    fires. *)
Definition faulty_world : World :=
  (sim_gpio.VirtualGPIO_SetErrorInjection 1
     (mkWorld (gpio led_world) (nvic led_world) firing_tape 0)).2.

(** The pin table initialised, no clock enabled yet. *)
Definition unclocked_world : World :=
  (sim_gpio.VirtualGPIO_Init (boot quiet_tape)).2.

(** [VirtualNVIC_DisableGlobalIRQ()] as the first call of the program. *)
Definition masked_boot_world : World :=
  (sim_nvic.VirtualNVIC_DisableGlobalIRQ (boot quiet_tape)).2.

(** ** Auxiliary definitions of the proofs *)

Definition skip_rand (n : nat) (w : World) : World :=
  mkWorld (gpio w) (nvic w) (rand_tape w) (n + rand_pos w).

(** The world after the body of [VirtualGPIO_Init] has run. *)
Definition gpio_init_world (w : World) : World :=
  with_gpio (sim_gpio.set_initialized 1)
    (with_gpio (sim_gpio.set_ports (fun _ => sim_gpio.fresh_ports)) w).

Definition gpio_ready (w : World) : World := (sim_gpio.ensure_init w).2.

Definition gerr (e : uint8_t) (w : World) : World :=
  with_gpio (sim_gpio.set_last_error e) w.

Definition gpio_sized (w : World) : Prop :=
  length (gpio_ports (gpio w)) = 9%nat ∧
  Forall (fun P => length (pins P) = 16%nat) (gpio_ports (gpio w)).

Definition gpio_table_wf (w : World) : Prop :=
  length (gpio_ports (gpio w)) = 9%nat ∧ Forall port_wf (gpio_ports (gpio w)).

Definition write_port (port : uint8_t) (f : VirtualGPIOPort → VirtualGPIOPort)
    (w : World) : World :=
  with_gpio (sim_gpio.set_ports (alter f (N.to_nat port))) w.

(** The condition under which [VirtualGPIO_SimulateInterrupt] sets its local
    [should_trigger]. *)
Definition should_trigger (p : VirtualGPIOPin) (edge : uint8_t) : bool :=
  ((mode p =? sim_gpio.GPIO_MODE_IT_RISING) && (edge =? 1))
  || ((mode p =? sim_gpio.GPIO_MODE_IT_FALLING) && (edge =? 0))
  || (mode p =? sim_gpio.GPIO_MODE_IT_BOTH).

(** The level an input pin reads, and the world after reading it. *)
Definition input_level (p : VirtualGPIOPin) (w : World) : uint8_t * World :=
  if pupd p =? sim_gpio.GPIO_PUPD_UP then (1, w)
  else if pupd p =? sim_gpio.GPIO_PUPD_DOWN then (0, w)
  else (u8 (rand_tape w (rand_pos w) mod 2), skip_rand 1 w).

(** The world after the body of [VirtualNVIC_Init] has run. *)
Definition nvic_init_world (w : World) : World :=
  with_nvic (sim_nvic.set_global_irq_enabled 1)
    (with_nvic (sim_nvic.set_initialized 1)
       (with_nvic (sim_nvic.set_lines (fun _ => sim_nvic.fresh_lines)) w)).

Definition nvic_ready (w : World) : World := (sim_nvic.ensure_init w).2.

Definition nerr (e : uint8_t) (w : World) : World :=
  with_nvic (sim_nvic.set_last_error e) w.

Definition nvic_table_wf (w : World) : Prop :=
  length (irq_lines (nvic w)) = 240%nat ∧
  Forall (fun l => priority l ≤ 15) (irq_lines (nvic w)).

(** The invariant of the loop of [find_highest_priority_pending] after its
    first [n] iterations. *)
Definition scan_inv (w : World) (n : nat) (acc : option nat * uint8_t) : Prop :=
  match acc.1 with
  | None =>
      acc.2 = 16 ∧
      ∀ j, (j < n)%nat → sim_nvic.dispatchable (sim_nvic.irq_at w j) = true →
           16 ≤ priority (sim_nvic.irq_at w j)
  | Some i =>
      (i < n)%nat ∧ sim_nvic.dispatchable (sim_nvic.irq_at w i) = true ∧
      acc.2 = priority (sim_nvic.irq_at w i) ∧ acc.2 < 16 ∧
      ∀ j, (j < n)%nat → sim_nvic.dispatchable (sim_nvic.irq_at w j) = true →
           acc.2 ≤ priority (sim_nvic.irq_at w j) ∧
           (priority (sim_nvic.irq_at w j) = acc.2 → (i ≤ j)%nat)
  end.

(** Dispatching line [i]: clear pending, set active, call the handler, clear
    active. *)
Definition dispatch (nvic_handler : funptr → World → World) (i : nat)
    (w : World) : World :=
  let w1 := sim_nvic.write_irq i (sim_nvic.set_active 1)
              (sim_nvic.write_irq i (sim_nvic.set_pending 0) w) in
  sim_nvic.write_irq i (sim_nvic.set_active 0)
    (invoke nvic_handler (handler (sim_nvic.irq_at w1 i)) w1).

(** ** Vocabulary of the further properties *)




(** What one dispatch with a quiet handler does to the line: the pending
    flag is cleared, and the active flag set and cleared. *)
Definition served (l : VirtualIRQ) : VirtualIRQ :=
  sim_nvic.set_active 0 (sim_nvic.set_active 1 (sim_nvic.set_pending 0 l)).



(** The [last_error] static of the translation unit a call belongs to. *)
Definition last_error_of (c : api_call) (w : World) : uint8_t :=
  if is_gpio_call c then gpio_last_error (gpio w) else nvic_last_error (nvic w).

(** The port, pin and IRQ numbers of a call are inside the tables. *)
Definition in_range (c : api_call) : bool :=
  match c with
  | CallEnableClock port => port <? sim_gpio.MAX_GPIO_PORTS
  | CallConfigurePin port pin _ _ _ _ | CallSetAltFunction port pin _
  | CallWritePin port pin _ | CallReadPin port pin | CallTogglePin port pin
  | CallConfigureInterrupt port pin _ _ =>
      (port <? sim_gpio.MAX_GPIO_PORTS) && (pin <? sim_gpio.MAX_GPIO_PINS)
  | CallEnableIRQ irq_num | CallDisableIRQ irq_num | CallSetPriority irq_num _
  | CallSetHandler irq_num _ _ | CallSetPending irq_num
  | CallClearPending irq_num => irq_num <? sim_nvic.MAX_IRQ_LINES
  end.

(** The error code each function assigns when its range check fails. *)
Definition range_error_code (c : api_call) : uint8_t :=
  match c with
  | CallEnableClock _ => sim_gpio.GPIO_ERROR_INVALID_PORT
  | CallConfigurePin port _ _ _ _ _ =>
      if sim_gpio.MAX_GPIO_PORTS <=? port then sim_gpio.GPIO_ERROR_INVALID_PORT
      else sim_gpio.GPIO_ERROR_INVALID_PIN
  | CallSetAltFunction _ _ _ => sim_gpio.GPIO_ERROR_PINMUX
  | CallWritePin _ _ _ => sim_gpio.GPIO_ERROR_INVALID_PORT
  | CallReadPin _ _ | CallTogglePin _ _ => sim_gpio.GPIO_ERROR_INVALID_PIN
  | CallConfigureInterrupt _ _ _ _ => sim_gpio.GPIO_ERROR_INTERRUPT
  | _ => sim_nvic.NVIC_ERROR_INVALID_IRQ
  end.

(** The pin a GPIO call assigns to, if any. *)
Definition call_pin (c : api_call) : option (uint8_t * uint8_t) :=
  match c with
  | CallConfigurePin port pin _ _ _ _ | CallSetAltFunction port pin _
  | CallWritePin port pin _ | CallReadPin port pin | CallTogglePin port pin
  | CallConfigureInterrupt port pin _ _ => Some (port, pin)
  | _ => None
  end.

(** The IRQ line an NVIC call assigns to, if any. *)
Definition call_irq (c : api_call) : option uint8_t :=
  match c with
  | CallEnableIRQ irq_num | CallDisableIRQ irq_num | CallSetPriority irq_num _
  | CallSetHandler irq_num _ _ | CallSetPending irq_num
  | CallClearPending irq_num => Some irq_num
  | _ => None
  end.

(** No fault-injection roll of either file is armed. *)
Definition faults_off (w : World) : Prop :=
  gpio_error_injection_enabled (gpio w) = 0 ∧
  nvic_error_injection_enabled (nvic w) = 0.

(** The level [VirtualGPIO_WritePin] stores for an argument. *)
Definition level (v : uint8_t) : uint8_t := if truthy v then 1 else 0.

(** The calls whose success path assigns [last_error = ..._ERROR_NONE]. *)
Definition resets_last_error (c : api_call) : bool :=
  match c with CallEnableClock _ => false | _ => true end.

(** The name of a line fits the 32-byte buffer with its terminating 0. *)
Definition name_fits (l : VirtualIRQ) : Prop :=
  (String.length (irq_name l) ≤ 31)%nat.

Definition names_fit (w : World) : Prop :=
  Forall name_fits (irq_lines (nvic w)).

(** A pin in input mode with neither pull resistor: its reads are random. *)
Definition floating_input (p : VirtualGPIOPin) : bool :=
  (mode p =? sim_gpio.GPIO_MODE_INPUT) &&
  negb (pupd p =? sim_gpio.GPIO_PUPD_UP) &&
  negb (pupd p =? sim_gpio.GPIO_PUPD_DOWN).

(** The values of [rand()] a call consumes when no fault roll is armed. *)
Definition rand_used (c : api_call) (w : World) : nat :=
  match c with
  | CallReadPin port pin =>
      if in_range c && floating_input (sim_gpio.pin_at (gpio_ready w) port pin)
      then 1 else 0
  | _ => 0
  end.

(** ** Further concrete runs *)

(** The two pending IRQs of [two_pending_world] behind a closed global gate. *)
Definition masked_pending_world : World :=
  (sim_nvic.VirtualNVIC_DisableGlobalIRQ two_pending_world).2.

(** PC13 as an input with pull-up, then written low. *)
Definition button_world : World :=
  run_calls [CallEnableClock 2;
             CallConfigurePin 2 13 sim_gpio.GPIO_MODE_INPUT sim_gpio.GPIO_OTYPE_PP
                              sim_gpio.GPIO_SPEED_LOW sim_gpio.GPIO_PUPD_UP;
             CallWritePin 2 13 0]
            (boot quiet_tape).

(** Requests to [HAL_GPIO_Init]: a both-edges interrupt on PC13, an
    open-drain alternate function on PA9, and a pin number outside the port. *)
Definition both_edges_request : sim_hal_gpio.GPIO_InitTypeDef :=
  sim_hal_gpio.mkGPIOInit 13 sim_hal_gpio.GPIO_MODE_IT_RISING_FALLING
    sim_hal_gpio.GPIO_PULLUP sim_hal_gpio.GPIO_SPEED_FREQ_LOW 0.

Definition alternate_request : sim_hal_gpio.GPIO_InitTypeDef :=
  sim_hal_gpio.mkGPIOInit 9 sim_hal_gpio.GPIO_MODE_AF_OD
    sim_hal_gpio.GPIO_NOPULL sim_hal_gpio.GPIO_SPEED_FREQ_HIGH 7.


(** * Proofs *)

(** ** The monad *)

Lemma truthy_true x : truthy x = true ↔ x ≠ 0.
Proof. unfold truthy. destruct (N.eqb_spec x 0); naive_solver. Qed.

Lemma truthy_false x : truthy x = false ↔ x = 0.
Proof. unfold truthy. destruct (N.eqb_spec x 0); naive_solver. Qed.

Lemma bind_eq {A B} (m : M A) (k : A -> M B) w :
  bind m k w = k (m w).1 (m w).2.
Proof. unfold bind. destruct (m w); reflexivity. Qed.

Lemma fst_pair {A B} (a : A) (b : B) : (a, b).1 = a.
Proof. reflexivity. Qed.

Lemma snd_pair {A B} (a : A) (b : B) : (a, b).2 = b.
Proof. reflexivity. Qed.

(** ** Tactics for running the computations *)

Ltac mrun :=
  repeat first
    [ rewrite bind_eq
    | progress (unfold ret, gets, modify, sim_gpio.update_pin, sim_gpio.update_port,
                sim_gpio.assign_last_error, sim_nvic.update_irq,
                sim_nvic.assign_last_error)
    | progress (cbn beta iota delta [fst snd]) ].

Ltac gpio_exec :=
  mrun; repeat (change (sim_gpio.ensure_init ?w).2 with (gpio_ready w)).

Ltac nvic_exec :=
  mrun; repeat (change (sim_nvic.ensure_init ?w).2 with (nvic_ready w)).

(** ** sim_gpio.c *)

Section gpio_basics.
Import sim_gpio.

Lemma ensure_init_eq w :
  ensure_init w =
  (tt, if truthy (gpio_initialized (gpio w)) then w else gpio_init_world w).
Proof.
  unfold ensure_init, VirtualGPIO_Init, bind, gets, ret, modify, srand_time.
  cbn. destruct (truthy _) eqn:E; cbn; rewrite ?E; reflexivity.
Qed.

Lemma gpio_ready_eq w :
  gpio_ready w = if truthy (gpio_initialized (gpio w)) then w else gpio_init_world w.
Proof. unfold gpio_ready. rewrite ensure_init_eq. reflexivity. Qed.

Lemma toggle_eq port pin w :
  VirtualGPIO_TogglePin port pin w =
  if (MAX_GPIO_PORTS <=? port) || (MAX_GPIO_PINS <=? pin)
  then (0, gerr GPIO_ERROR_INVALID_PIN (gpio_ready w))
  else (1, gerr GPIO_ERROR_NONE
            (write_pin port pin
               (fun p => set_value (if truthy (value p) then 0 else 1) p)
               (gpio_ready w))).
Proof.
  unfold VirtualGPIO_TogglePin. mrun. fold (gpio_ready w).
  destruct (_ || _); mrun; reflexivity.
Qed.

(** *** Sizes of the table and the effect of the lazy initialisation *)

Lemma gpio_wf_sized w : gpio_wf w → gpio_sized w.
Proof.
  intros (Hl & Hp & _). split; [done|].
  eapply Forall_impl; [exact Hp|]. by intros P [? _].
Qed.

Lemma fresh_ports_length : length fresh_ports = 9%nat.
Proof. reflexivity. Qed.

Lemma fresh_ports_lookup i P :
  fresh_ports !! i = Some P → P = init_port i.
Proof.
  unfold fresh_ports. rewrite list_lookup_fmap.
  intros H. destruct (seq _ _ !! i) eqn:E; [|done].
  apply lookup_seq in E as [-> _]. cbn in H. congruence.
Qed.

Lemma fresh_ports_wf : Forall port_wf fresh_ports.
Proof.
  apply Forall_lookup. intros i P ->%fresh_ports_lookup. split.
  - reflexivity.
  - cbn. apply Forall_replicate. cbn. lia.
Qed.

Lemma fresh_pin_at w port pin :
  gpio_ports (gpio w) = fresh_ports → pin_at w port pin = default_pin.
Proof.
  intros H. unfold pin_at, port_at. rewrite H.
  destruct (fresh_ports !! _) as [P|] eqn:E; cbn.
  - apply fresh_ports_lookup in E as ->. cbn.
    destruct (replicate _ _ !! _) eqn:E'; cbn; [|done].
    by apply lookup_replicate in E' as [-> _].
  - by rewrite lookup_nil.
Qed.

Lemma untouched_pin_at w port pin :
  Forall port_untouched (gpio_ports (gpio w)) → pin_at w port pin = default_pin.
Proof.
  intros H. unfold pin_at, port_at.
  destruct (gpio_ports _ !! _) as [P|] eqn:E; cbn.
  - eapply Forall_lookup_1 in H as [_ H]; [|exact E].
    destruct (pins P !! _) eqn:E'; cbn; [|done].
    by eapply Forall_lookup_1 in H; [|exact E'].
  - by rewrite lookup_nil.
Qed.

Lemma gpio_ready_initialized w : gpio_initialized (gpio (gpio_ready w)) ≠ 0.
Proof.
  rewrite gpio_ready_eq. destruct (truthy _) eqn:E.
  - by apply truthy_true.
  - cbn. lia.
Qed.

Lemma gpio_ready_done w : gpio_initialized (gpio w) ≠ 0 → gpio_ready w = w.
Proof. intros H%truthy_true. rewrite gpio_ready_eq. by rewrite H. Qed.

Lemma gpio_ready_idem w : gpio_ready (gpio_ready w) = gpio_ready w.
Proof. apply gpio_ready_done, gpio_ready_initialized. Qed.

Lemma gpio_ready_wf w : gpio_wf w → gpio_wf (gpio_ready w).
Proof.
  intros Hwf. rewrite gpio_ready_eq. destruct (truthy _) eqn:E; [done|].
  split; [reflexivity|]. split; [apply fresh_ports_wf|]. cbn. lia.
Qed.

Lemma gpio_ready_pin_at w port pin :
  gpio_wf w → pin_at (gpio_ready w) port pin = pin_at w port pin.
Proof.
  intros (_ & _ & Hz). rewrite gpio_ready_eq.
  destruct (truthy _) eqn:E; [done|]. apply truthy_false in E.
  rewrite fresh_pin_at by reflexivity.
  symmetry. by apply untouched_pin_at, Hz.
Qed.

Lemma gpio_ready_nvic w : nvic (gpio_ready w) = nvic w.
Proof. rewrite gpio_ready_eq. by destruct (truthy _). Qed.

Lemma gpio_ready_rand w :
  rand_tape (gpio_ready w) = rand_tape w ∧ rand_pos (gpio_ready w) = rand_pos w.
Proof. rewrite gpio_ready_eq. by destruct (truthy _). Qed.

Lemma gpio_ready_injection w :
  gpio_error_injection_enabled (gpio (gpio_ready w)) =
  gpio_error_injection_enabled (gpio w).
Proof. rewrite gpio_ready_eq. by destruct (truthy _). Qed.

(** *** Reading a pin after an assignment *)
Lemma pin_at_ports w w' port pin :
  gpio_ports (gpio w) = gpio_ports (gpio w') → pin_at w port pin = pin_at w' port pin.
Proof. unfold pin_at, port_at. by intros ->. Qed.

Lemma sized_lookup w port pin :
  gpio_sized w → port < 9 → pin < 16 →
  ∃ P p, gpio_ports (gpio w) !! N.to_nat port = Some P ∧
         pins P !! N.to_nat pin = Some p ∧ pin_at w port pin = p.
Proof.
  intros [Hl Hp] Hport Hpin.
  destruct (lookup_lt_is_Some_2 (gpio_ports (gpio w)) (N.to_nat port)) as [P HP]; [lia|].
  pose proof (Forall_lookup_1 _ _ _ _ Hp HP) as HlP. cbn in HlP.
  destruct (lookup_lt_is_Some_2 (pins P) (N.to_nat pin)) as [p Hpp]; [lia|].
  exists P, p. unfold pin_at, port_at. rewrite HP. cbn. by rewrite Hpp.
Qed.

Lemma pin_at_write_same w port pin f :
  gpio_sized w → port < 9 → pin < 16 →
  pin_at (write_pin port pin f w) port pin = f (pin_at w port pin).
Proof.
  intros Hs Hport Hpin.
  destruct (sized_lookup w port pin Hs Hport Hpin) as (P & p & HP & Hp & ->).
  unfold pin_at, port_at, write_pin. cbn.
  rewrite list_lookup_alter_eq, HP. cbn.
  by rewrite list_lookup_alter_eq, Hp.
Qed.

Lemma pin_at_write_other w port pin f port' pin' :
  (port', pin') ≠ (port, pin) →
  pin_at (write_pin port pin f w) port' pin' = pin_at w port' pin'.
Proof.
  intros Hne. unfold pin_at, port_at, write_pin. cbn.
  destruct (decide (port = port')) as [<-|Hp].
  - rewrite list_lookup_alter_eq.
    destruct (gpio_ports _ !! _) as [P|]; cbn; [|done].
    rewrite list_lookup_alter_ne; [done|]. intros E%N2Nat.inj. congruence.
  - rewrite list_lookup_alter_ne; [done|]. intros E%N2Nat.inj. congruence.
Qed.

Lemma write_pin_sized w port pin f : gpio_sized w → gpio_sized (write_pin port pin f w).
Proof.
  intros [Hl Hp]. split; cbn.
  - by rewrite length_alter.
  - apply Forall_alter; [done|]. intros P _ HP. cbn. by rewrite length_alter.
Qed.

Lemma write_pin_initialized w port pin f :
  gpio_initialized (gpio (write_pin port pin f w)) = gpio_initialized (gpio w).
Proof. reflexivity. Qed.

Lemma write_pin_write_pin w port pin f g :
  write_pin port pin f (write_pin port pin g w) = write_pin port pin (f ∘ g) w.
Proof.
  unfold write_pin, with_gpio, set_ports. cbn. f_equal. f_equal.
  rewrite list_alter_alter_eq. apply list_alter_ext; [|done].
  intros P _. unfold set_pins. cbn. f_equal. by rewrite list_alter_alter_eq.
Qed.

Lemma write_pin_id w port pin f :
  (∀ P p, gpio_ports (gpio w) !! N.to_nat port = Some P →
          pins P !! N.to_nat pin = Some p → f p = p) →
  gpio_ports (gpio (write_pin port pin f w)) = gpio_ports (gpio w).
Proof.
  intros H. cbn.
  transitivity (alter id (N.to_nat port) (gpio_ports (gpio w))).
  - apply list_alter_ext; [|done]. intros P HP. destruct P as [ps c n].
    unfold set_pins. cbn. f_equal.
    transitivity (alter id (N.to_nat pin) ps); [|by apply list_alter_id].
    apply list_alter_ext; [|done]. intros p Hp. by eapply H.
  - by apply list_alter_id.
Qed.

Lemma range_check port pin :
  port < 9 → pin < 16 → (MAX_GPIO_PORTS <=? port) || (MAX_GPIO_PINS <=? pin) = false.
Proof.
  intros. unfold MAX_GPIO_PORTS, MAX_GPIO_PINS.
  destruct (N.leb_spec 9 port), (N.leb_spec 16 pin); try lia; reflexivity.
Qed.

Lemma toggle_involutive p :
  value p ≤ 1 →
  set_value (if truthy (value (set_value (if truthy (value p) then 0 else 1) p))
             then 0 else 1)
            (set_value (if truthy (value p) then 0 else 1) p) = p.
Proof.
  intros H. destruct p as [m o s pu a v e h]. cbn in *.
  assert (v = 0 ∨ v = 1) as [-> | ->] by lia; reflexivity.
Qed.

(** C8.  On every state the API can reach and every valid (port, pin),
    whatever the pin's mode: two consecutive [VirtualGPIO_TogglePin] calls
    both succeed, the first one changes the pin's value, and after the second
    one every pin of the table (the toggled one included) is what it was
    before the first. *)
Theorem toggle_twice_restores w port pin :
  gpio_wf w → port < 9 → pin < 16 →
  let r1 := VirtualGPIO_TogglePin port pin w in
  let r2 := VirtualGPIO_TogglePin port pin r1.2 in
  r1.1 = 1 ∧ r2.1 = 1 ∧
  value (pin_at r1.2 port pin) ≠ value (pin_at w port pin) ∧
  ∀ port' pin', pin_at r2.2 port' pin' = pin_at w port' pin'.
Proof.
  intros Hwf Hport Hpin. cbn zeta.
  rewrite !toggle_eq, range_check by done. cbn [fst snd].
  pose proof (gpio_ready_wf w Hwf) as Hwf1.
  pose proof (gpio_wf_sized _ Hwf1) as Hs1.
  rewrite (gpio_ready_done (gerr _ _)) by apply gpio_ready_initialized.
  split; [done|]. split; [done|]. split.
  - rewrite (pin_at_ports _ (write_pin port pin
       (λ p, set_value (if truthy (value p) then 0 else 1) p) (gpio_ready w)))
      by reflexivity.
    rewrite pin_at_write_same by done. rewrite gpio_ready_pin_at by done.
    cbn. unfold truthy. destruct (N.eqb_spec (value (pin_at w port pin)) 0); cbn; lia.
  - intros port' pin'. rewrite <- (gpio_ready_pin_at w) by done.
    apply pin_at_ports. cbn -[write_pin].
    change (gpio_ports (gpio (write_pin port pin
       (λ p, set_value (if truthy (value p) then 0 else 1) p)
       (write_pin port pin
          (λ p, set_value (if truthy (value p) then 0 else 1) p) (gpio_ready w))))
       = gpio_ports (gpio (gpio_ready w))).
    rewrite write_pin_write_pin. apply write_pin_id.
    intros P p HP Hp. cbn. apply toggle_involutive.
    destruct Hwf1 as (_ & HF & _).
    eapply Forall_lookup_1 in HF as [_ HF]; [|exact HP].
    by eapply Forall_lookup_1 in HF; [|exact Hp].
Qed.

(** *** The fault-injection roll of sim_gpio.c *)
Lemma gpio_inject_error_eq w :
  inject_error w =
  if truthy (gpio_error_injection_enabled (gpio w)) then
    if rand_tape w (rand_pos w) mod 10 =? 0
    then (1, gerr (u8 (rand_tape w (S (rand_pos w)) mod 5 + 1)) (skip_rand 2 w))
    else (0, skip_rand 1 w)
  else (0, w).
Proof.
  unfold inject_error. mrun.
  destruct (truthy _); cbn [negb]; [|reflexivity].
  mrun. destruct (_ =? 0); reflexivity.
Qed.

Lemma inject_error_gpio w :
  gpio_ports (gpio (inject_error w).2) = gpio_ports (gpio w) ∧
  gpio_initialized (gpio (inject_error w).2) = gpio_initialized (gpio w) ∧
  gpio_error_injection_enabled (gpio (inject_error w).2) =
    gpio_error_injection_enabled (gpio w) ∧
  nvic (inject_error w).2 = nvic w.
Proof.
  rewrite gpio_inject_error_eq. destruct (truthy _); [|done].
  by destruct (_ =? 0).
Qed.

Lemma inject_error_sized w : gpio_sized w → gpio_sized (inject_error w).2.
Proof.
  unfold gpio_sized. by destruct (inject_error_gpio w) as (-> & _).
Qed.

Lemma inject_error_pin_at w port pin :
  pin_at (inject_error w).2 port pin = pin_at w port pin.
Proof. apply pin_at_ports, inject_error_gpio. Qed.

Lemma gpio_inject_error_fires w :
  gpio_error_injection_enabled (gpio w) ≠ 0 →
  rand_tape w (rand_pos w) mod 10 = 0 →
  (inject_error w).1 = 1.
Proof.
  intros H%truthy_true Hr. rewrite gpio_inject_error_eq, H, Hr. reflexivity.
Qed.

Lemma gpio_inject_error_off w :
  gpio_error_injection_enabled (gpio w) = 0 → inject_error w = (0, w).
Proof. intros H%truthy_false. by rewrite gpio_inject_error_eq, H. Qed.

Lemma configure_interrupt_eq port pin m h w :
  VirtualGPIO_ConfigureInterrupt port pin m h w =
  if (MAX_GPIO_PORTS <=? port) || (MAX_GPIO_PINS <=? pin)
  then (0, gerr GPIO_ERROR_INTERRUPT (gpio_ready w))
  else
    let r := inject_error (gpio_ready w) in
    if truthy r.1 then (0, r.2)
    else (1, gerr GPIO_ERROR_NONE
               (write_pin port pin (set_irq_handler h)
                 (write_pin port pin (set_irq_enabled 1)
                   (write_pin port pin (set_mode m) r.2)))).
Proof.
  unfold VirtualGPIO_ConfigureInterrupt. gpio_exec.
  destruct (_ || _); gpio_exec; [reflexivity|].
  destruct (truthy _); gpio_exec; reflexivity.
Qed.

Section simulate.
Variable gpio_handler : funptr → uint8_t → uint8_t → World → World.

Lemma simulate_interrupt_eq port pin edge w :
  VirtualGPIO_SimulateInterrupt gpio_handler port pin edge w =
  let w1 := gpio_ready w in
  let p := pin_at w1 port pin in
  if (MAX_GPIO_PORTS <=? port) || (MAX_GPIO_PINS <=? pin) then ([], w1)
  else if truthy (irq_enabled p) then
    if should_trigger p edge then
      match irq_handler p with
      | Some h => ([(h, port, pin)], gpio_handler h port pin w1)
      | None => ([], w1)
      end
    else ([], w1)
  else ([], w1).
Proof.
  unfold VirtualGPIO_SimulateInterrupt. gpio_exec. cbn zeta.
  destruct (_ || _); gpio_exec; [reflexivity|].
  destruct (truthy (irq_enabled _)); cbn [negb]; gpio_exec; [|reflexivity].
  unfold should_trigger. destruct (_ || _ || _).
  - change (truthy 1) with true. cbn iota.
    destruct (irq_handler _); gpio_exec; reflexivity.
  - reflexivity.
Qed.

Lemma should_trigger_matches p t e :
  mode p = trigger_mode t → should_trigger p (edge_code e) = trigger_matches t e.
Proof. unfold should_trigger. intros ->. by destruct t, e. Qed.

Lemma should_trigger_mode p edge :
  should_trigger p edge = true → ∃ t, mode p = trigger_mode t.
Proof.
  unfold should_trigger. intros H.
  destruct (N.eqb_spec (mode p) GPIO_MODE_IT_RISING); [by exists TrigRising|].
  destruct (N.eqb_spec (mode p) GPIO_MODE_IT_FALLING); [by exists TrigFalling|].
  destruct (N.eqb_spec (mode p) GPIO_MODE_IT_BOTH); [by exists TrigBoth|].
  done.
Qed.

Lemma simulate_interrupt_after_configure w0 w1 port pin t h e :
  gpio_wf w0 →
  VirtualGPIO_ConfigureInterrupt port pin (trigger_mode t) (Some h) w0 = (1, w1) →
  VirtualGPIO_SimulateInterrupt gpio_handler port pin (edge_code e) w1 =
    if trigger_matches t e
    then ([(h, port, pin)], gpio_handler h port pin w1)
    else ([], w1).
Proof.
  intros Hwf Hcfg.
  rewrite configure_interrupt_eq in Hcfg.
  destruct (_ || _) eqn:Hrange; [done|].
  apply orb_false_elim in Hrange as [Hport%N.leb_gt Hpin%N.leb_gt].
  cbn zeta in Hcfg. destruct (truthy _); [done|].
  injection Hcfg as <-.
  set (w2 := (inject_error (gpio_ready w0)).2).
  assert (gpio_sized w2) as Hs
    by (apply inject_error_sized, gpio_wf_sized, gpio_ready_wf, Hwf).
  assert (pin_at (gerr GPIO_ERROR_NONE
             (write_pin port pin (set_irq_handler (Some h))
               (write_pin port pin (set_irq_enabled 1)
                 (write_pin port pin (set_mode (trigger_mode t)) w2)))) port pin
          = set_irq_handler (Some h) (set_irq_enabled 1
              (set_mode (trigger_mode t) (pin_at w2 port pin)))) as Hp.
  { rewrite (pin_at_ports _ (write_pin port pin (set_irq_handler (Some h))
               (write_pin port pin (set_irq_enabled 1)
                 (write_pin port pin (set_mode (trigger_mode t)) w2))))
      by reflexivity.
    rewrite !pin_at_write_same; auto using write_pin_sized. }
  rewrite simulate_interrupt_eq. cbn zeta.
  rewrite gpio_ready_done.
  2:{ change (gpio_initialized (gpio w2) ≠ 0). unfold w2.
      destruct (inject_error_gpio (gpio_ready w0)) as (_ & -> & _).
      apply gpio_ready_initialized. }
  rewrite Hp. unfold MAX_GPIO_PORTS, MAX_GPIO_PINS in *.
  rewrite range_check by done.
  change (truthy (irq_enabled _)) with true. cbn iota.
  rewrite (should_trigger_matches _ t e) by reflexivity.
  by destruct (trigger_matches t e).
Qed.

Lemma simulate_interrupt_silent w port pin e :
  gpio_wf w →
  irq_handler (pin_at w port pin) = None ∨
  (∀ t, mode (pin_at w port pin) ≠ trigger_mode t) ∨
  (∃ t, mode (pin_at w port pin) = trigger_mode t ∧ trigger_matches t e = false) →
  (VirtualGPIO_SimulateInterrupt gpio_handler port pin (edge_code e) w).1 = [] ∧
  ∀ port' pin',
    pin_at (VirtualGPIO_SimulateInterrupt gpio_handler port pin (edge_code e) w).2
           port' pin' = pin_at w port' pin'.
Proof.
  intros Hwf Hcase.
  rewrite simulate_interrupt_eq. cbn zeta.
  rewrite gpio_ready_pin_at by done.
  assert (∀ port' pin', pin_at (gpio_ready w) port' pin' = pin_at w port' pin') as Hsame
    by (intros; by apply gpio_ready_pin_at).
  destruct (_ || _); [done|].
  destruct (truthy _); [|done].
  destruct (should_trigger _ _) eqn:Htrig; [|done].
  destruct Hcase as [Hnone | [Hmode | (t & Hmode & Hmis)]].
  - by rewrite Hnone.
  - apply should_trigger_mode in Htrig as [t Ht]. by destruct (Hmode t).
  - rewrite (should_trigger_matches _ t e) in Htrig by done. congruence.
Qed.

(** C3.  After a successful [VirtualGPIO_ConfigureInterrupt(port, pin, t, h)]
    with a handler [h], [VirtualGPIO_SimulateInterrupt(port, pin, edge)] calls
    [h(port, pin)] exactly once when [edge] matches the trigger [t] (Rising
    on a rising edge, Falling on a falling edge, Both on either) and makes no
    call and no change otherwise.  And in any reachable state, on a pin with
    no handler, or whose mode is no interrupt variant, or whose trigger does
    not match the edge, it makes no call and leaves every pin unchanged. *)
Theorem simulate_interrupt_fires_iff_edge_matches w0 w1 port pin t h e :
  gpio_wf w0 →
  VirtualGPIO_ConfigureInterrupt port pin (trigger_mode t) (Some h) w0 = (1, w1) →
  VirtualGPIO_SimulateInterrupt gpio_handler port pin (edge_code e) w1 =
    (if trigger_matches t e
     then ([(h, port, pin)], gpio_handler h port pin w1)
     else ([], w1)) ∧
  ∀ w e',
    gpio_wf w →
    irq_handler (pin_at w port pin) = None ∨
    (∀ t', mode (pin_at w port pin) ≠ trigger_mode t') ∨
    (∃ t', mode (pin_at w port pin) = trigger_mode t' ∧
           trigger_matches t' e' = false) →
    (VirtualGPIO_SimulateInterrupt gpio_handler port pin (edge_code e') w).1 = [] ∧
    ∀ port' pin',
      pin_at (VirtualGPIO_SimulateInterrupt gpio_handler port pin (edge_code e') w).2
             port' pin' = pin_at w port' pin'.
Proof.
  intros Hwf Hcfg. split.
  - by apply (simulate_interrupt_after_configure w0).
  - intros w e' Hw Hcase. by apply simulate_interrupt_silent.
Qed.

End simulate.

(** *** The remaining operations, as equations *)

Lemma enable_clock_eq port w :
  VirtualGPIO_EnableClock port w =
  if MAX_GPIO_PORTS <=? port
  then (0, gerr GPIO_ERROR_INVALID_PORT (gpio_ready w))
  else
    let r := inject_error (gpio_ready w) in
    if truthy r.1 then (0, r.2)
    else (1, write_port port (set_clock_enabled 1) r.2).
Proof.
  unfold VirtualGPIO_EnableClock. gpio_exec.
  destruct (_ <=? _); gpio_exec; [reflexivity|].
  destruct (truthy _); gpio_exec; reflexivity.
Qed.

Lemma configure_pin_eq port pin m ot sp pu w :
  VirtualGPIO_ConfigurePin port pin m ot sp pu w =
  if MAX_GPIO_PORTS <=? port
  then (0, gerr GPIO_ERROR_INVALID_PORT (gpio_ready w))
  else if MAX_GPIO_PINS <=? pin
  then (0, gerr GPIO_ERROR_INVALID_PIN (gpio_ready w))
  else if truthy (clock_enabled (port_at (gpio_ready w) port)) then
    let r := inject_error (gpio_ready w) in
    if truthy r.1 then (0, r.2)
    else (1, gerr GPIO_ERROR_NONE
               (write_pin port pin (set_pupd pu)
                 (write_pin port pin (set_speed sp)
                   (write_pin port pin (set_output_type ot)
                     (write_pin port pin (set_mode m) r.2)))))
  else (0, gerr GPIO_ERROR_CONFIG (gpio_ready w)).
Proof.
  unfold VirtualGPIO_ConfigurePin. gpio_exec.
  destruct (_ <=? _); gpio_exec; [reflexivity|].
  destruct (_ <=? _); gpio_exec; [reflexivity|].
  destruct (truthy (clock_enabled _)); cbn [negb]; gpio_exec; [|reflexivity].
  destruct (truthy _); gpio_exec; reflexivity.
Qed.

Lemma set_alt_function_eq port pin af w :
  VirtualGPIO_SetAltFunction port pin af w =
  if (MAX_GPIO_PORTS <=? port) || (MAX_GPIO_PINS <=? pin)
  then (0, gerr GPIO_ERROR_PINMUX (gpio_ready w))
  else
    let r := inject_error (gpio_ready w) in
    if truthy r.1 then (0, r.2)
    else (1, gerr GPIO_ERROR_NONE (write_pin port pin (set_alt_function af)
               (if mode (pin_at r.2 port pin) =? GPIO_MODE_ALTERNATE
                then r.2 else gerr GPIO_ERROR_PINMUX r.2))).
Proof.
  unfold VirtualGPIO_SetAltFunction. gpio_exec.
  destruct (_ || _); gpio_exec; [reflexivity|].
  destruct (truthy _); gpio_exec; [reflexivity|].
  destruct (_ =? GPIO_MODE_ALTERNATE); cbn [negb]; gpio_exec; reflexivity.
Qed.

Lemma write_pin_eq port pin v w :
  VirtualGPIO_WritePin port pin v w =
  if (MAX_GPIO_PORTS <=? port) || (MAX_GPIO_PINS <=? pin)
  then (0, gerr GPIO_ERROR_INVALID_PORT (gpio_ready w))
  else
    let r := inject_error (gpio_ready w) in
    if truthy r.1 then (0, r.2)
    else (1, gerr GPIO_ERROR_NONE
               (write_pin port pin (set_value (if truthy v then 1 else 0)) r.2)).
Proof.
  unfold VirtualGPIO_WritePin. gpio_exec.
  destruct (_ || _); gpio_exec; [reflexivity|].
  destruct (truthy _); gpio_exec; reflexivity.
Qed.

Lemma read_pin_eq port pin w :
  VirtualGPIO_ReadPin port pin w =
  if (MAX_GPIO_PORTS <=? port) || (MAX_GPIO_PINS <=? pin)
  then ((0, None), gerr GPIO_ERROR_INVALID_PIN (gpio_ready w))
  else
    let r := inject_error (gpio_ready w) in
    if truthy r.1 then ((0, None), r.2)
    else
      let p := pin_at r.2 port pin in
      if mode p =? GPIO_MODE_INPUT then
        let lv := input_level p r.2 in
        ((1, Some lv.1), gerr GPIO_ERROR_NONE (write_pin port pin (set_value lv.1) lv.2))
      else ((1, Some (value p)), gerr GPIO_ERROR_NONE r.2).
Proof.
  unfold VirtualGPIO_ReadPin. gpio_exec.
  destruct (_ || _); gpio_exec; [reflexivity|].
  destruct (truthy _); gpio_exec; [reflexivity|]. cbn zeta.
  destruct (_ =? GPIO_MODE_INPUT); gpio_exec; [|reflexivity].
  unfold input_level.
  destruct (_ =? GPIO_PUPD_UP); gpio_exec; [reflexivity|].
  destruct (_ =? GPIO_PUPD_DOWN); gpio_exec; [reflexivity|].
  unfold rand. reflexivity.
Qed.

End gpio_basics.

(** ** sim_nvic.c *)

Section nvic_basics.
Import sim_nvic.

Lemma nvic_init_eq w :
  VirtualNVIC_Init w =
  (tt, if truthy (nvic_initialized (nvic w)) then w else nvic_init_world w).
Proof.
  unfold VirtualNVIC_Init. mrun. destruct (truthy _); mrun; reflexivity.
Qed.

Lemma nvic_ensure_init_eq w : ensure_init w = VirtualNVIC_Init w.
Proof.
  unfold ensure_init. mrun. rewrite nvic_init_eq.
  destruct (truthy _) eqn:E; mrun; [reflexivity|].
  rewrite nvic_init_eq, E. reflexivity.
Qed.

Lemma nvic_ready_eq w :
  nvic_ready w = if truthy (nvic_initialized (nvic w)) then w else nvic_init_world w.
Proof. unfold nvic_ready. by rewrite nvic_ensure_init_eq, nvic_init_eq. Qed.

Lemma nvic_ready_initialized w : nvic_initialized (nvic (nvic_ready w)) ≠ 0.
Proof.
  rewrite nvic_ready_eq. destruct (truthy _) eqn:E.
  - by apply truthy_true.
  - cbn. lia.
Qed.

Lemma nvic_ready_done w : nvic_initialized (nvic w) ≠ 0 → nvic_ready w = w.
Proof. intros H%truthy_true. rewrite nvic_ready_eq. by rewrite H. Qed.

Lemma nvic_ready_idem w : nvic_ready (nvic_ready w) = nvic_ready w.
Proof. apply nvic_ready_done, nvic_ready_initialized. Qed.

Lemma nvic_ready_gpio w : gpio (nvic_ready w) = gpio w.
Proof. rewrite nvic_ready_eq. by destruct (truthy _). Qed.

Lemma nvic_ready_rand w :
  rand_tape (nvic_ready w) = rand_tape w ∧ rand_pos (nvic_ready w) = rand_pos w.
Proof. rewrite nvic_ready_eq. by destruct (truthy _). Qed.

Lemma nvic_ready_injection w :
  nvic_error_injection_enabled (nvic (nvic_ready w)) =
  nvic_error_injection_enabled (nvic w).
Proof. rewrite nvic_ready_eq. by destruct (truthy _). Qed.

Lemma fresh_lines_length : length fresh_lines = 240%nat.
Proof. unfold fresh_lines. by rewrite length_fmap, length_seq. Qed.

Lemma fresh_lines_lookup i l : fresh_lines !! i = Some l → l = default_irq i.
Proof.
  unfold fresh_lines. rewrite list_lookup_fmap.
  intros H. destruct (seq _ _ !! i) eqn:E; [|done].
  apply lookup_seq in E as [-> _]. cbn in H. congruence.
Qed.

Lemma nvic_ready_wf w : nvic_wf w → nvic_wf (nvic_ready w).
Proof.
  intros Hwf. rewrite nvic_ready_eq. destruct (truthy _) eqn:E; [done|].
  split; [apply fresh_lines_length|]. split.
  - apply Forall_lookup. intros i l ->%fresh_lines_lookup. cbn. unfold MAX_PRIORITY. lia.
  - cbn. lia.
Qed.

(** *** The fault-injection roll of sim_nvic.c *)
Lemma nvic_inject_error_eq w :
  inject_error w =
  if truthy (nvic_error_injection_enabled (nvic w)) then
    if rand_tape w (rand_pos w) mod 10 =? 0
    then (1, nerr (u8 (rand_tape w (S (rand_pos w)) mod 2 + 1)) (skip_rand 2 w))
    else (0, skip_rand 1 w)
  else (0, w).
Proof.
  unfold inject_error. mrun.
  destruct (truthy _); cbn [negb]; [|reflexivity].
  mrun. destruct (_ =? 0); reflexivity.
Qed.

Lemma inject_error_nvic w :
  irq_lines (nvic (inject_error w).2) = irq_lines (nvic w) ∧
  nvic_initialized (nvic (inject_error w).2) = nvic_initialized (nvic w) ∧
  global_irq_enabled (nvic (inject_error w).2) = global_irq_enabled (nvic w) ∧
  nvic_error_injection_enabled (nvic (inject_error w).2) =
    nvic_error_injection_enabled (nvic w) ∧
  gpio (inject_error w).2 = gpio w.
Proof.
  rewrite nvic_inject_error_eq. destruct (truthy _); [|done].
  by destruct (_ =? 0).
Qed.

Lemma nvic_inject_error_fires w :
  nvic_error_injection_enabled (nvic w) ≠ 0 →
  rand_tape w (rand_pos w) mod 10 = 0 →
  (inject_error w).1 = 1.
Proof.
  intros H%truthy_true Hr. rewrite nvic_inject_error_eq, H, Hr. reflexivity.
Qed.

(** *** The operations, as equations *)
Lemma enable_irq_eq irq w :
  VirtualNVIC_EnableIRQ irq w =
  if MAX_IRQ_LINES <=? irq then (0, nerr NVIC_ERROR_INVALID_IRQ (nvic_ready w))
  else
    let r := inject_error (nvic_ready w) in
    if truthy r.1 then (0, r.2)
    else (1, nerr NVIC_ERROR_NONE (write_irq (N.to_nat irq) (set_enabled 1) r.2)).
Proof.
  unfold VirtualNVIC_EnableIRQ. nvic_exec.
  destruct (_ <=? _); nvic_exec; [reflexivity|].
  destruct (truthy _); nvic_exec; reflexivity.
Qed.

Lemma disable_irq_eq irq w :
  VirtualNVIC_DisableIRQ irq w =
  if MAX_IRQ_LINES <=? irq then (0, nerr NVIC_ERROR_INVALID_IRQ (nvic_ready w))
  else (1, nerr NVIC_ERROR_NONE
             (write_irq (N.to_nat irq) (set_enabled 0) (nvic_ready w))).
Proof.
  unfold VirtualNVIC_DisableIRQ. nvic_exec.
  destruct (_ <=? _); nvic_exec; reflexivity.
Qed.

Lemma set_priority_eq irq prio w :
  VirtualNVIC_SetPriority irq prio w =
  if MAX_IRQ_LINES <=? irq then (0, nerr NVIC_ERROR_INVALID_IRQ (nvic_ready w))
  else if MAX_PRIORITY <? prio then (0, nerr NVIC_ERROR_PRIORITY (nvic_ready w))
  else
    let r := inject_error (nvic_ready w) in
    if truthy r.1 then (0, r.2)
    else (1, nerr NVIC_ERROR_NONE (write_irq (N.to_nat irq) (set_priority prio) r.2)).
Proof.
  unfold VirtualNVIC_SetPriority. nvic_exec.
  destruct (_ <=? _); nvic_exec; [reflexivity|].
  destruct (_ <? _); nvic_exec; [reflexivity|].
  destruct (truthy _); nvic_exec; reflexivity.
Qed.

Lemma get_priority_eq irq w :
  VirtualNVIC_GetPriority irq w =
  if MAX_IRQ_LINES <=? irq then (MAX_PRIORITY, nvic_ready w)
  else (priority (irq_at (nvic_ready w) (N.to_nat irq)), nvic_ready w).
Proof.
  unfold VirtualNVIC_GetPriority. nvic_exec.
  destruct (_ <=? _); nvic_exec; reflexivity.
Qed.

Lemma set_handler_eq irq h nm w :
  VirtualNVIC_SetHandler irq h nm w =
  if MAX_IRQ_LINES <=? irq then (0, nerr NVIC_ERROR_INVALID_IRQ (nvic_ready w))
  else (1, nerr NVIC_ERROR_NONE
             (match nm with
              | Some s => write_irq (N.to_nat irq) (set_irq_name (strncpy_name s))
              | None => id
              end (write_irq (N.to_nat irq) (set_handler h) (nvic_ready w)))).
Proof.
  unfold VirtualNVIC_SetHandler. nvic_exec.
  destruct (_ <=? _); nvic_exec; [reflexivity|].
  destruct nm; nvic_exec; reflexivity.
Qed.

Lemma set_pending_eq irq w :
  VirtualNVIC_SetPending irq w =
  if MAX_IRQ_LINES <=? irq then (0, nerr NVIC_ERROR_INVALID_IRQ (nvic_ready w))
  else
    let r := inject_error (nvic_ready w) in
    if truthy r.1 then (0, r.2)
    else (1, nerr NVIC_ERROR_NONE (write_irq (N.to_nat irq) (set_pending 1) r.2)).
Proof.
  unfold VirtualNVIC_SetPending. nvic_exec.
  destruct (_ <=? _); nvic_exec; [reflexivity|].
  destruct (truthy _); nvic_exec; reflexivity.
Qed.

Lemma clear_pending_eq irq w :
  VirtualNVIC_ClearPending irq w =
  if MAX_IRQ_LINES <=? irq then (0, nerr NVIC_ERROR_INVALID_IRQ (nvic_ready w))
  else (1, nerr NVIC_ERROR_NONE
             (write_irq (N.to_nat irq) (set_pending 0) (nvic_ready w))).
Proof.
  unfold VirtualNVIC_ClearPending. nvic_exec.
  destruct (_ <=? _); nvic_exec; reflexivity.
Qed.

(** *** The scan of [find_highest_priority_pending] *)
Lemma dispatchable_spec l :
  dispatchable l = true ↔ enabled l ≠ 0 ∧ pending l ≠ 0 ∧ active l = 0.
Proof.
  unfold dispatchable. rewrite !andb_true_iff, negb_true_iff.
  rewrite !truthy_true, truthy_false. tauto.
Qed.

Lemma eligible_dispatchable w i :
  nvic_wf w → eligible w i ↔ dispatchable (irq_at w i) = true.
Proof.
  intros (Hlen & _ & _). unfold eligible, irq_at. split.
  - intros (l & -> & H). cbn. by apply dispatchable_spec.
  - destruct (irq_lines _ !! i) as [l|] eqn:E; cbn.
    + intros H%dispatchable_spec. eauto.
    + done.
Qed.

Lemma scan_S w n : scan_lines w (S n) = scan_step w (scan_lines w n) n.
Proof. unfold scan_lines. by rewrite seq_S, foldl_app. Qed.

Lemma scan_step_inv w n acc :
  scan_inv w n acc → scan_inv w (S n) (scan_step w acc n).
Proof.
  unfold scan_inv, scan_step. destruct acc as [[i|] bp]; cbn [fst snd].
  - intros (Hi & Hd & Hbp & Hlt & Hmin).
    destruct (dispatchable (irq_at w n)) eqn:Hdn.
    + destruct (N.ltb_spec (priority (irq_at w n)) bp); cbn [fst snd].
      * split; [lia|]. split; [done|]. split; [done|]. split; [lia|].
        intros j Hj Hdj. destruct (decide (j = n)) as [->|Hne]; [split; lia|].
        destruct (Hmin j) as [? ?]; [lia|done|]. split; lia.
      * split; [lia|]. split; [done|]. split; [done|]. split; [done|].
        intros j Hj Hdj. destruct (decide (j = n)) as [->|Hne]; [split; lia|].
        apply Hmin; [lia|done].
    + cbn [fst snd]. split; [lia|]. split; [done|]. split; [done|]. split; [done|].
      intros j Hj Hdj. destruct (decide (j = n)) as [->|Hne]; [congruence|].
      apply Hmin; [lia|done].
  - intros (-> & Hnone).
    destruct (dispatchable (irq_at w n)) eqn:Hdn.
    + destruct (N.ltb_spec (priority (irq_at w n)) 16); cbn [fst snd].
      * split; [lia|]. split; [done|]. split; [done|]. split; [done|].
        intros j Hj Hdj. destruct (decide (j = n)) as [->|Hne]; [split; lia|].
        specialize (Hnone j ltac:(lia) Hdj). split; [|intros]; lia.
      * split; [done|]. intros j Hj Hdj.
        destruct (decide (j = n)) as [->|Hne]; [done|]. apply Hnone; [lia|done].
    + cbn [fst snd]. split; [done|]. intros j Hj Hdj.
      destruct (decide (j = n)) as [->|Hne]; [congruence|]. apply Hnone; [lia|done].
Qed.

Lemma scan_invariant w n : scan_inv w n (scan_lines w n).
Proof.
  induction n as [|n IH].
  - cbn. split; [reflexivity|]. intros; lia.
  - rewrite scan_S. by apply scan_step_inv.
Qed.

Abbreviation found w := (scan_lines w (N.to_nat MAX_IRQ_LINES)).1.

Lemma find_eq w : find_highest_priority_pending w = (found w, w).
Proof. reflexivity. Qed.

Lemma lines_240 : N.to_nat MAX_IRQ_LINES = 240%nat.
Proof. reflexivity. Qed.

Lemma wf_line_priority w i : nvic_wf w → priority (irq_at w i) ≤ 15.
Proof.
  intros (_ & Hp & _). unfold irq_at.
  destruct (irq_lines _ !! i) eqn:E; cbn.
  - by eapply Forall_lookup_1 in Hp; [|exact E].
  - unfold MAX_PRIORITY. lia.
Qed.

Lemma eligible_lt w i : nvic_wf w → eligible w i → (i < 240)%nat.
Proof.
  intros (Hlen & _) (l & Hl & _). apply lookup_lt_Some in Hl. lia.
Qed.

Lemma scan_inv_some w n acc i :
  scan_inv w n acc → acc.1 = Some i →
  dispatchable (irq_at w i) = true ∧
  ∀ j, (j < n)%nat → dispatchable (irq_at w j) = true →
       priority (irq_at w i) ≤ priority (irq_at w j) ∧
       (priority (irq_at w j) = priority (irq_at w i) → (i ≤ j)%nat).
Proof.
  destruct acc as [[k|] bp]; unfold scan_inv; cbn [fst snd]; [|done].
  intros (_ & Hd & -> & _ & Hmin) [= ->]. done.
Qed.

Lemma scan_inv_none w n acc :
  scan_inv w n acc → acc.1 = None →
  ∀ j, (j < n)%nat → dispatchable (irq_at w j) = true → 16 ≤ priority (irq_at w j).
Proof.
  destruct acc as [[k|] bp]; unfold scan_inv; cbn [fst snd]; [done|].
  by intros (_ & Hnone) _.
Qed.

Lemma find_some w i :
  nvic_wf w → found w = Some i → lowest_eligible w i.
Proof.
  intros Hwf Hfind.
  destruct (scan_inv_some w _ _ i (scan_invariant w _) Hfind) as [Hd Hmin].
  split.
  - by apply eligible_dispatchable.
  - intros j Hj. apply Hmin.
    + rewrite lines_240. by eapply eligible_lt.
    + by apply eligible_dispatchable.
Qed.

Lemma find_none w :
  nvic_wf w → found w = None → ∀ j, ¬ eligible w j.
Proof.
  intros Hwf Hfind j Hj.
  pose proof (eligible_lt w j Hwf Hj) as Hlt. rewrite <- lines_240 in Hlt.
  pose proof (scan_inv_none w _ _ (scan_invariant w _) Hfind j Hlt) as Hnone.
  pose proof (wf_line_priority w j Hwf).
  apply eligible_dispatchable in Hj; [|done]. specialize (Hnone Hj). lia.
Qed.

Lemma lowest_eligible_unique w i j :
  lowest_eligible w i → lowest_eligible w j → i = j.
Proof.
  intros [Hi Hmi] [Hj Hmj].
  destruct (Hmi j Hj) as [? ?], (Hmj i Hi) as [? ?].
  assert (priority (irq_at w i) = priority (irq_at w j)) as E by lia.
  assert (i ≤ j)%nat by auto. assert (j ≤ i)%nat by auto. lia.
Qed.

Section dispatch.
Variable nvic_handler : funptr → World → World.

Lemma process_interrupts_eq w :
  VirtualNVIC_ProcessInterrupts nvic_handler w =
  let w0 := nvic_ready w in
  if truthy (global_irq_enabled (nvic w0)) then
    match found w0 with
    | Some i => ([i], dispatch nvic_handler i w0)
    | None => ([], w0)
    end
  else ([], w0).
Proof.
  unfold VirtualNVIC_ProcessInterrupts.
  rewrite bind_eq. change (ensure_init w).2 with (nvic_ready w). cbn zeta.
  rewrite bind_eq. unfold gets at 1 2. cbn [fst snd].
  destruct (truthy _); cbn [negb]; [|reflexivity].
  rewrite bind_eq, find_eq, fst_pair, snd_pair.
  destruct (found _) as [i|]; [|reflexivity].
  nvic_exec. unfold dispatch, invoke. cbn zeta.
  destruct (handler _); nvic_exec; reflexivity.
Qed.

(** C1.  In a reachable state with global interrupts enabled and some
    eligible line, [VirtualNVIC_ProcessInterrupts] dispatches exactly one
    line [i]: the eligible line of numerically lowest priority, the lowest
    IRQ number among equals.  The handler of line [i] runs in the world [w1]
    in which that line's pending flag is 0 and its active flag 1 and every
    other line is untouched; after it returns, the active flag of line [i]
    is set back to 0. *)
Theorem process_one_dispatches_lowest w :
  nvic_wf w →
  global_irq_enabled (nvic w) ≠ 0 →
  (∃ j, eligible w j) →
  ∃ i,
    lowest_eligible w i ∧
    let w1 := write_irq i (set_active 1) (write_irq i (set_pending 0) w) in
    let w2 := invoke nvic_handler (handler (irq_at w1 i)) w1 in
    pending (irq_at w1 i) = 0 ∧ active (irq_at w1 i) = 1 ∧
    handler (irq_at w1 i) = handler (irq_at w i) ∧
    (∀ j, j ≠ i → irq_at w1 j = irq_at w j) ∧
    VirtualNVIC_ProcessInterrupts nvic_handler w =
      ([i], write_irq i (set_active 0) w2) ∧
    irq_lines (nvic (write_irq i (set_active 0) w2)) !! i =
      set_active 0 <$> irq_lines (nvic w2) !! i.
Proof.
  intros Hwf Hglobal [j Hj].
  assert (nvic_initialized (nvic w) ≠ 0) as Hinit.
  { intros Hz. destruct Hwf as (_ & _ & Hoff). specialize (Hoff Hz).
    destruct Hj as (l & Hl & Hen & _).
    by eapply Forall_lookup_1 in Hoff; [|exact Hl]. }
  destruct (found w) as [i|] eqn:Hfind.
  2:{ by destruct (find_none w Hwf Hfind j). }
  exists i. split; [by apply find_some|]. cbn zeta.
  pose proof (find_some w i Hwf Hfind) as [(l & Hl & _) _].
  assert (irq_at (write_irq i (set_active 1) (write_irq i (set_pending 0) w)) i
          = set_active 1 (set_pending 0 l)) as Hat.
  { unfold irq_at, write_irq. cbn. rewrite !list_lookup_alter_eq, Hl. reflexivity. }
  rewrite Hat. split; [reflexivity|]. split; [reflexivity|]. split.
  { unfold irq_at. rewrite Hl. reflexivity. } split.
  { intros k Hk. unfold irq_at, write_irq. cbn.
    by rewrite !list_lookup_alter_ne. } split.
  - rewrite process_interrupts_eq. cbn zeta. rewrite nvic_ready_done by done.
    apply truthy_true in Hglobal. rewrite Hglobal, Hfind.
    unfold dispatch. cbn zeta. rewrite Hat. reflexivity.
  - unfold write_irq at 1. cbn. by rewrite list_lookup_alter_eq.
Qed.

Lemma process_interrupts_length w :
  (length (VirtualNVIC_ProcessInterrupts nvic_handler w).1 ≤ 1)%nat.
Proof.
  rewrite process_interrupts_eq. cbn zeta.
  destruct (truthy _); [|cbn; lia].
  destruct (found _); cbn; lia.
Qed.

Lemma process_loop_S fuel processed d w :
  process_loop nvic_handler (S fuel) processed d w =
  match found w with
  | None => (Some (processed, d), w)
  | Some _ =>
      let r := VirtualNVIC_ProcessInterrupts nvic_handler w in
      if 100 <? processed + 1 then (Some (processed + 1, d ++ r.1), r.2)
      else process_loop nvic_handler fuel (processed + 1) (d ++ r.1) r.2
  end.
Proof.
  cbn [process_loop]. rewrite bind_eq, find_eq, fst_pair, snd_pair.
  destruct (found w); [|reflexivity].
  rewrite bind_eq. cbn zeta. destruct (_ <? _); reflexivity.
Qed.

Lemma process_loop_enough fuel :
  ∀ processed d w,
    processed ≤ 100 → (101 - N.to_nat processed ≤ fuel)%nat →
    ∃ p d' w',
      process_loop nvic_handler fuel processed d w = (Some (p, d'), w') ∧
      processed ≤ p ≤ 101 ∧
      (length d' ≤ length d + N.to_nat (p - processed))%nat ∧
      ∀ fuel', (101 - N.to_nat processed ≤ fuel')%nat →
        process_loop nvic_handler fuel' processed d w = (Some (p, d'), w').
Proof.
  induction fuel as [|fuel IH]; intros processed d w Hp Hfuel; [lia|].
  rewrite process_loop_S.
  destruct (found w) eqn:Hfound.
  - cbn zeta. destruct (N.ltb_spec 100 (processed + 1)) as [Hbreak|Hgo].
    + eexists _, _, _. split; [reflexivity|]. split; [lia|]. split.
      * rewrite length_app.
        pose proof (process_interrupts_length w). lia.
      * intros [|fuel'] Hf'; [lia|]. rewrite process_loop_S, Hfound. cbn zeta.
        destruct (N.ltb_spec 100 (processed + 1)); [reflexivity|lia].
    + destruct (IH (processed + 1)
                  (d ++ (VirtualNVIC_ProcessInterrupts nvic_handler w).1)
                  (VirtualNVIC_ProcessInterrupts nvic_handler w).2)
        as (p & d' & w' & Heq & Hb & Hlen & Hirr); [lia|lia|].
      exists p, d', w'. split; [done|]. split; [lia|]. split.
      * rewrite length_app in Hlen.
        pose proof (process_interrupts_length w). lia.
      * intros [|fuel'] Hf'; [lia|]. rewrite process_loop_S, Hfound. cbn zeta.
        destruct (N.ltb_spec 100 (processed + 1)); [lia|]. apply Hirr. lia.
  - eexists _, _, _. split; [reflexivity|]. split; [lia|]. split; [lia|].
    intros [|fuel'] Hf'; [lia|]. by rewrite process_loop_S, Hfound.
Qed.

Lemma process_all_pending_terminates w :
  ∃ processed dispatched w',
    (∀ fuel, (101 ≤ fuel)%nat →
       VirtualNVIC_ProcessAllPending nvic_handler fuel w =
         (Some (processed, dispatched), w')) ∧
    processed ≤ 101 ∧ (length dispatched ≤ 101)%nat.
Proof.
  destruct (process_loop_enough 101 0 [] (nvic_ready w))
    as (p & d & w' & _ & Hb & Hlen & Hirr); [lia|lia|].
  exists p, d, w'. split.
  - intros fuel Hfuel. unfold VirtualNVIC_ProcessAllPending.
    rewrite bind_eq. apply Hirr. lia.
  - split; [lia|]. cbn in Hlen. lia.
Qed.

End dispatch.

End nvic_basics.

(** ** Calls of the API *)

Ltac call_eqs :=
  cbn [run_call];
  rewrite ?bind_eq;
  rewrite ?enable_clock_eq, ?configure_pin_eq, ?set_alt_function_eq,
    ?write_pin_eq, ?read_pin_eq, ?toggle_eq, ?configure_interrupt_eq,
    ?enable_irq_eq, ?disable_irq_eq, ?set_priority_eq, ?set_handler_eq,
    ?set_pending_eq, ?clear_pending_eq;
  unfold ret; cbn zeta.

Ltac split_ifs :=
  repeat match goal with
  | |- context [if ?b then _ else _] => destruct b eqn:?
  end; cbn [fst snd].

Section gpio_calls.
Import sim_gpio.

Lemma pin_at_gerr e w port pin : pin_at (gerr e w) port pin = pin_at w port pin.
Proof. reflexivity. Qed.

Lemma pin_at_write_port w port' f port pin :
  (∀ P, pins (f P) = pins P) →
  pin_at (write_port port' f w) port pin = pin_at w port pin.
Proof.
  intros Hf. unfold pin_at, port_at, write_port. cbn.
  destruct (decide (port' = port)) as [->|Hne].
  - rewrite list_lookup_alter_eq.
    destruct (gpio_ports _ !! _); cbn; [by rewrite Hf|done].
  - rewrite list_lookup_alter_ne; [done|]. intros E%N2Nat.inj. congruence.
Qed.

Lemma pin_at_write_same_field {A} (field : VirtualGPIOPin → A) w port' pin' f port pin :
  (∀ p, field (f p) = field p) →
  field (pin_at (write_pin port' pin' f w) port pin) = field (pin_at w port pin).
Proof.
  intros Hf. destruct (decide ((port, pin) = (port', pin'))) as [[= -> ->]|Hne].
  - unfold pin_at, port_at, write_pin. cbn. rewrite list_lookup_alter_eq.
    destruct (gpio_ports _ !! _) as [P|]; cbn; [|done].
    rewrite list_lookup_alter_eq. destruct (pins P !! _); cbn; [apply Hf|done].
  - by rewrite pin_at_write_other.
Qed.

Lemma pin_at_skip_rand n w port pin : pin_at (skip_rand n w) port pin = pin_at w port pin.
Proof. reflexivity. Qed.

Lemma pin_at_input_level p w port pin :
  pin_at (input_level p w).2 port pin = pin_at w port pin.
Proof.
  unfold input_level. destruct (_ =? _); [done|]. by destruct (_ =? _).
Qed.

Lemma input_level_gpio p w : gpio (input_level p w).2 = gpio w.
Proof.
  unfold input_level. destruct (_ =? _); [done|]. by destruct (_ =? _).
Qed.

Lemma input_level_nvic p w : nvic (input_level p w).2 = nvic w.
Proof.
  unfold input_level. destruct (_ =? _); [done|]. by destruct (_ =? _).
Qed.

Lemma input_level_le p w : (input_level p w).1 ≤ 1.
Proof.
  unfold input_level. destruct (_ =? _); [cbn; lia|].
  destruct (_ =? _); [cbn; lia|]. cbn. unfold u8.
  pose proof (N.mod_upper_bound (rand_tape w (rand_pos w)) 2).
  rewrite N.mod_small; lia.
Qed.

Lemma gpio_ports_inject w :
  gpio_ports (gpio (sim_gpio.inject_error w).2) = gpio_ports (gpio w).
Proof. apply inject_error_gpio. Qed.

Lemma gpio_initialized_inject w :
  gpio_initialized (gpio (sim_gpio.inject_error w).2) = gpio_initialized (gpio w).
Proof. apply inject_error_gpio. Qed.

Lemma nvic_inject w : nvic (sim_gpio.inject_error w).2 = nvic w.
Proof. apply inject_error_gpio. Qed.

(** Every GPIO call leaves the table initialised and sim_nvic.c untouched. *)
Lemma gpio_call_frame c w :
  is_gpio_call c = true →
  gpio_initialized (gpio (run_call c w).2) ≠ 0 ∧ nvic (run_call c w).2 = nvic w.
Proof.
  intros Hc. pose proof (gpio_ready_initialized w) as Hinit.
  pose proof (gpio_ready_nvic w) as Hnvic.
  destruct c; try discriminate Hc; call_eqs; split_ifs;
    rewrite ?input_level_gpio, ?input_level_nvic;
    cbn [gpio nvic gerr write_pin write_port with_gpio gpio_initialized
         set_ports set_last_error];
    rewrite ?input_level_gpio, ?input_level_nvic,
      ?gpio_initialized_inject, ?nvic_inject; done.
Qed.

(** A rejected GPIO call leaves the port table as it was. *)
Lemma gpio_call_rejected c w :
  is_gpio_call c = true → (run_call c w).1 = 0 →
  gpio_ports (gpio (run_call c w).2) = gpio_ports (gpio (gpio_ready w)).
Proof.
  intros Hc.
  destruct c; try discriminate Hc; call_eqs; split_ifs; intros Hst;
    try discriminate Hst;
    cbn [gpio gerr with_gpio gpio_ports set_last_error];
    rewrite ?gpio_ports_inject; done.
Qed.

End gpio_calls.

Section nvic_calls.
Import sim_nvic.

Lemma irq_lines_inject w :
  irq_lines (nvic (sim_nvic.inject_error w).2) = irq_lines (nvic w).
Proof. apply inject_error_nvic. Qed.

Lemma nvic_initialized_inject w :
  nvic_initialized (nvic (sim_nvic.inject_error w).2) = nvic_initialized (nvic w).
Proof. apply inject_error_nvic. Qed.

Lemma gpio_inject w : gpio (sim_nvic.inject_error w).2 = gpio w.
Proof. apply inject_error_nvic. Qed.

Lemma nvic_call_frame c w :
  is_gpio_call c = false →
  nvic_initialized (nvic (run_call c w).2) ≠ 0 ∧ gpio (run_call c w).2 = gpio w.
Proof.
  intros Hc. pose proof (nvic_ready_initialized w) as Hinit.
  pose proof (nvic_ready_gpio w) as Hgpio.
  destruct c; try discriminate Hc; call_eqs; split_ifs;
    try match goal with |- context [match ?n with Some _ => _ | None => _ end] =>
      destruct n end;
    cbn [gpio nvic nerr write_irq with_nvic nvic_initialized set_lines
         set_last_error id];
    rewrite ?nvic_initialized_inject, ?gpio_inject; done.
Qed.

Lemma nvic_call_rejected c w :
  is_gpio_call c = false → (run_call c w).1 = 0 →
  irq_lines (nvic (run_call c w).2) = irq_lines (nvic (nvic_ready w)).
Proof.
  intros Hc.
  destruct c; try discriminate Hc; call_eqs; split_ifs; intros Hst;
    try discriminate Hst;
    cbn [nvic nerr with_nvic irq_lines set_last_error];
    rewrite ?irq_lines_inject; done.
Qed.

End nvic_calls.

Lemma pin_table_eq w : pin_table w = gpio_ports (gpio (gpio_ready w)).
Proof. reflexivity. Qed.

Lemma irq_table_eq w : irq_table w = irq_lines (nvic (nvic_ready w)).
Proof. reflexivity. Qed.

Lemma pin_table_gpio w w' : gpio w = gpio w' → pin_table w = pin_table w'.
Proof.
  intros H. rewrite !pin_table_eq, !gpio_ready_eq, H.
  by destruct (truthy _); cbn; rewrite ?H.
Qed.

Lemma irq_table_nvic w w' : nvic w = nvic w' → irq_table w = irq_table w'.
Proof.
  intros H. rewrite !irq_table_eq, !nvic_ready_eq, H.
  by destruct (truthy _); cbn; rewrite ?H.
Qed.

(** A rejected call, whatever rejected it, leaves both tables as they were. *)
Lemma rejected_call_keeps_tables c w :
  (run_call c w).1 = 0 →
  pin_table (run_call c w).2 = pin_table w ∧
  irq_table (run_call c w).2 = irq_table w.
Proof.
  intros Hst. destruct (is_gpio_call c) eqn:Hc.
  - destruct (gpio_call_frame c w Hc) as [Hinit Hnvic]. split.
    + rewrite pin_table_eq, gpio_ready_done by done.
      by apply gpio_call_rejected.
    + by apply irq_table_nvic.
  - destruct (nvic_call_frame c w Hc) as [Hinit Hgpio]. split.
    + by apply pin_table_gpio.
    + rewrite irq_table_eq, nvic_ready_done by done.
      by apply nvic_call_rejected.
Qed.

Lemma roll_rejects c w :
  fault_gated c = true → roll_fires c w → (run_call c w).1 = 0.
Proof.
  intros Hg [Harmed Hroll].
  destruct (is_gpio_call c) eqn:Hc.
  - assert ((sim_gpio.inject_error (gpio_ready w)).1 = 1) as Hfire.
    { apply gpio_inject_error_fires.
      - by rewrite gpio_ready_injection.
      - by destruct (gpio_ready_rand w) as [-> ->]. }
    destruct c; try discriminate Hc; try discriminate Hg;
      call_eqs; rewrite Hfire; change (truthy 1) with true; split_ifs; done.
  - assert ((sim_nvic.inject_error (nvic_ready w)).1 = 1) as Hfire.
    { apply nvic_inject_error_fires.
      - by rewrite nvic_ready_injection.
      - by destruct (nvic_ready_rand w) as [-> ->]. }
    destruct c; try discriminate Hc; try discriminate Hg;
      call_eqs; rewrite Hfire; change (truthy 1) with true; split_ifs; done.
Qed.

(** The other calls never consult [rand()]. *)
Lemma ungated_call_ignores_rand c w :
  fault_gated c = false → rand_pos (run_call c w).2 = rand_pos w.
Proof.
  intros Hg.
  pose proof (proj2 (gpio_ready_rand w)) as Hgpio.
  pose proof (proj2 (nvic_ready_rand w)) as Hnvic.
  destruct c; try discriminate Hg; call_eqs; split_ifs;
    try match goal with |- context [match ?n with Some _ => _ | None => _ end] =>
      destruct n end;
    done.
Qed.

(** C5.  For every call [c] of VirtualGPIO or VirtualNVIC that passes through
    the fault-injection roll and every state [w]: when the roll fires, the
    call is rejected (status 0) and the pin table and the IRQ table are
    exactly what they were, so no Pin or IRQLine is partially changed. *)
Theorem fault_rejection_leaves_tables c w :
  fault_gated c = true → roll_fires c w →
  (run_call c w).1 = 0 ∧
  pin_table (run_call c w).2 = pin_table w ∧
  irq_table (run_call c w).2 = irq_table w.
Proof.
  intros Hg Hroll. pose proof (roll_rejects c w Hg Hroll) as Hst.
  split; [done|]. by apply rejected_call_keeps_tables.
Qed.

Section interrupt_gate.
Import sim_gpio.

Lemma gpio_init_eq w :
  VirtualGPIO_Init w =
  (tt, if truthy (gpio_initialized (gpio w)) then w else gpio_init_world w).
Proof.
  unfold VirtualGPIO_Init, bind, gets, ret, modify, srand_time.
  cbn. destruct (truthy _); reflexivity.
Qed.

Lemma gpio_ready_init w : gpio_ready w = (VirtualGPIO_Init w).2.
Proof. by rewrite gpio_ready_eq, gpio_init_eq. Qed.

Ltac pin_frame :=
  repeat first
    [ rewrite pin_at_gerr
    | rewrite inject_error_pin_at
    | rewrite pin_at_input_level
    | rewrite pin_at_write_port by reflexivity
    | rewrite (pin_at_write_same_field irq_enabled) by reflexivity ].

(** Only [VirtualGPIO_ConfigureInterrupt] on the pin writes its [irq_enabled]. *)
Lemma gpio_call_keeps_irq_enabled c w port pin :
  is_gpio_call c = true →
  (∀ m h, c ≠ CallConfigureInterrupt port pin m h) →
  irq_enabled (pin_at (run_call c w).2 port pin) =
  irq_enabled (pin_at (gpio_ready w) port pin).
Proof.
  intros Hc Hne.
  destruct c; try discriminate Hc; call_eqs; split_ifs; pin_frame; try done.
  assert ((port, pin) ≠ (port0, pin0)) as Hother.
  { intros [= -> ->]. by eapply Hne. }
  by rewrite !pin_at_write_other, inject_error_pin_at.
Qed.

Lemma call_keeps_irq_enabled c w port pin :
  (∀ m h, c ≠ CallConfigureInterrupt port pin m h) →
  irq_enabled (pin_at (gpio_ready (run_call c w).2) port pin) =
  irq_enabled (pin_at (gpio_ready w) port pin).
Proof.
  intros Hne. destruct (is_gpio_call c) eqn:Hc.
  - destruct (gpio_call_frame c w Hc) as [Hinit _].
    rewrite (gpio_ready_done _ Hinit). by apply gpio_call_keeps_irq_enabled.
  - destruct (nvic_call_frame c w Hc) as [_ Hgpio].
    f_equal. apply pin_at_ports.
    change (pin_table (run_call c w).2 = pin_table w). by apply pin_table_gpio.
Qed.

Lemma step_keeps_irq_enabled s w port pin :
  (∀ m h, s ≠ StepCall (CallConfigureInterrupt port pin m h)) →
  irq_enabled (pin_at (gpio_ready (run_step s w)) port pin) =
  irq_enabled (pin_at (gpio_ready w) port pin).
Proof.
  intros Hne.
  assert (∀ w', gpio w' = gpio w →
            irq_enabled (pin_at (gpio_ready w') port pin) =
            irq_enabled (pin_at (gpio_ready w) port pin)) as Hframe.
  { intros w' Hgpio. f_equal. apply pin_at_ports.
    change (pin_table w' = pin_table w). by apply pin_table_gpio. }
  destruct s as [c| |enable| |enable| |]; cbn [run_step].
  - apply call_keeps_irq_enabled. intros m h ->. by eapply Hne.
  - by rewrite <- gpio_ready_init, gpio_ready_idem.
  - f_equal. apply pin_at_ports.
    rewrite !gpio_ready_eq. cbn. by destruct (truthy _).
  - apply Hframe. rewrite <- nvic_ensure_init_eq. apply nvic_ready_gpio.
  - by apply Hframe.
  - by apply Hframe.
  - by apply Hframe.
Qed.

Lemma run_steps_keep_irq_enabled ss w port pin :
  (∀ s m h, s ∈ ss → s ≠ StepCall (CallConfigureInterrupt port pin m h)) →
  irq_enabled (pin_at (gpio_ready (run_steps ss w)) port pin) =
  irq_enabled (pin_at (gpio_ready w) port pin).
Proof.
  revert w. induction ss as [|s ss IH]; intros w Hss; [done|].
  unfold run_steps. cbn [foldl]. fold (run_steps ss (run_step s w)).
  rewrite IH.
  - apply step_keeps_irq_enabled. intros m h. apply Hss. by left.
  - intros s' m h Hin. apply Hss. by right.
Qed.

Section irq_enabled_gate.
Variable gpio_handler : funptr → uint8_t → uint8_t → World → World.

Lemma simulate_interrupt_gated w port pin edge :
  irq_enabled (pin_at (gpio_ready w) port pin) = 0 →
  VirtualGPIO_SimulateInterrupt gpio_handler port pin edge w = ([], gpio_ready w).
Proof.
  intros Hoff. rewrite simulate_interrupt_eq. cbn zeta. rewrite Hoff.
  change (truthy 0) with false. by destruct (_ || _).
Qed.

(** C9.  From program start, after any sequence of API calls that contains no
    [VirtualGPIO_ConfigureInterrupt] on (port, pin) -- it may well set the
    pin's mode to an interrupt variant through [VirtualGPIO_ConfigurePin] --
    [VirtualGPIO_SimulateInterrupt(port, pin, edge)] calls no handler and does
    nothing but the lazy initialisation. *)
Theorem simulate_interrupt_needs_configure_interrupt ss w0 port pin edge :
  gpio_initialized (gpio w0) = 0 →
  (∀ s m h, s ∈ ss → s ≠ StepCall (CallConfigureInterrupt port pin m h)) →
  VirtualGPIO_SimulateInterrupt gpio_handler port pin edge (run_steps ss w0) =
    ([], (VirtualGPIO_Init (run_steps ss w0)).2).
Proof.
  intros Hboot Hss. rewrite <- gpio_ready_init.
  apply simulate_interrupt_gated.
  rewrite run_steps_keep_irq_enabled by done.
  rewrite fresh_pin_at; [done|].
  rewrite gpio_ready_eq. apply truthy_false in Hboot. by rewrite Hboot.
Qed.

End irq_enabled_gate.
End interrupt_gate.

(** ** The reachable-state invariants *)

Lemma boot_gpio_wf tape : gpio_wf (boot tape).
Proof.
  split; [reflexivity|]. split.
  - apply Forall_replicate. split; [reflexivity|].
    apply Forall_replicate. cbn. lia.
  - intros _. apply Forall_replicate. split; [reflexivity|].
    by apply Forall_replicate.
Qed.

Lemma boot_nvic_wf tape : nvic_wf (boot tape).
Proof.
  split; [reflexivity|]. split.
  - apply Forall_replicate. cbn. lia.
  - intros _. by apply Forall_replicate.
Qed.

Section gpio_invariant.
Import sim_gpio.

Lemma table_wf_write_pin w port pin f :
  (∀ p, value p ≤ 1 → value (f p) ≤ 1) →
  gpio_table_wf w → gpio_table_wf (write_pin port pin f w).
Proof.
  intros Hf [Hlen Hwf]. split; cbn.
  - by rewrite length_alter.
  - apply Forall_alter; [done|]. intros P _ [HlP HvP]. split; cbn.
    + by rewrite length_alter.
    + apply Forall_alter; [done|]. intros p _. apply Hf.
Qed.

Lemma table_wf_write_port w port f :
  (∀ P, pins (f P) = pins P) →
  gpio_table_wf w → gpio_table_wf (write_port port f w).
Proof.
  intros Hf [Hlen Hwf]. split; cbn.
  - by rewrite length_alter.
  - apply Forall_alter; [done|]. intros P _. unfold port_wf. by rewrite Hf.
Qed.

Lemma table_wf_ext w w' :
  gpio_ports (gpio w') = gpio_ports (gpio w) → gpio_table_wf w → gpio_table_wf w'.
Proof. unfold gpio_table_wf. by intros ->. Qed.

Lemma table_wf_inject w : gpio_table_wf w → gpio_table_wf (inject_error w).2.
Proof. apply table_wf_ext, inject_error_gpio. Qed.

Lemma table_wf_input_level p w : gpio_table_wf w → gpio_table_wf (input_level p w).2.
Proof. apply table_wf_ext. by rewrite input_level_gpio. Qed.

Lemma table_wf_gerr e w : gpio_table_wf w → gpio_table_wf (gerr e w).
Proof. by apply table_wf_ext. Qed.

Lemma gpio_call_table_wf c w :
  is_gpio_call c = true → gpio_wf w → gpio_table_wf (run_call c w).2.
Proof.
  intros Hc Hwf. apply gpio_ready_wf in Hwf as (Hlen & Hwf & _).
  assert (gpio_table_wf (gpio_ready w)) as Hready by done.
  destruct c; try discriminate Hc; call_eqs; split_ifs;
    repeat first
      [ assumption
      | apply table_wf_gerr
      | apply table_wf_inject
      | apply table_wf_input_level
      | apply table_wf_write_port; [reflexivity|]
      | apply table_wf_write_pin;
          [first [ by intros [] | intros; cbn; lia
                 | intros ? _; apply input_level_le
                 | intros []; cbn; by destruct (truthy _) ]|] ].
Qed.

Theorem run_call_gpio_wf c w : gpio_wf w → gpio_wf (run_call c w).2.
Proof.
  intros Hwf. destruct (is_gpio_call c) eqn:Hc.
  - destruct (gpio_call_table_wf c w Hc Hwf) as [Hlen Htab].
    destruct (gpio_call_frame c w Hc) as [Hinit _]. by split; [|split].
  - destruct (nvic_call_frame c w Hc) as [_ Hgpio].
    unfold gpio_wf. by rewrite Hgpio.
Qed.

End gpio_invariant.

Section nvic_invariant.
Import sim_nvic.

Lemma table_wf_write_irq w i f :
  (∀ l, priority l ≤ 15 → priority (f l) ≤ 15) →
  nvic_table_wf w → nvic_table_wf (write_irq i f w).
Proof.
  intros Hf [Hlen Hwf]. split; cbn.
  - by rewrite length_alter.
  - apply Forall_alter; [done|]. intros l _. apply Hf.
Qed.

Lemma nvic_table_wf_ext w w' :
  irq_lines (nvic w') = irq_lines (nvic w) → nvic_table_wf w → nvic_table_wf w'.
Proof. unfold nvic_table_wf. by intros ->. Qed.

Lemma nvic_table_wf_inject w : nvic_table_wf w → nvic_table_wf (inject_error w).2.
Proof. apply nvic_table_wf_ext, irq_lines_inject. Qed.

Lemma nvic_table_wf_nerr e w : nvic_table_wf w → nvic_table_wf (nerr e w).
Proof. by apply nvic_table_wf_ext. Qed.

Lemma nvic_call_table_wf c w :
  is_gpio_call c = false → nvic_wf w → nvic_table_wf (run_call c w).2.
Proof.
  intros Hc Hwf. apply nvic_ready_wf in Hwf as (Hlen & Hwf & _).
  assert (nvic_table_wf (nvic_ready w)) as Hready by done.
  destruct c; try discriminate Hc; call_eqs; split_ifs;
    try match goal with |- context [match ?n with Some _ => _ | None => _ end] =>
      destruct n end;
    try match goal with H : (MAX_PRIORITY <? _) = false |- _ =>
      apply N.ltb_ge in H; unfold MAX_PRIORITY in H end;
    unfold id;
    repeat first
      [ assumption
      | apply nvic_table_wf_nerr
      | apply nvic_table_wf_inject
      | apply table_wf_write_irq; [first [ by intros [] | intros; cbn; lia ]|] ].
Qed.

Theorem run_call_nvic_wf c w : nvic_wf w → nvic_wf (run_call c w).2.
Proof.
  intros Hwf. destruct (is_gpio_call c) eqn:Hc.
  - destruct (gpio_call_frame c w Hc) as [_ Hnvic].
    unfold nvic_wf. by rewrite Hnvic.
  - destruct (nvic_call_table_wf c w Hc Hwf) as [Hlen Htab].
    destruct (nvic_call_frame c w Hc) as [Hinit _]. by split; [|split].
Qed.

End nvic_invariant.

(** ** sim_hal_wrapper.c and out-of-range reads *)

Lemma lor_lt_256 a b : a < 256 → b < 256 → N.lor a b < 256.
Proof.
  intros Ha Hb. destruct (N.eq_dec (N.lor a b) 0) as [->|Hnz]; [lia|].
  change 256 with (2 ^ 8). apply N.log2_lt_pow2; [lia|].
  rewrite N.log2_lor.
  assert (∀ x, x < 256 → N.log2 x < 8) as Hlog.
  { intros x Hx. destruct (N.eq_dec x 0) as [->|]; [done|].
    apply N.log2_lt_pow2; [lia|]. done. }
  specialize (Hlog a Ha) as Hla. specialize (Hlog b Hb) as Hlb. lia.
Qed.

Lemma land_3_lt sub : N.land sub 3 < 4.
Proof.
  change 3 with (N.ones 2). rewrite N.land_ones.
  apply N.mod_upper_bound. done.
Qed.

Section hal.
Import sim_hal_wrapper.

(** C7, amended.  For [preempt_priority < 64], [HAL_NVIC_SetPriority] passes
    [min 15 ((preempt << 2) | (sub & 0x3))] to [VirtualNVIC_SetPriority]: the
    sub-priority is masked to its two low bits before it is combined. *)
Theorem hal_set_priority_combines irq preempt sub w :
  preempt < 64 →
  HAL_NVIC_SetPriority irq preempt sub w =
  (sim_nvic.VirtualNVIC_SetPriority irq
     (N.min 15 (N.lor (N.shiftl preempt 2) (N.land sub 3))) >> ret tt) w.
Proof.
  intros Hp. unfold HAL_NVIC_SetPriority. cbn zeta.
  assert (N.shiftl preempt 2 = preempt * 4) as Hshift
    by (rewrite N.shiftl_mul_pow2; reflexivity).
  assert (u32 (N.shiftl preempt 2) = N.shiftl preempt 2) as ->.
  { unfold u32. apply N.mod_small. lia. }
  pose proof (land_3_lt sub) as Hs.
  assert (u8 (N.lor (N.shiftl preempt 2) (N.land sub 3))
          = N.lor (N.shiftl preempt 2) (N.land sub 3)) as ->.
  { unfold u8. apply N.mod_small. apply lor_lt_256; lia. }
  set (x := N.lor _ _).
  destruct (N.ltb_spec 15 x).
  - by rewrite N.min_l by lia.
  - by rewrite N.min_r by lia.
Qed.

End hal.

Section get_priority.
Import sim_nvic.

(** C10, amended.  For [irq_num >= 240], [VirtualNVIC_GetPriority] returns 15
    and reports no error; its only effect is the lazy [VirtualNVIC_Init] of a
    first use, so on an initialised controller the state is unchanged. *)
Theorem get_priority_out_of_range irq w :
  240 ≤ irq →
  VirtualNVIC_GetPriority irq w = (15, (VirtualNVIC_Init w).2) ∧
  nvic_last_error (nvic (VirtualNVIC_Init w).2) = nvic_last_error (nvic w) ∧
  (nvic_initialized (nvic w) ≠ 0 → VirtualNVIC_GetPriority irq w = (15, w)).
Proof.
  intros Hirq. rewrite get_priority_eq.
  unfold MAX_IRQ_LINES. destruct (N.leb_spec 240 irq); [|lia].
  unfold nvic_ready. rewrite nvic_ensure_init_eq. split; [reflexivity|]. split.
  - rewrite nvic_init_eq. by destruct (truthy _).
  - intros Hinit%truthy_true. by rewrite nvic_init_eq, Hinit.
Qed.

End get_priority.

(** ** Sequences of calls keep the invariants *)

Lemma run_calls_gpio_wf cs w : gpio_wf w → gpio_wf (run_calls cs w).
Proof.
  revert w. induction cs as [|c cs IH]; intros w Hwf; [done|].
  apply IH. by apply run_call_gpio_wf.
Qed.

Lemma run_calls_nvic_wf cs w : nvic_wf w → nvic_wf (run_calls cs w).
Proof.
  revert w. induction cs as [|c cs IH]; intros w Hwf; [done|].
  apply IH. by apply run_call_nvic_wf.
Qed.

(** Every step of a client program keeps both invariants. *)
Lemma run_step_gpio_wf s w : gpio_wf w → gpio_wf (run_step s w).
Proof.
  intros Hwf.
  assert (∀ w', gpio w' = gpio w → gpio_wf w') as Hframe
    by (intros w' Hgpio; unfold gpio_wf; by rewrite Hgpio).
  destruct s as [c| |enable| |enable| |]; cbn [run_step].
  - by apply run_call_gpio_wf.
  - rewrite <- gpio_ready_init. by apply gpio_ready_wf.
  - exact Hwf.
  - apply Hframe. rewrite <- nvic_ensure_init_eq. apply nvic_ready_gpio.
  - by apply Hframe.
  - by apply Hframe.
  - by apply Hframe.
Qed.

Lemma run_step_nvic_wf s w : nvic_wf w → nvic_wf (run_step s w).
Proof.
  intros Hwf. destruct s as [c| |enable| |enable| |]; cbn [run_step].
  - by apply run_call_nvic_wf.
  - unfold nvic_wf. by rewrite <- gpio_ready_init, gpio_ready_nvic.
  - exact Hwf.
  - rewrite <- nvic_ensure_init_eq. by apply nvic_ready_wf.
  - exact Hwf.
  - exact Hwf.
  - exact Hwf.
Qed.

Lemma run_steps_wf ss w :
  gpio_wf w → nvic_wf w → gpio_wf (run_steps ss w) ∧ nvic_wf (run_steps ss w).
Proof.
  revert w. induction ss as [|s ss IH]; intros w Hg Hn; [done|].
  apply IH; [by apply run_step_gpio_wf|by apply run_step_nvic_wf].
Qed.

(** Hence every state a client program reaches from program start satisfies
    them. *)
Lemma boot_steps_wf ss tape :
  gpio_wf (run_steps ss (boot tape)) ∧ nvic_wf (run_steps ss (boot tape)).
Proof. apply run_steps_wf; [apply boot_gpio_wf|apply boot_nvic_wf]. Qed.

Section gpio_clock_and_toggle.
Import sim_gpio.

(** [VirtualGPIO_ConfigurePin] is gated on the port clock. *)
Lemma configure_pin_needs_clock port pin m ot sp pu w :
  clock_enabled (port_at (gpio_ready w) port) = 0 →
  (VirtualGPIO_ConfigurePin port pin m ot sp pu w).1 = 0 ∧
  pin_table (VirtualGPIO_ConfigurePin port pin m ot sp pu w).2 = pin_table w.
Proof.
  intros Hclk.
  assert ((run_call (CallConfigurePin port pin m ot sp pu) w).1 = 0) as Hst.
  { cbn [run_call]. rewrite configure_pin_eq, Hclk.
    change (truthy 0) with false. by split_ifs. }
  split; [exact Hst|].
  by apply (rejected_call_keeps_tables (CallConfigurePin port pin m ot sp pu)).
Qed.

(** C2.  With the pin table initialised and no port clock enabled,
    [VirtualGPIO_ConfigurePin] fails, but [VirtualGPIO_ConfigureInterrupt]
    succeeds and rewrites the mode and handler of PC13, and
    [VirtualGPIO_SetAltFunction] succeeds and rewrites the alternate function
    of PA9. *)
Theorem configure_interrupt_and_alt_function_ignore_clock :
  clock_enabled (port_at unclocked_world 2) = 0 ∧
  clock_enabled (port_at unclocked_world 0) = 0 ∧
  (VirtualGPIO_ConfigurePin 2 13 GPIO_MODE_IT_FALLING 0 0 0 unclocked_world).1 = 0 ∧
  (VirtualGPIO_ConfigureInterrupt 2 13 GPIO_MODE_IT_FALLING (Some 1)
     unclocked_world).1 = 1 ∧
  mode (pin_at unclocked_world 2 13) = GPIO_MODE_INPUT ∧
  mode (pin_at (VirtualGPIO_ConfigureInterrupt 2 13 GPIO_MODE_IT_FALLING (Some 1)
                  unclocked_world).2 2 13) = GPIO_MODE_IT_FALLING ∧
  irq_handler (pin_at (VirtualGPIO_ConfigureInterrupt 2 13 GPIO_MODE_IT_FALLING
                         (Some 1) unclocked_world).2 2 13) = Some 1 ∧
  (VirtualGPIO_SetAltFunction 0 9 7 unclocked_world).1 = 1 ∧
  alt_function (pin_at unclocked_world 0 9) = 0 ∧
  alt_function (pin_at (VirtualGPIO_SetAltFunction 0 9 7 unclocked_world).2 0 9) = 7.
Proof. vm_compute. by repeat split. Qed.

(** C6.  [VirtualGPIO_TogglePin] on a valid (port, pin) succeeds in every
    state and on every random tape, consumes no value of [rand()], and leaves
    [last_error] at "no error": no outcome of the random source rejects it. *)
Theorem toggle_pin_is_never_fault_rejected w port pin :
  port < 9 → pin < 16 →
  (VirtualGPIO_TogglePin port pin w).1 = 1 ∧
  rand_pos (VirtualGPIO_TogglePin port pin w).2 = rand_pos w ∧
  gpio_last_error (gpio (VirtualGPIO_TogglePin port pin w).2) = GPIO_ERROR_NONE.
Proof.
  intros Hport Hpin. rewrite toggle_eq, range_check by done. cbn [fst snd].
  split; [done|]. split; [|done]. cbn. apply gpio_ready_rand.
Qed.

Lemma toggle_pin_under_firing_rolls :
  roll_fires (CallWritePin 0 5 1) faulty_world ∧
  (VirtualGPIO_WritePin 0 5 1 faulty_world).1 = 0 ∧
  (VirtualGPIO_TogglePin 0 5 faulty_world).1 = 1 ∧
  value (pin_at faulty_world 0 5) = 1 ∧
  value (pin_at (VirtualGPIO_TogglePin 0 5 faulty_world).2 0 5) = 0.
Proof. vm_compute. by repeat split. Qed.

End gpio_clock_and_toggle.

Section nvic_runs.
Import sim_nvic.

(** C4.  With IRQ 0 enabled and pending and a handler that marks IRQ 0 pending
    again, [VirtualNVIC_ProcessAllPending] ends with [processed = 101] after
    101 dispatches of IRQ 0. *)
Theorem process_all_pending_runs_101_iterations fuel :
  (101 ≤ fuel)%nat →
  (VirtualNVIC_ProcessAllPending storm_handlers fuel storm_world).1 =
    Some (101, replicate 101 0%nat).
Proof.
  intros Hfuel.
  destruct (process_all_pending_terminates storm_handlers storm_world)
    as (p & d & w' & Hall & _).
  rewrite (Hall fuel Hfuel), <- (Hall 101%nat) by lia.
  vm_compute. reflexivity.
Qed.

Lemma process_all_pending_runs_101_iterations_witness :
  (VirtualNVIC_ProcessAllPending storm_handlers 101 storm_world).1 =
    Some (101, replicate 101 0%nat) ∧
  length (replicate 101 0%nat) = 101%nat.
Proof.
  split; [|reflexivity].
  apply (process_all_pending_runs_101_iterations 101). lia.
Defined.

(** The run of C1: IRQ 23 (priority 1) is dispatched before IRQ 6
    (priority 2). *)
Lemma two_pending_world_wf : nvic_wf two_pending_world.
Proof. apply run_calls_nvic_wf, boot_nvic_wf. Qed.

Lemma process_one_dispatches_lowest_witness :
  ∃ i, lowest_eligible two_pending_world i ∧
       (VirtualNVIC_ProcessInterrupts idle_irq_handlers two_pending_world).1 = [i].
Proof.
  destruct (process_one_dispatches_lowest idle_irq_handlers two_pending_world)
    as (i & Hlow & _ & _ & _ & _ & Heq & _).
  - apply two_pending_world_wf.
  - vm_compute. discriminate.
  - exists 6%nat. eexists. split; [vm_compute; reflexivity|].
    vm_compute. by repeat split.
  - exists i. split; [done|]. by rewrite Heq.
Defined.

Example process_one_picks_irq_23 :
  (VirtualNVIC_ProcessInterrupts idle_irq_handlers two_pending_world).1 = [23%nat].
Proof. vm_compute. reflexivity. Qed.

(** C10 as stated fails on a first use: after [VirtualNVIC_DisableGlobalIRQ] at
    program start, [VirtualNVIC_GetPriority(240)] returns 15 and switches the
    global gate back on. *)
Lemma get_priority_initialises_on_first_use :
  (VirtualNVIC_GetPriority 240 masked_boot_world).1 = 15 ∧
  global_irq_enabled (nvic masked_boot_world) = 0 ∧
  global_irq_enabled (nvic (VirtualNVIC_GetPriority 240 masked_boot_world).2) = 1 ∧
  nvic (VirtualNVIC_GetPriority 240 masked_boot_world).2 ≠ nvic masked_boot_world.
Proof.
  split; [by vm_compute|]. split; [by vm_compute|]. split; [by vm_compute|].
  intros H. apply (f_equal global_irq_enabled) in H. vm_compute in H. discriminate.
Qed.

Lemma get_priority_out_of_range_witness :
  VirtualNVIC_GetPriority 250 two_pending_world = (15, two_pending_world).
Proof.
  apply (get_priority_out_of_range 250 two_pending_world).
  - lia.
  - vm_compute. discriminate.
Defined.

End nvic_runs.

Section hal_runs.
Import sim_hal_wrapper.

(** C7 as stated fails at [preempt = 0], [sub = 4]: the stated value is 4,
    the adapter passes 0. *)
Lemma hal_set_priority_masks_sub_priority :
  spec_combined_priority 0 4 = 4 ∧
  priority (sim_nvic.irq_at
    (sim_nvic.VirtualNVIC_SetPriority 6 (spec_combined_priority 0 4) (boot quiet_tape)).2 6) = 4 ∧
  priority (sim_nvic.irq_at (HAL_NVIC_SetPriority 6 0 4 (boot quiet_tape)).2 6) = 0 ∧
  HAL_NVIC_SetPriority 6 0 4 (boot quiet_tape) ≠
    (sim_nvic.VirtualNVIC_SetPriority 6 (spec_combined_priority 0 4) >> ret tt)
      (boot quiet_tape).
Proof.
  split; [by vm_compute|]. split; [by vm_compute|]. split; [by vm_compute|].
  intros H.
  apply (f_equal (fun r => priority (sim_nvic.irq_at r.2 6))) in H.
  vm_compute in H. discriminate.
Qed.

Lemma hal_set_priority_combines_witness :
  HAL_NVIC_SetPriority 40 2 1 (boot quiet_tape) =
  (sim_nvic.VirtualNVIC_SetPriority 40
     (N.min 15 (N.lor (N.shiftl 2 2) (N.land 1 3))) >> ret tt) (boot quiet_tape).
Proof. apply hal_set_priority_combines. lia. Defined.

Example hal_set_priority_2_1_is_9 :
  priority (sim_nvic.irq_at (HAL_NVIC_SetPriority 40 2 1 (boot quiet_tape)).2 40) = 9.
Proof. vm_compute. reflexivity. Qed.

End hal_runs.

Section gpio_runs.
Import sim_gpio.

Lemma led_world_wf : gpio_wf led_world.
Proof. apply run_calls_gpio_wf, boot_gpio_wf. Qed.

(** The run of C8: PA5 toggled twice. *)
Lemma toggle_twice_restores_witness :
  (VirtualGPIO_TogglePin 0 5 led_world).1 = 1 ∧
  (VirtualGPIO_TogglePin 0 5 (VirtualGPIO_TogglePin 0 5 led_world).2).1 = 1 ∧
  value (pin_at (VirtualGPIO_TogglePin 0 5 led_world).2 0 5) ≠
    value (pin_at led_world 0 5) ∧
  ∀ port' pin',
    pin_at (VirtualGPIO_TogglePin 0 5 (VirtualGPIO_TogglePin 0 5 led_world).2).2
           port' pin' = pin_at led_world port' pin'.
Proof.
  apply (toggle_twice_restores led_world 0 5); [apply led_world_wf|lia|lia].
Defined.

(** The run of C3: PC13 configured for the falling edge. *)
Lemma simulate_interrupt_fires_iff_edge_matches_witness :
  let w1 := (VirtualGPIO_ConfigureInterrupt 2 13 (trigger_mode TrigFalling)
               (Some 1) led_world).2 in
  VirtualGPIO_SimulateInterrupt idle_pin_handlers 2 13 (edge_code Rising) w1 = ([], w1) ∧
  VirtualGPIO_SimulateInterrupt idle_pin_handlers 2 13 (edge_code Falling) w1 =
    ([(1, 2, 13)], w1).
Proof.
  intros w1.
  assert (VirtualGPIO_ConfigureInterrupt 2 13 (trigger_mode TrigFalling) (Some 1)
            led_world = (1, w1)) as Hcfg.
  { unfold w1. apply injective_projections; [by vm_compute|reflexivity]. }
  split.
  - exact (proj1 (simulate_interrupt_fires_iff_edge_matches idle_pin_handlers
             led_world w1 2 13 TrigFalling 1 Rising led_world_wf Hcfg)).
  - exact (proj1 (simulate_interrupt_fires_iff_edge_matches idle_pin_handlers
             led_world w1 2 13 TrigFalling 1 Falling led_world_wf Hcfg)).
Defined.

(** The run of C5: a write to PA5 rejected by the roll. *)
Lemma fault_rejection_leaves_tables_witness :
  (run_call (CallWritePin 0 5 0) faulty_world).1 = 0 ∧
  pin_table (run_call (CallWritePin 0 5 0) faulty_world).2 = pin_table faulty_world ∧
  irq_table (run_call (CallWritePin 0 5 0) faulty_world).2 = irq_table faulty_world.
Proof.
  apply (fault_rejection_leaves_tables (CallWritePin 0 5 0) faulty_world).
  - reflexivity.
  - split; [vm_compute; discriminate|by vm_compute].
Defined.

Example rejected_write_keeps_value :
  value (pin_at faulty_world 0 5) = 1 ∧
  (VirtualGPIO_WritePin 0 5 0 faulty_world).1 = 0 ∧
  value (pin_at (VirtualGPIO_WritePin 0 5 0 faulty_world).2 0 5) = 1.
Proof. vm_compute. by repeat split. Qed.

(** The run of C6: PA5 toggled while every roll fires. *)
Lemma toggle_pin_is_never_fault_rejected_witness :
  (VirtualGPIO_TogglePin 0 5 faulty_world).1 = 1 ∧
  rand_pos (VirtualGPIO_TogglePin 0 5 faulty_world).2 = rand_pos faulty_world ∧
  gpio_last_error (gpio (VirtualGPIO_TogglePin 0 5 faulty_world).2) = GPIO_ERROR_NONE.
Proof. apply (toggle_pin_is_never_fault_rejected faulty_world 0 5); lia. Defined.

(** The run of C9: PC13 put in rising-edge interrupt mode by
    [VirtualGPIO_ConfigurePin] alone. *)
Lemma simulate_interrupt_needs_configure_interrupt_witness :
  let ss := [StepGpioInit;
             StepCall (CallEnableClock 2);
             StepCall (CallConfigurePin 2 13 GPIO_MODE_IT_RISING GPIO_OTYPE_PP
                                        GPIO_SPEED_LOW GPIO_PUPD_UP)] in
  mode (pin_at (run_steps ss (boot quiet_tape)) 2 13) = GPIO_MODE_IT_RISING ∧
  VirtualGPIO_SimulateInterrupt idle_pin_handlers 2 13 1
      (run_steps ss (boot quiet_tape)) =
    ([], (VirtualGPIO_Init (run_steps ss (boot quiet_tape))).2).
Proof.
  intros ss. split; [by vm_compute|].
  apply (simulate_interrupt_needs_configure_interrupt idle_pin_handlers ss
           (boot quiet_tape) 2 13 1).
  - reflexivity.
  - intros s m h Hin. unfold ss in Hin.
    apply elem_of_cons in Hin as [->|Hin]; [discriminate|].
    apply elem_of_cons in Hin as [->|Hin]; [discriminate|].
    apply elem_of_cons in Hin as [->|Hin]; [discriminate|].
    by apply elem_of_nil in Hin.
Defined.

(** Write, read back, toggle, read back. *)
Example scenario_write_read_toggle :
  (VirtualGPIO_ReadPin 0 5 led_world).1 = (1, Some 1) ∧
  (VirtualGPIO_ReadPin 0 5 (VirtualGPIO_TogglePin 0 5 led_world).2).1 = (1, Some 0).
Proof. vm_compute. by split. Qed.

End gpio_runs.

(** ** Handlers and the invariants *)

Section handlers_keep_invariants.

Variable gpio_handler : funptr → uint8_t → uint8_t → World → World.
Variable nvic_handler : funptr → World → World.

Hypothesis gpio_handler_wf : ∀ f port pin w, gpio_wf w → gpio_wf (gpio_handler f port pin w).
Hypothesis nvic_handler_wf : ∀ f w, nvic_wf w → nvic_wf (nvic_handler f w).

Lemma simulate_interrupt_gpio_wf port pin edge w :
  gpio_wf w →
  gpio_wf (sim_gpio.VirtualGPIO_SimulateInterrupt gpio_handler port pin edge w).2.
Proof.
  intros Hwf%gpio_ready_wf. rewrite simulate_interrupt_eq. cbn zeta.
  destruct (_ || _); [done|]. destruct (truthy _); [|done].
  destruct (should_trigger _ _); [|done].
  destruct (irq_handler _); [|done]. by apply gpio_handler_wf.
Qed.



End handlers_keep_invariants.

Section configured_pin.
Import sim_gpio.
Variable gpio_handler : funptr → uint8_t → uint8_t → World → World.

(** In whatever way the pin came to hold the configuration that
    [VirtualGPIO_ConfigureInterrupt] writes, the edge decides. *)
Lemma simulate_interrupt_configured w port pin t h e :
  gpio_wf w → port < 9 → pin < 16 →
  irq_enabled (pin_at w port pin) ≠ 0 →
  mode (pin_at w port pin) = trigger_mode t →
  irq_handler (pin_at w port pin) = Some h →
  VirtualGPIO_SimulateInterrupt gpio_handler port pin (edge_code e) w =
    if trigger_matches t e
    then ([(h, port, pin)], gpio_handler h port pin w)
    else ([], w).
Proof.
  intros Hwf Hport Hpin Hen Hmode Hh.
  assert (gpio_initialized (gpio w) ≠ 0) as Hinit.
  { intros Hz. destruct Hwf as (_ & _ & Hun).
    rewrite (untouched_pin_at w port pin (Hun Hz)) in Hen. by apply Hen. }
  rewrite simulate_interrupt_eq. cbn zeta. rewrite gpio_ready_done by done.
  rewrite range_check by done.
  apply truthy_true in Hen. rewrite Hen, Hh.
  rewrite (should_trigger_matches _ t e) by done.
  by destruct (trigger_matches t e).
Qed.

End configured_pin.

(** * Further properties of the three files *)

(** ** Draining the pending interrupts *)

Section drain.
Import sim_nvic.
Variable nvic_handler : funptr → World → World.

Lemma eligible_ext w w' j :
  irq_lines (nvic w) = irq_lines (nvic w') → eligible w j → eligible w' j.
Proof. unfold eligible. by intros ->. Qed.

Lemma irq_at_ext w w' j :
  irq_lines (nvic w) = irq_lines (nvic w') → irq_at w j = irq_at w' j.
Proof. unfold irq_at. by intros ->. Qed.




Lemma served_not_dispatchable l : dispatchable (served l) = false.
Proof. unfold dispatchable. cbn. by rewrite andb_false_r. Qed.









Lemma fresh_lines_not_eligible w j :
  nvic_initialized (nvic w) = 0 → ¬ eligible (nvic_ready w) j.
Proof.
  intros Hz%truthy_false (l & Hl & Hen & _).
  rewrite nvic_ready_eq, Hz in Hl. cbn in Hl.
  apply fresh_lines_lookup in Hl as ->. by apply Hen.
Qed.



End drain.

Section all_pending.
Import sim_nvic.
Variable nvic_handler : funptr → World → World.



Lemma masked_process_interrupts w :
  nvic_initialized (nvic w) ≠ 0 → global_irq_enabled (nvic w) = 0 →
  VirtualNVIC_ProcessInterrupts nvic_handler w = ([], w).
Proof.
  intros Hinit Hg. rewrite process_interrupts_eq. cbn zeta.
  rewrite nvic_ready_done by done. rewrite Hg. reflexivity.
Qed.

Lemma masked_loop fuel :
  ∀ processed d w i0,
    nvic_initialized (nvic w) ≠ 0 → global_irq_enabled (nvic w) = 0 →
    (scan_lines w (N.to_nat MAX_IRQ_LINES)).1 = Some i0 →
    processed ≤ 100 → (101 - N.to_nat processed ≤ fuel)%nat →
    process_loop nvic_handler fuel processed d w = (Some (101, d), w).
Proof.
  induction fuel as [|fuel IH]; intros processed d w i0 Hinit Hg Hfound Hp Hfuel; [lia|].
  rewrite process_loop_S, Hfound. cbn zeta.
  rewrite masked_process_interrupts by done. rewrite fst_pair, snd_pair, app_nil_r.
  destruct (N.ltb_spec 100 (processed + 1)) as [Hcap|Hgo].
  - by replace (processed + 1) with 101 by lia.
  - apply (IH _ _ _ i0); try done; lia.
Qed.

(** X3.  With the global gate closed on an initialised controller,
    [VirtualNVIC_ProcessInterrupts] does nothing, and
    [VirtualNVIC_ProcessAllPending] dispatches nothing and changes nothing;
    yet when some line is eligible its loop runs to the cap and it reports
    101 processed interrupts (0 when none is). *)
Theorem masked_process_all_pending_spins_to_the_cap fuel w :
  nvic_wf w →
  nvic_initialized (nvic w) ≠ 0 →
  global_irq_enabled (nvic w) = 0 →
  (101 ≤ fuel)%nat →
  VirtualNVIC_ProcessInterrupts nvic_handler w = ([], w) ∧
  ((∃ j, eligible w j) →
   VirtualNVIC_ProcessAllPending nvic_handler fuel w = (Some (101, []), w)) ∧
  ((∀ j, ¬ eligible w j) →
   VirtualNVIC_ProcessAllPending nvic_handler fuel w = (Some (0, []), w)).
Proof.
  intros Hwf Hinit Hg Hfuel. split; [by apply masked_process_interrupts|].
  unfold VirtualNVIC_ProcessAllPending. rewrite bind_eq.
  change (ensure_init w).2 with (nvic_ready w). rewrite nvic_ready_done by done.
  destruct (scan_lines w (N.to_nat MAX_IRQ_LINES)).1 as [i0|] eqn:Hfound.
  - split.
    + intros _. apply (masked_loop fuel 0 [] w i0); try done; lia.
    + intros Hnone. destruct (Hnone i0). by apply find_some.
  - split.
    + intros [j Hj]. by destruct (find_none w Hwf Hfound j).
    + intros _. destruct fuel as [|fuel]; [lia|].
      by rewrite process_loop_S, Hfound.
Qed.

End all_pending.

(** ** Round trips on one IRQ line *)

Section nvic_lines.
Import sim_nvic.

Lemma irq_at_write_same w i f :
  (i < length (irq_lines (nvic w)))%nat →
  irq_at (write_irq i f w) i = f (irq_at w i).
Proof.
  intros Hi. destruct (lookup_lt_is_Some_2 _ _ Hi) as [l Hl].
  unfold irq_at, write_irq. cbn. by rewrite list_lookup_alter_eq, Hl.
Qed.

Lemma irq_at_write_other w i f j :
  j ≠ i → irq_at (write_irq i f w) j = irq_at w j.
Proof.
  intros Hne. unfold irq_at, write_irq. cbn. by rewrite list_lookup_alter_ne.
Qed.

Lemma irq_at_nerr e w j : irq_at (nerr e w) j = irq_at w j.
Proof. reflexivity. Qed.

Lemma irq_at_inject w j : irq_at (inject_error w).2 j = irq_at w j.
Proof. apply irq_at_ext. apply inject_error_nvic. Qed.

Lemma ready_length w : nvic_wf w → length (irq_lines (nvic (nvic_ready w))) = 240%nat.
Proof. intros Hwf. by destruct (nvic_ready_wf w Hwf). Qed.

Lemma inject_length w :
  length (irq_lines (nvic (inject_error w).2)) = length (irq_lines (nvic w)).
Proof. by destruct (inject_error_nvic w) as (-> & _). Qed.

Lemma irq_range irq : irq < 240 → (MAX_IRQ_LINES <=? irq) = false.
Proof. intros. unfold MAX_IRQ_LINES. by apply N.leb_gt. Qed.

(** X4.  A successful [VirtualNVIC_SetPriority(irq, p)] has [p <= 15] and
    [irq < 240]; afterwards [VirtualNVIC_GetPriority(irq)] returns [p], every
    other line reads the priority it had, and no other field of the line has
    changed. *)
Theorem set_priority_then_get_priority irq p w w1 :
  nvic_wf w →
  VirtualNVIC_SetPriority irq p w = (1, w1) →
  p ≤ 15 ∧ irq < 240 ∧
  VirtualNVIC_GetPriority irq w1 = (p, w1) ∧
  irq_at w1 (N.to_nat irq) = set_priority p (irq_at (nvic_ready w) (N.to_nat irq)) ∧
  ∀ irq', irq' ≠ irq →
    (VirtualNVIC_GetPriority irq' w1).1 = (VirtualNVIC_GetPriority irq' w).1.
Proof.
  intros Hwf Hset. rewrite set_priority_eq in Hset. unfold MAX_IRQ_LINES, MAX_PRIORITY in Hset.
  destruct (N.leb_spec 240 irq) as [|Hirq]; [done|].
  destruct (N.ltb_spec 15 p) as [|Hp]; [done|].
  cbn zeta in Hset. destruct (truthy _); [done|]. injection Hset as <-.
  set (w2 := (inject_error (nvic_ready w)).2).
  assert (nvic_initialized (nvic w2) ≠ 0) as Hinit.
  { unfold w2. destruct (inject_error_nvic (nvic_ready w)) as (_ & -> & _).
    apply nvic_ready_initialized. }
  assert (length (irq_lines (nvic w2)) = 240%nat) as Hlen
    by (unfold w2; rewrite inject_length; by apply ready_length).
  split; [done|]. split; [done|].
  assert (∀ j, irq_at (nerr NVIC_ERROR_NONE
                 (write_irq (N.to_nat irq) (set_priority p) w2)) j
               = if decide (j = N.to_nat irq)
                 then set_priority p (irq_at (nvic_ready w) j)
                 else irq_at (nvic_ready w) j) as Hat.
  { intros j. rewrite irq_at_nerr. destruct (decide _) as [->|Hne].
    - rewrite irq_at_write_same by lia. unfold w2. by rewrite irq_at_inject.
    - rewrite irq_at_write_other by done. unfold w2. by rewrite irq_at_inject. }
  split; [|split].
  - rewrite get_priority_eq, irq_range by done.
    rewrite nvic_ready_done by done. by rewrite Hat, decide_True.
  - by rewrite Hat, decide_True.
  - intros irq' Hne. rewrite !get_priority_eq.
    rewrite (nvic_ready_done (nerr _ _)) by done.
    destruct (MAX_IRQ_LINES <=? irq'); [done|]. cbn [fst].
    rewrite Hat, decide_False; [done|]. intros E%N2Nat.inj. done.
Qed.

(** X5.  For a valid line, [VirtualNVIC_ClearPending] cannot fail and
    [VirtualNVIC_IsPending] then returns 0; after a successful
    [VirtualNVIC_SetPending] it returns 1. *)
Theorem pending_flag_round_trip irq w :
  nvic_wf w → irq < 240 →
  (VirtualNVIC_ClearPending irq w).1 = 1 ∧
  (VirtualNVIC_IsPending irq (VirtualNVIC_ClearPending irq w).2).1 = 0 ∧
  ((VirtualNVIC_SetPending irq w).1 = 1 →
   (VirtualNVIC_IsPending irq (VirtualNVIC_SetPending irq w).2).1 = 1).
Proof.
  intros Hwf Hirq.
  assert (∀ w', VirtualNVIC_IsPending irq w' =
                (pending (irq_at (nvic_ready w') (N.to_nat irq)), nvic_ready w')) as Hpend.
  { intros w'. unfold VirtualNVIC_IsPending. nvic_exec. by rewrite irq_range. }
  pose proof (ready_length w Hwf) as Hlen.
  rewrite clear_pending_eq, set_pending_eq, irq_range by done. cbn zeta.
  split; [done|]. split.
  - rewrite Hpend, fst_pair, snd_pair.
    rewrite nvic_ready_done by apply nvic_ready_initialized.
    rewrite irq_at_nerr, irq_at_write_same by lia. done.
  - destruct (truthy _); [done|]. intros _. rewrite snd_pair, Hpend, fst_pair.
    rewrite nvic_ready_done.
    2:{ change (nvic_initialized (nvic (inject_error (nvic_ready w)).2) ≠ 0).
        destruct (inject_error_nvic (nvic_ready w)) as (_ & -> & _).
        apply nvic_ready_initialized. }
    rewrite irq_at_nerr, irq_at_write_same; [done|].
    rewrite inject_length. lia.
Qed.

End nvic_lines.

(** ** Status, error code and rejection *)

Section call_level.

Lemma u8_error_code x k : 0 < k → k ≤ 5 → u8 (x mod k + 1) ≠ 0.
Proof.
  intros Hk Hk5. unfold u8.
  pose proof (N.mod_upper_bound x k ltac:(lia)) as Hm.
  revert Hm. generalize (x mod k). intros r Hr.
  rewrite N.mod_small; lia.
Qed.

Lemma gpio_inject_sets_error w :
  truthy (sim_gpio.inject_error w).1 = true →
  gpio_last_error (gpio (sim_gpio.inject_error w).2) ≠ 0.
Proof.
  rewrite gpio_inject_error_eq.
  destruct (truthy (gpio_error_injection_enabled _)); [|by cbn].
  destruct (_ =? 0); [|by cbn]. intros _. cbn. by apply u8_error_code.
Qed.

Lemma nvic_inject_sets_error w :
  truthy (sim_nvic.inject_error w).1 = true →
  nvic_last_error (nvic (sim_nvic.inject_error w).2) ≠ 0.
Proof.
  rewrite nvic_inject_error_eq.
  destruct (truthy (nvic_error_injection_enabled _)); [|by cbn].
  destruct (_ =? 0); [|by cbn]. intros _. cbn. by apply u8_error_code.
Qed.

Lemma gpio_inject_keeps_error w :
  truthy (sim_gpio.inject_error w).1 = false →
  gpio_last_error (gpio (sim_gpio.inject_error w).2) = gpio_last_error (gpio w).
Proof.
  rewrite gpio_inject_error_eq.
  destruct (truthy (gpio_error_injection_enabled _)); [|done].
  destruct (_ =? 0); [by cbn|done].
Qed.

Lemma gpio_ready_last_error w :
  gpio_last_error (gpio (gpio_ready w)) = gpio_last_error (gpio w).
Proof. rewrite gpio_ready_eq. by destruct (truthy _). Qed.

(** X6.  Every status-returning call of VirtualGPIO and VirtualNVIC returns 0
    or 1.  Status 0 always leaves a nonzero error code in the [last_error] of
    its file.  Status 1 leaves [last_error] at NONE (0), except for
    [VirtualGPIO_EnableClock], whose success path does not assign it: the
    code of an earlier failure stays readable after a successful call. *)
Theorem status_agrees_with_last_error c w :
  ((run_call c w).1 = 1 ∧
   last_error_of c (run_call c w).2 =
     if resets_last_error c then 0 else last_error_of c w) ∨
  ((run_call c w).1 = 0 ∧ last_error_of c (run_call c w).2 ≠ 0).
Proof.
  unfold last_error_of.
  destruct c; cbn [is_gpio_call resets_last_error]; call_eqs; split_ifs;
    try match goal with |- context [match ?n with Some _ => _ | None => _ end] =>
      destruct n end;
    try (left; split; reflexivity);
    try (right; (split; [reflexivity|]);
         first [ by apply gpio_inject_sets_error
               | by apply nvic_inject_sets_error
               | done ]).
  left. split; [reflexivity|].
  change (gpio_last_error (gpio (sim_gpio.inject_error (gpio_ready w)).2) =
          gpio_last_error (gpio w)).
  rewrite gpio_inject_keeps_error by done. apply gpio_ready_last_error.
Qed.

(** X7.  Range checks come before the fault-injection roll: a call whose
    port, pin or IRQ number is outside the tables returns 0, assigns the
    error code of its own range check, consumes no value of [rand()], and
    leaves both tables as they were. *)
Theorem out_of_range_call_is_rejected_before_the_roll c w :
  in_range c = false →
  (run_call c w).1 = 0 ∧
  last_error_of c (run_call c w).2 = range_error_code c ∧
  rand_pos (run_call c w).2 = rand_pos w ∧
  pin_table (run_call c w).2 = pin_table w ∧
  irq_table (run_call c w).2 = irq_table w.
Proof.
  intros Hr.
  assert ((run_call c w).1 = 0 ∧
          last_error_of c (run_call c w).2 = range_error_code c ∧
          rand_pos (run_call c w).2 = rand_pos w) as (Hst & Herr & Hrand).
  { pose proof (proj2 (gpio_ready_rand w)) as Hgpio.
    pose proof (proj2 (nvic_ready_rand w)) as Hnvic.
    unfold last_error_of, in_range, sim_gpio.MAX_GPIO_PORTS,
      sim_gpio.MAX_GPIO_PINS, sim_nvic.MAX_IRQ_LINES in *.
    destruct c; cbn [is_gpio_call range_error_code]; call_eqs;
      unfold sim_gpio.MAX_GPIO_PORTS, sim_gpio.MAX_GPIO_PINS,
        sim_nvic.MAX_IRQ_LINES;
      repeat match goal with
      | |- context [?a <=? ?b] => destruct (N.leb_spec a b)
      | H : context [?a <? ?b] |- _ => destruct (N.ltb_spec a b)
      end; cbn [orb andb] in *; try discriminate; try lia; done. }
  split; [done|]. split; [done|]. split; [done|].
  by apply rejected_call_keeps_tables.
Qed.

(** X8.  Whatever made it fail (range check, clock gate or fault injection),
    a call that returns status 0 has changed neither table; a call on one
    file never changes a static of the other file. *)
Theorem failed_call_changes_no_table c w :
  ((run_call c w).1 = 0 →
   pin_table (run_call c w).2 = pin_table w ∧
   irq_table (run_call c w).2 = irq_table w) ∧
  (if is_gpio_call c then nvic (run_call c w).2 = nvic w
   else gpio (run_call c w).2 = gpio w).
Proof.
  split; [apply rejected_call_keeps_tables|].
  destruct (is_gpio_call c) eqn:Hc.
  - by apply gpio_call_frame.
  - by apply nvic_call_frame.
Qed.

End call_level.

(** ** Pins, clocks and targets *)

Section gpio_pins.
Import sim_gpio.

Lemma range_check_inv port pin :
  (MAX_GPIO_PORTS <=? port) || (MAX_GPIO_PINS <=? pin) = false →
  port < 9 ∧ pin < 16.
Proof.
  unfold MAX_GPIO_PORTS, MAX_GPIO_PINS.
  destruct (N.leb_spec 9 port), (N.leb_spec 16 pin); cbn; intros; try done; lia.
Qed.

Lemma ready_inject_sized w : gpio_wf w → gpio_sized (inject_error (gpio_ready w)).2.
Proof. intros Hwf. by apply inject_error_sized, gpio_wf_sized, gpio_ready_wf. Qed.

Lemma ready_inject_pin_at w port pin :
  gpio_wf w → pin_at (inject_error (gpio_ready w)).2 port pin = pin_at w port pin.
Proof. intros Hwf. by rewrite inject_error_pin_at, gpio_ready_pin_at. Qed.

Lemma ready_inject_initialized w :
  gpio_initialized (gpio (inject_error (gpio_ready w)).2) ≠ 0.
Proof. rewrite gpio_initialized_inject. apply gpio_ready_initialized. Qed.

Lemma port_at_ports w w' port :
  gpio_ports (gpio w) = gpio_ports (gpio w') → port_at w port = port_at w' port.
Proof. unfold port_at. by intros ->. Qed.

Lemma port_at_gerr e w port : port_at (gerr e w) port = port_at w port.
Proof. reflexivity. Qed.

Lemma clock_write_pin w port pin f port' :
  clock_enabled (port_at (write_pin port pin f w) port') =
  clock_enabled (port_at w port').
Proof.
  unfold port_at, write_pin. cbn.
  destruct (decide (port = port')) as [<-|Hne].
  - rewrite list_lookup_alter_eq. by destruct (_ !! _).
  - rewrite list_lookup_alter_ne; [done|]. intros E%N2Nat.inj. done.
Qed.

Lemma clock_write_port w port port' :
  clock_enabled (port_at w port') ≠ 0 →
  clock_enabled (port_at (write_port port (set_clock_enabled 1) w) port') ≠ 0.
Proof.
  unfold port_at, write_port. cbn.
  destruct (decide (port = port')) as [<-|Hne].
  - rewrite list_lookup_alter_eq. by destruct (_ !! _).
  - rewrite list_lookup_alter_ne; [done|]. intros E%N2Nat.inj. done.
Qed.

(** X9.  A successful [VirtualGPIO_ConfigurePin] had a valid port and pin and
    an enabled port clock.  It assigns the four configuration fields of the
    pin and nothing else: the pin keeps its level, alternate function,
    interrupt flag and handler, and every other pin is unchanged. *)
Theorem configure_pin_assigns_only_the_configuration port pin m ot sp pu w w1 :
  gpio_wf w →
  VirtualGPIO_ConfigurePin port pin m ot sp pu w = (1, w1) →
  port < 9 ∧ pin < 16 ∧
  clock_enabled (port_at (gpio_ready w) port) ≠ 0 ∧
  pin_at w1 port pin =
    set_pupd pu (set_speed sp (set_output_type ot (set_mode m (pin_at w port pin)))) ∧
  ∀ port' pin', (port', pin') ≠ (port, pin) →
    pin_at w1 port' pin' = pin_at w port' pin'.
Proof.
  intros Hwf. rewrite configure_pin_eq. unfold MAX_GPIO_PORTS, MAX_GPIO_PINS.
  destruct (N.leb_spec 9 port) as [|Hport]; [done|].
  destruct (N.leb_spec 16 pin) as [|Hpin]; [done|].
  destruct (truthy (clock_enabled _)) eqn:Hclk; [|done]. cbn zeta.
  destruct (truthy (inject_error _).1); [done|]. intros [= <-].
  split; [done|]. split; [done|]. split; [by apply truthy_true|].
  pose proof (ready_inject_sized w Hwf) as Hs. split.
  - rewrite pin_at_gerr, !write_pin_write_pin, pin_at_write_same by done.
    by rewrite ready_inject_pin_at.
  - intros port' pin' Hne.
    rewrite pin_at_gerr, !pin_at_write_other by done.
    by apply ready_inject_pin_at.
Qed.

(** X10.  On a pin that is not in input mode, a successful
    [VirtualGPIO_ReadPin] after a successful [VirtualGPIO_WritePin] returns
    the level written (1 for any nonzero argument) and leaves the table as
    the write left it. *)
Theorem write_pin_then_read_pin port pin v w w1 r w2 :
  gpio_wf w →
  VirtualGPIO_WritePin port pin v w = (1, w1) →
  mode (pin_at w1 port pin) ≠ GPIO_MODE_INPUT →
  VirtualGPIO_ReadPin port pin w1 = ((1, r), w2) →
  r = Some (level v) ∧ gpio_ports (gpio w2) = gpio_ports (gpio w1).
Proof.
  intros Hwf. rewrite write_pin_eq, read_pin_eq.
  destruct (_ || _) eqn:Hr; [done|]. apply range_check_inv in Hr as [Hport Hpin].
  cbn zeta. destruct (truthy (inject_error (gpio_ready w)).1); [done|].
  intros [= <-]. pose proof (ready_inject_sized w Hwf) as Hs.
  set (w1 := gerr _ _).
  assert (gpio_initialized (gpio w1) ≠ 0) as Hinit
    by apply ready_inject_initialized.
  rewrite (gpio_ready_done w1 Hinit).
  rewrite inject_error_pin_at.
  destruct (truthy (inject_error w1).1); [done|].
  intros Hmode. apply N.eqb_neq in Hmode. rewrite Hmode. intros [= <- <-].
  split.
  - unfold w1. by rewrite pin_at_gerr, pin_at_write_same by done.
  - cbn [gerr with_gpio gpio gpio_ports set_last_error].
    apply gpio_ports_inject.
Qed.

(** X11.  Reading a pin in input mode does not return the stored level: the
    result follows the pull configuration (1 for pull-up, 0 for pull-down, a
    random bit when floating), and the read overwrites the stored level with
    it. *)
Theorem read_input_pin_follows_the_pull port pin w lv w2 :
  gpio_wf w →
  mode (pin_at w port pin) = GPIO_MODE_INPUT →
  VirtualGPIO_ReadPin port pin w = ((1, Some lv), w2) →
  lv ≤ 1 ∧
  (pupd (pin_at w port pin) = GPIO_PUPD_UP → lv = 1) ∧
  (pupd (pin_at w port pin) = GPIO_PUPD_DOWN → lv = 0) ∧
  pin_at w2 port pin = set_value lv (pin_at w port pin).
Proof.
  intros Hwf Hmode. rewrite read_pin_eq.
  destruct (_ || _) eqn:Hr; [done|]. apply range_check_inv in Hr as [Hport Hpin].
  cbn zeta. destruct (truthy (inject_error (gpio_ready w)).1); [done|].
  rewrite ready_inject_pin_at, Hmode by done.
  change (GPIO_MODE_INPUT =? GPIO_MODE_INPUT) with true. cbn iota.
  set (il := input_level _ _). intros [= <- <-].
  split; [apply input_level_le|]. split; [|split].
  - intros Hup. unfold il, input_level. by rewrite Hup.
  - intros Hdown. unfold il, input_level. by rewrite Hdown.
  - rewrite pin_at_gerr, pin_at_write_same; try done.
    + unfold il. by rewrite pin_at_input_level, ready_inject_pin_at.
    + destruct (ready_inject_sized w Hwf) as [Hl HP]. unfold il.
      split; by rewrite input_level_gpio.
Qed.

Lemma clock_view_ext w w' port :
  gpio_ports (gpio w) = gpio_ports (gpio w') →
  clock_enabled (port_at w port) = clock_enabled (port_at w' port).
Proof. intros H. by rewrite (port_at_ports w w'). Qed.

Lemma gpio_call_keeps_clock c w port :
  is_gpio_call c = true →
  clock_enabled (port_at (gpio_ready w) port) ≠ 0 →
  clock_enabled (port_at (run_call c w).2 port) ≠ 0.
Proof.
  intros Hc Hclk.
  assert (clock_enabled (port_at (inject_error (gpio_ready w)).2 port) ≠ 0) as Hinj
    by (by rewrite (clock_view_ext _ (gpio_ready w)) by apply gpio_ports_inject).
  assert (∀ p w', clock_enabled (port_at (input_level p w').2 port) =
                   clock_enabled (port_at w' port)) as Hlevel
    by (intros p w'; apply clock_view_ext; by rewrite input_level_gpio).
  destruct c; try discriminate Hc; call_eqs; split_ifs;
    repeat first
      [ rewrite port_at_gerr
      | rewrite clock_write_pin
      | rewrite Hlevel ];
    try done; by apply clock_write_port.
Qed.

Lemma step_keeps_clock s w port :
  clock_enabled (port_at (gpio_ready w) port) ≠ 0 →
  clock_enabled (port_at (gpio_ready (run_step s w)) port) ≠ 0.
Proof.
  intros Hclk.
  assert (∀ w', gpio w' = gpio w →
            clock_enabled (port_at (gpio_ready w') port) ≠ 0) as Hframe.
  { intros w' Hgpio.
    rewrite (clock_view_ext _ (gpio_ready w)); [done|].
    change (pin_table w' = pin_table w). by apply pin_table_gpio. }
  destruct s as [c| |enable| |enable| |]; cbn [run_step].
  - destruct (is_gpio_call c) eqn:Hc.
    + destruct (gpio_call_frame c w Hc) as [Hinit _].
      rewrite (gpio_ready_done _ Hinit). by apply gpio_call_keeps_clock.
    + apply Hframe. by apply nvic_call_frame.
  - by rewrite <- gpio_ready_init, gpio_ready_idem.
  - rewrite (clock_view_ext _ (gpio_ready w)); [done|].
    rewrite !gpio_ready_eq. cbn. by destruct (truthy _).
  - apply Hframe. rewrite <- nvic_ensure_init_eq. apply nvic_ready_gpio.
  - by apply Hframe.
  - by apply Hframe.
  - by apply Hframe.
Qed.

(** X12.  No function of the API switches a port clock off: once the clock of
    a port is enabled it stays enabled through every sequence of API steps,
    so the clock gate of [VirtualGPIO_ConfigurePin] never closes again. *)
Theorem port_clock_is_never_disabled ss w port :
  clock_enabled (port_at (gpio_ready w) port) ≠ 0 →
  clock_enabled (port_at (gpio_ready (run_steps ss w)) port) ≠ 0.
Proof.
  revert w. induction ss as [|s ss IH]; intros w Hclk; [done|].
  unfold run_steps. cbn [foldl]. fold (run_steps ss (run_step s w)).
  by apply IH, step_keeps_clock.
Qed.

End gpio_pins.

Section targets.

Lemma gpio_call_touches_its_pin c w port pin :
  is_gpio_call c = true → call_pin c ≠ Some (port, pin) →
  sim_gpio.pin_at (run_call c w).2 port pin = sim_gpio.pin_at (gpio_ready w) port pin.
Proof.
  intros Hc Hne.
  destruct c; try discriminate Hc; cbn [call_pin] in Hne;
    call_eqs; split_ifs;
    repeat first
      [ rewrite pin_at_gerr
      | rewrite inject_error_pin_at
      | rewrite pin_at_input_level
      | rewrite pin_at_write_port by reflexivity
      | rewrite pin_at_write_other by congruence ];
    done.
Qed.

Lemma nvic_call_touches_its_line c w irq :
  is_gpio_call c = false → call_irq c ≠ Some irq →
  sim_nvic.irq_at (run_call c w).2 (N.to_nat irq) =
  sim_nvic.irq_at (nvic_ready w) (N.to_nat irq).
Proof.
  intros Hc Hne.
  assert (∀ w', irq_lines (nvic w') = irq_lines (nvic (nvic_ready w)) →
            sim_nvic.irq_at w' (N.to_nat irq) =
            sim_nvic.irq_at (nvic_ready w) (N.to_nat irq)) as Hext.
  { intros w' E. unfold sim_nvic.irq_at. by rewrite E. }
  assert (∀ w' i f, N.to_nat irq ≠ i →
            sim_nvic.irq_at (sim_nvic.write_irq i f w') (N.to_nat irq) =
            sim_nvic.irq_at w' (N.to_nat irq)) as Hother.
  { intros w' i f Hi. unfold sim_nvic.irq_at, sim_nvic.write_irq. cbn.
    by rewrite list_lookup_alter_ne. }
  destruct c; try discriminate Hc; cbn [call_irq] in Hne;
    assert (N.to_nat irq ≠ N.to_nat irq_num) as Hi
      by (intros E%N2Nat.inj; congruence);
    call_eqs; split_ifs;
    try match goal with |- context [match ?n with Some _ => _ | None => _ end] =>
      destruct n end;
    change (sim_nvic.irq_at (nerr ?e ?w') ?i) with (sim_nvic.irq_at w' i);
    unfold id;
    rewrite ?Hother by done;
    apply Hext; rewrite ?irq_lines_inject; done.
Qed.

(** X13.  A call assigns to at most one entry of one table: every pin other
    than the pin named in a GPIO call, and every IRQ line other than the
    line named in an NVIC call, reads after the call what it read before,
    whether the call succeeded or not. *)
Theorem call_touches_only_its_target c w :
  (∀ port pin, call_pin c ≠ Some (port, pin) →
     sim_gpio.pin_at (gpio_ready (run_call c w).2) port pin =
     sim_gpio.pin_at (gpio_ready w) port pin) ∧
  (∀ irq, call_irq c ≠ Some irq →
     sim_nvic.irq_at (nvic_ready (run_call c w).2) (N.to_nat irq) =
     sim_nvic.irq_at (nvic_ready w) (N.to_nat irq)).
Proof.
  destruct (is_gpio_call c) eqn:Hc.
  - destruct (gpio_call_frame c w Hc) as [Hinit Hnvic]. split.
    + intros port pin Hne. rewrite (gpio_ready_done _ Hinit).
      by apply gpio_call_touches_its_pin.
    + intros irq _. unfold sim_nvic.irq_at. f_equal. f_equal.
      change (irq_table (run_call c w).2 = irq_table w). by apply irq_table_nvic.
  - destruct (nvic_call_frame c w Hc) as [Hinit Hgpio]. split.
    + intros port pin _. apply pin_at_ports.
      change (pin_table (run_call c w).2 = pin_table w). by apply pin_table_gpio.
    + intros irq Hne. rewrite (nvic_ready_done _ Hinit).
      by apply nvic_call_touches_its_line.
Qed.

End targets.

(** ** The HAL adapter for GPIO *)

Section hal_gpio.
Import sim_gpio sim_hal_gpio.

Lemma land_pow2_truthy m k : truthy (N.land m (2 ^ k)) = N.testbit m k.
Proof.
  unfold truthy. destruct (N.testbit m k) eqn:Hb.
  - apply negb_true_iff, N.eqb_neq. intros E.
    assert (N.testbit (N.land m (2 ^ k)) k = true) as Hk
      by (by rewrite N.land_spec, Hb, N.pow2_bits_true).
    rewrite E in Hk. by rewrite N.bits_0 in Hk.
  - apply negb_false_iff, N.eqb_eq. apply N.bits_inj. intros i.
    rewrite N.land_spec, N.bits_0, N.pow2_bits_eqb.
    destruct (N.eqb_spec k i) as [<-|]; [by rewrite Hb|apply andb_false_r].
Qed.

(** X14.  [get_interrupt_type] never selects the both-edges trigger (6): the
    test for 0x00300000 is reached only when bits 20 and 21 are both clear,
    where it fails.  The result is FALLING (5) exactly when bit 21 is set and
    bit 20 is clear, and RISING (4) otherwise, in particular for
    [GPIO_MODE_IT_RISING_FALLING]. *)
Theorem get_interrupt_type_is_rising_or_falling hal_mode :
  get_interrupt_type hal_mode =
    (if negb (N.testbit hal_mode 20) && N.testbit hal_mode 21
     then sim_gpio.GPIO_MODE_IT_FALLING else sim_gpio.GPIO_MODE_IT_RISING) ∧
  get_interrupt_type hal_mode ≠ sim_gpio.GPIO_MODE_IT_BOTH ∧
  get_interrupt_type sim_hal_gpio.GPIO_MODE_IT_RISING_FALLING =
    sim_gpio.GPIO_MODE_IT_RISING.
Proof.
  assert (get_interrupt_type hal_mode =
          if negb (N.testbit hal_mode 20) && N.testbit hal_mode 21
          then sim_gpio.GPIO_MODE_IT_FALLING else sim_gpio.GPIO_MODE_IT_RISING) as E.
  { unfold get_interrupt_type.
    change 0x00100000 with (2 ^ 20). change 0x00200000 with (2 ^ 21).
    rewrite !land_pow2_truthy.
    destruct (N.testbit hal_mode 20) eqn:H20; [done|].
    destruct (N.testbit hal_mode 21) eqn:H21; [done|]. cbn.
    replace (N.land hal_mode 0x00300000) with 0; [done|].
    symmetry. apply N.bits_inj. intros i. rewrite N.land_spec, N.bits_0.
    destruct (N.eqb_spec i 20) as [->|]; [by rewrite H20|].
    destruct (N.eqb_spec i 21) as [->|]; [by rewrite H21|].
    replace (N.testbit 0x00300000 i) with false; [apply andb_false_r|].
    change 0x00300000 with (N.lor (2 ^ 20) (2 ^ 21)).
    rewrite N.lor_spec, !N.pow2_bits_eqb.
    destruct (N.eqb_spec 20 i), (N.eqb_spec 21 i); done. }
  split; [done|]. split; [|done].
  rewrite E. by destruct (_ && _).
Qed.

Lemma clock_on port w :
  gpio_sized w → port < 9 →
  clock_enabled (port_at (write_port port (set_clock_enabled 1) w) port) = 1.
Proof.
  intros [Hl _] Hport. unfold port_at, write_port. cbn.
  destruct (lookup_lt_is_Some_2 (gpio_ports (gpio w)) (N.to_nat port)) as [P HP]; [lia|].
  by rewrite list_lookup_alter_eq, HP.
Qed.

Lemma write_port_sized w port f :
  (∀ P, pins (f P) = pins P) → gpio_sized w → gpio_sized (write_port port f w).
Proof.
  intros Hf [Hl Hp]. split; cbn.
  - by rewrite length_alter.
  - apply Forall_alter; [done|]. intros P _ HP. by rewrite Hf.
Qed.

Lemma faults_off_inject w :
  gpio_error_injection_enabled (gpio w) = 0 → inject_error w = (0, w).
Proof. apply gpio_inject_error_off. Qed.

(** The world after the first call of [HAL_GPIO_Init] when no fault is
    injected. *)
Lemma hal_enable_clock port w :
  gpio_wf w → gpio_error_injection_enabled (gpio w) = 0 → port < 9 →
  let w1 := write_port port (set_clock_enabled 1) (gpio_ready w) in
  VirtualGPIO_EnableClock port w = (1, w1) ∧
  gpio_initialized (gpio w1) ≠ 0 ∧ gpio_sized w1 ∧
  gpio_error_injection_enabled (gpio w1) = 0 ∧
  clock_enabled (port_at w1 port) = 1 ∧
  ∀ port' pin', pin_at w1 port' pin' = pin_at w port' pin'.
Proof.
  intros Hwf Hoff Hport w1.
  assert (gpio_sized (gpio_ready w)) as Hs by by apply gpio_wf_sized, gpio_ready_wf.
  split; [|split; [|split; [|split; [|split]]]].
  - rewrite enable_clock_eq. unfold MAX_GPIO_PORTS.
    destruct (N.leb_spec 9 port); [lia|]. cbn zeta.
    rewrite gpio_inject_error_off by by rewrite gpio_ready_injection. done.
  - apply gpio_ready_initialized.
  - by apply write_port_sized.
  - unfold w1. cbn. by rewrite gpio_ready_injection.
  - by apply clock_on.
  - intros port' pin'. unfold w1.
    rewrite pin_at_write_port by reflexivity. by apply gpio_ready_pin_at.
Qed.

(** X15.  With fault injection off, [HAL_GPIO_Init] in an interrupt mode on a
    valid pin returns HAL_OK and leaves the pin with the interrupt flag set,
    the trigger chosen by [get_interrupt_type] and a NULL handler; the Pull
    and Speed of the request are not applied.  As the handler is NULL,
    [VirtualGPIO_SimulateInterrupt] on that pin then calls no handler,
    whatever the edge. *)
Theorem hal_gpio_init_interrupt_mode_registers_no_handler
    (gpio_handler : funptr → uint8_t → uint8_t → World → World)
    port init w edge :
  gpio_wf w → gpio_error_injection_enabled (gpio w) = 0 →
  port < 9 → u8 (Pin init) < 16 →
  is_interrupt_mode (Mode init) ≠ 0 →
  let r := HAL_GPIO_Init port (Some init) w in
  r.1 = HAL_OK ∧
  pin_at r.2 port (u8 (Pin init)) =
    set_irq_handler None (set_irq_enabled 1
      (set_mode (get_interrupt_type (Mode init)) (pin_at w port (u8 (Pin init))))) ∧
  clock_enabled (port_at r.2 port) = 1 ∧
  (VirtualGPIO_SimulateInterrupt gpio_handler port (u8 (Pin init)) edge r.2).1 = [].
Proof.
  intros Hwf Hoff Hport Hpin Hit.
  destruct (hal_enable_clock port w Hwf Hoff Hport) as (Hclk & Hinit & Hs & Hoff1 & Hon & Hpins).
  set (w1 := write_port _ _ _) in *.
  assert (HAL_GPIO_Init port (Some init) w =
    (HAL_OK, gerr GPIO_ERROR_NONE
       (write_pin port (u8 (Pin init)) (set_irq_handler None)
         (write_pin port (u8 (Pin init)) (set_irq_enabled 1)
           (write_pin port (u8 (Pin init))
              (set_mode (get_interrupt_type (Mode init))) w1))))) as E.
  { unfold HAL_GPIO_Init. rewrite bind_eq, Hclk, fst_pair, snd_pair.
    change (truthy 1) with true. cbn [negb].
    apply truthy_true in Hit. rewrite Hit. cbn zeta.
    rewrite bind_eq, configure_interrupt_eq, range_check by done.
    rewrite (gpio_ready_done _ Hinit), gpio_inject_error_off by done. done. }
  cbn zeta. rewrite E, fst_pair, snd_pair.
  set (w2 := gerr _ _).
  assert (pin_at w2 port (u8 (Pin init)) =
    set_irq_handler None (set_irq_enabled 1
      (set_mode (get_interrupt_type (Mode init)) (pin_at w port (u8 (Pin init)))))) as Hp.
  { unfold w2. rewrite pin_at_gerr, !write_pin_write_pin, pin_at_write_same by done.
    by rewrite Hpins. }
  split; [done|]. split; [done|]. split.
  - unfold w2. by rewrite port_at_gerr, !clock_write_pin.
  - rewrite simulate_interrupt_eq. cbn zeta.
    rewrite gpio_ready_done by apply Hinit.
    rewrite Hp. by split_ifs.
Qed.

(** X16.  With fault injection off, [HAL_GPIO_Init] in a non-interrupt mode on
    a valid pin always returns HAL_OK, whatever the state of the port clock
    before: it enables the clock first, so the clock gate of
    [VirtualGPIO_ConfigurePin] is open.  The pin receives the translated
    mode, the open-drain bit, Speed and Pull, and the alternate function
    exactly when the translated mode is ALTERNATE. *)
Theorem hal_gpio_init_configures_the_pin port init w :
  gpio_wf w → gpio_error_injection_enabled (gpio w) = 0 →
  port < 9 → u8 (Pin init) < 16 →
  is_interrupt_mode (Mode init) = 0 →
  let r := HAL_GPIO_Init port (Some init) w in
  let m := hal_mode_to_virtual (Mode init) in
  let configured :=
    set_pupd (u8 (Pull init)) (set_speed (u8 (Speed init))
      (set_output_type (if truthy (N.land (Mode init) 0x10) then 1 else 0)
        (set_mode m (pin_at w port (u8 (Pin init)))))) in
  r.1 = HAL_OK ∧
  clock_enabled (port_at r.2 port) = 1 ∧
  pin_at r.2 port (u8 (Pin init)) =
    if m =? sim_gpio.GPIO_MODE_ALTERNATE
    then set_alt_function (u8 (Alternate init)) configured
    else configured.
Proof.
  intros Hwf Hoff Hport Hpin Hit.
  destruct (hal_enable_clock port w Hwf Hoff Hport) as (Hclk & Hinit & Hs & Hoff1 & Hon & Hpins).
  set (w1 := write_port _ _ _) in *.
  set (pin := u8 (Pin init)) in *.
  set (m := hal_mode_to_virtual (Mode init)).
  set (ot := if truthy (N.land (Mode init) 0x10) then 1 else 0).
  set (w2 := gerr GPIO_ERROR_NONE
       (write_pin port pin (set_pupd (u8 (Pull init)))
         (write_pin port pin (set_speed (u8 (Speed init)))
           (write_pin port pin (set_output_type ot)
             (write_pin port pin (set_mode m) w1))))).
  assert (VirtualGPIO_ConfigurePin port pin m ot (u8 (Speed init)) (u8 (Pull init)) w1
          = (1, w2)) as Hcfg.
  { rewrite configure_pin_eq. unfold MAX_GPIO_PORTS, MAX_GPIO_PINS.
    destruct (N.leb_spec 9 port); [lia|]. destruct (N.leb_spec 16 pin); [lia|].
    rewrite (gpio_ready_done _ Hinit), Hon. change (truthy 1) with true.
    cbn zeta. by rewrite gpio_inject_error_off by done. }
  assert (pin_at w2 port pin =
          set_pupd (u8 (Pull init)) (set_speed (u8 (Speed init))
            (set_output_type ot (set_mode m (pin_at w port pin))))) as Hp2.
  { unfold w2. rewrite pin_at_gerr, !write_pin_write_pin, pin_at_write_same by done.
    by rewrite Hpins. }
  assert (clock_enabled (port_at w2 port) = 1) as Hon2
    by (unfold w2; by rewrite port_at_gerr, !clock_write_pin).
  assert (gpio_sized w2) as Hs2
    by (unfold w2; split; cbn [gerr with_gpio gpio gpio_ports set_last_error];
        by repeat apply write_pin_sized).
  assert (HAL_GPIO_Init port (Some init) w =
          if m =? 2
          then (HAL_OK, gerr GPIO_ERROR_NONE
                  (write_pin port pin (set_alt_function (u8 (Alternate init))) w2))
          else (HAL_OK, w2)) as E.
  { unfold HAL_GPIO_Init. rewrite bind_eq, Hclk, fst_pair, snd_pair.
    change (truthy 1) with true. cbn [negb].
    apply truthy_false in Hit. rewrite Hit. cbn zeta.
    fold pin m ot. rewrite bind_eq, Hcfg, fst_pair, snd_pair.
    change (truthy 1) with true. cbn [negb].
    destruct (m =? 2) eqn:Hm; [|done].
    rewrite bind_eq, set_alt_function_eq, range_check by done.
    rewrite (gpio_ready_done w2) by apply Hinit.
    rewrite gpio_inject_error_off by apply Hoff1. cbn zeta.
    change (truthy (0, w2).1) with false. cbn iota. rewrite snd_pair, Hp2.
    cbn [mode set_pupd set_speed set_output_type set_mode].
    apply N.eqb_eq in Hm. rewrite Hm. done. }
  cbn zeta. rewrite E. change GPIO_MODE_ALTERNATE with 2.
  destruct (m =? 2); rewrite fst_pair, snd_pair.
  - split; [done|]. split.
    + by rewrite port_at_gerr, clock_write_pin.
    + by rewrite pin_at_gerr, pin_at_write_same, Hp2 by done.
  - done.
Qed.


(** X18.  With fault injection off, on a valid pin that is not in input mode,
    [HAL_GPIO_ReadPin] after [HAL_GPIO_WritePin] returns the state written. *)
Theorem hal_write_pin_then_read_pin port pin state w :
  gpio_wf w → gpio_error_injection_enabled (gpio w) = 0 →
  port < 9 → u8 pin < 16 →
  mode (pin_at w port (u8 pin)) ≠ sim_gpio.GPIO_MODE_INPUT →
  (HAL_GPIO_ReadPin port pin (HAL_GPIO_WritePin port pin state w).2).1 = state.
Proof.
  intros Hwf Hoff Hport Hpin Hmode.
  assert (gpio_sized (gpio_ready w)) as Hs by by apply gpio_wf_sized, gpio_ready_wf.
  set (v := match state with GPIO_PIN_SET => 1 | GPIO_PIN_RESET => 0 end).
  set (w1 := gerr GPIO_ERROR_NONE
               (write_pin port (u8 pin) (set_value (if truthy v then 1 else 0))
                  (gpio_ready w))).
  assert ((HAL_GPIO_WritePin port pin state w).2 = w1) as ->.
  { unfold HAL_GPIO_WritePin. rewrite bind_eq. fold v. unfold ret. cbn [snd].
    rewrite write_pin_eq, range_check by done. cbn zeta.
    by rewrite gpio_inject_error_off by by rewrite gpio_ready_injection. }
  assert (gpio_initialized (gpio w1) ≠ 0) as Hinit by apply gpio_ready_initialized.
  assert (gpio_error_injection_enabled (gpio w1) = 0) as Hoff1
    by (unfold w1; cbn; by rewrite gpio_ready_injection).
  assert (pin_at w1 port (u8 pin) =
          set_value (if truthy v then 1 else 0) (pin_at w port (u8 pin))) as Hp.
  { unfold w1. rewrite pin_at_gerr, pin_at_write_same by done.
    by rewrite gpio_ready_pin_at. }
  unfold HAL_GPIO_ReadPin. rewrite bind_eq, read_pin_eq, range_check by done.
  rewrite (gpio_ready_done _ Hinit), gpio_inject_error_off by done. cbn zeta.
  change (truthy (0, w1).1) with false. cbn iota. rewrite snd_pair, Hp.
  cbn [mode set_value value]. apply N.eqb_neq in Hmode. rewrite Hmode.
  cbn [fst snd default from_option id]. change (truthy 1) with true. cbn iota.
  unfold ret. cbn [fst]. by destruct state.
Qed.

(** X19.  [HAL_Init] returns HAL_OK and leaves both drivers initialised; the
    tables the API presents are the same before and after it, a second call
    changes nothing, and in a state where both drivers are initialised it
    changes nothing at all, so it never resets configured pins or IRQ
    lines. *)
Theorem hal_init_never_resets w :
  (HAL_Init w).1 = HAL_OK ∧
  gpio_initialized (gpio (HAL_Init w).2) ≠ 0 ∧
  nvic_initialized (nvic (HAL_Init w).2) ≠ 0 ∧
  pin_table (HAL_Init w).2 = pin_table w ∧
  irq_table (HAL_Init w).2 = irq_table w ∧
  HAL_Init (HAL_Init w).2 = HAL_Init w ∧
  (gpio_initialized (gpio w) ≠ 0 → nvic_initialized (nvic w) ≠ 0 →
   (HAL_Init w).2 = w).
Proof.
  assert (∀ w', HAL_Init w' = (HAL_OK, nvic_ready (gpio_ready w'))) as E.
  { intros w'. unfold HAL_Init. rewrite !bind_eq. unfold ret.
    by rewrite <- gpio_ready_init, <- nvic_ensure_init_eq. }
  assert (gpio_initialized (gpio (nvic_ready (gpio_ready w))) ≠ 0) as Hg
    by (rewrite nvic_ready_gpio; apply gpio_ready_initialized).
  pose proof (nvic_ready_initialized (gpio_ready w)) as Hn.
  rewrite !E, fst_pair, snd_pair. split; [done|]. split; [done|]. split; [done|].
  split; [|split; [|split]].
  - transitivity (pin_table (gpio_ready w)).
    + apply pin_table_gpio, nvic_ready_gpio.
    + rewrite !pin_table_eq. by rewrite gpio_ready_idem.
  - transitivity (irq_table (gpio_ready w)).
    + rewrite !irq_table_eq. by rewrite nvic_ready_idem.
    + apply irq_table_nvic, gpio_ready_nvic.
  - by rewrite (gpio_ready_done _ Hg), (nvic_ready_done _ Hn).
  - intros Hgi Hni. rewrite (gpio_ready_done _ Hgi). by apply nvic_ready_done.
Qed.

End hal_gpio.

(** ** Dispatch gates and names *)

Section nvic_more.
Import sim_nvic.
Variable nvic_handler : funptr → World → World.

(** X20.  [VirtualNVIC_DisableIRQ] on a valid line cannot fail; it clears only
    the enable flag, so a pending request survives it, and the next
    [VirtualNVIC_ProcessInterrupts] does not dispatch the line, whatever its
    priority and pending flag. *)
Theorem disabled_irq_is_not_dispatched irq w :
  nvic_wf w → irq < 240 →
  let r := VirtualNVIC_DisableIRQ irq w in
  r.1 = 1 ∧
  irq_at r.2 (N.to_nat irq) = set_enabled 0 (irq_at (nvic_ready w) (N.to_nat irq)) ∧
  N.to_nat irq ∉ (VirtualNVIC_ProcessInterrupts nvic_handler r.2).1.
Proof.
  intros Hwf Hirq. cbn zeta.
  pose proof (ready_length w Hwf) as Hlen.
  rewrite disable_irq_eq, irq_range by done. rewrite fst_pair, snd_pair.
  set (w1 := nerr _ _).
  assert (irq_at w1 (N.to_nat irq) =
          set_enabled 0 (irq_at (nvic_ready w) (N.to_nat irq))) as Hline.
  { unfold w1. rewrite irq_at_nerr, irq_at_write_same by lia. done. }
  assert (nvic_wf w1) as Hwf1.
  { pose proof (run_call_nvic_wf (CallDisableIRQ irq) w Hwf) as H.
    cbn [run_call] in H. by rewrite disable_irq_eq, irq_range in H. }
  assert (nvic_initialized (nvic w1) ≠ 0) as Hinit by apply nvic_ready_initialized.
  split; [done|]. split; [done|].
  rewrite process_interrupts_eq. cbn zeta. rewrite (nvic_ready_done _ Hinit).
  destruct (truthy _); [|by rewrite fst_pair; apply not_elem_of_nil].
  destruct (scan_lines w1 _).1 as [i|] eqn:Hfound;
    [|by rewrite fst_pair; apply not_elem_of_nil].
  rewrite fst_pair. intros Hi%list_elem_of_singleton. subst i.
  destruct (find_some w1 _ Hwf1 Hfound) as [Hel _].
  apply eligible_dispatchable in Hel; [|done].
  apply dispatchable_spec in Hel as (Hen & _). by rewrite Hline in Hen.
Qed.

(** X21.  With fault injection off and the global gate open, if no other line
    is eligible and line [irq] is not active, then after
    [VirtualNVIC_EnableIRQ] and [VirtualNVIC_SetPending] on [irq] the next
    [VirtualNVIC_ProcessInterrupts] dispatches exactly [irq]. *)
Theorem enabled_pending_irq_is_dispatched irq w :
  nvic_wf w → nvic_error_injection_enabled (nvic w) = 0 → irq < 240 →
  global_irq_enabled (nvic (nvic_ready w)) ≠ 0 →
  active (irq_at (nvic_ready w) (N.to_nat irq)) = 0 →
  (∀ j, j ≠ N.to_nat irq → ¬ eligible (nvic_ready w) j) →
  (VirtualNVIC_ProcessInterrupts nvic_handler
     (VirtualNVIC_SetPending irq (VirtualNVIC_EnableIRQ irq w).2).2).1
  = [N.to_nat irq].
Proof.
  intros Hwf Hoff Hirq Hglobal Hactive Hothers.
  pose proof (ready_length w Hwf) as Hlen.
  assert (∀ w', nvic_error_injection_enabled (nvic w') = 0 →
            inject_error w' = (0, w')) as Hinj.
  { intros w' H%truthy_false. by rewrite nvic_inject_error_eq, H. }
  set (w1 := nerr NVIC_ERROR_NONE
               (write_irq (N.to_nat irq) (set_enabled 1) (nvic_ready w))).
  set (w2 := nerr NVIC_ERROR_NONE (write_irq (N.to_nat irq) (set_pending 1) w1)).
  assert (nvic_initialized (nvic w1) ≠ 0) as Hinit1 by apply nvic_ready_initialized.
  assert (nvic_initialized (nvic w2) ≠ 0) as Hinit2 by apply nvic_ready_initialized.
  assert ((VirtualNVIC_EnableIRQ irq w).2 = w1) as E1.
  { rewrite enable_irq_eq, irq_range by done. cbn zeta.
    by rewrite (Hinj (nvic_ready w)) by by rewrite nvic_ready_injection. }
  assert ((VirtualNVIC_SetPending irq w1).2 = w2) as E2.
  { rewrite set_pending_eq, irq_range by done. cbn zeta.
    rewrite (nvic_ready_done _ Hinit1).
    by rewrite (Hinj w1) by (unfold w1; cbn; by rewrite nvic_ready_injection). }
  rewrite E1, E2.
  assert (nvic_wf w1) as Hwf1.
  { rewrite <- E1. apply (run_call_nvic_wf (CallEnableIRQ irq) w Hwf). }
  assert (nvic_wf w2) as Hwf2.
  { rewrite <- E2. apply (run_call_nvic_wf (CallSetPending irq) w1 Hwf1). }
  assert (length (irq_lines (nvic w1)) = 240%nat) as Hlen1 by by destruct Hwf1.
  assert (irq_at w2 (N.to_nat irq) =
          set_pending 1 (set_enabled 1 (irq_at (nvic_ready w) (N.to_nat irq)))) as Hline.
  { unfold w2. rewrite irq_at_nerr, irq_at_write_same by lia.
    unfold w1. by rewrite irq_at_nerr, irq_at_write_same by lia. }
  assert (∀ j, j ≠ N.to_nat irq → irq_at w2 j = irq_at (nvic_ready w) j) as Hrest.
  { intros j Hj. unfold w2. rewrite irq_at_nerr, irq_at_write_other by done.
    unfold w1. by rewrite irq_at_nerr, irq_at_write_other by done. }
  assert (eligible w2 (N.to_nat irq)) as Hel.
  { apply eligible_dispatchable; [done|]. apply dispatchable_spec.
    rewrite Hline. by cbn. }
  assert (∀ j, eligible w2 j → j = N.to_nat irq) as Honly.
  { intros j Hj. destruct (decide (j = N.to_nat irq)) as [|Hne]; [done|].
    exfalso. apply (Hothers j Hne).
    apply eligible_dispatchable; [by apply nvic_ready_wf|].
    apply eligible_dispatchable in Hj; [|done]. by rewrite Hrest in Hj. }
  rewrite process_interrupts_eq. cbn zeta. rewrite (nvic_ready_done _ Hinit2).
  assert (truthy (global_irq_enabled (nvic w2)) = true) as ->
    by by apply truthy_true.
  destruct (scan_lines w2 _).1 as [i|] eqn:Hfound.
  - rewrite fst_pair. f_equal. apply Honly.
    by destruct (find_some w2 _ Hwf2 Hfound).
  - exfalso. by apply (find_none w2 Hwf2 Hfound (N.to_nat irq)).
Qed.

(** X22.  [VirtualNVIC_DisableGlobalIRQ] is the one function of sim_nvic.c
    without the lazy initialisation.  Called before the first use of the
    driver it has no lasting effect: the next NVIC call runs
    [VirtualNVIC_Init], which opens the global gate again.  Called after the
    first use, the gate stays closed through the call. *)
Theorem global_mask_before_first_use_is_lost c w :
  is_gpio_call c = false →
  global_irq_enabled (nvic (run_call c (VirtualNVIC_DisableGlobalIRQ w).2).2) =
    if truthy (nvic_initialized (nvic w)) then 0 else 1.
Proof.
  intros Hc.
  set (w0 := (VirtualNVIC_DisableGlobalIRQ w).2).
  assert (global_irq_enabled (nvic (nvic_ready w0)) =
          if truthy (nvic_initialized (nvic w)) then 0 else 1) as <-.
  { rewrite nvic_ready_eq. unfold w0. cbn.
    by destruct (truthy (nvic_initialized (nvic w))). }
  generalize w0. clear w w0. intros w.
  assert (∀ w', global_irq_enabled (nvic (inject_error w').2) =
                global_irq_enabled (nvic w')) as Hinj.
  { intros w'. rewrite nvic_inject_error_eq. destruct (truthy _); [|done].
    by destruct (_ =? 0). }
  destruct c; try discriminate Hc; call_eqs; split_ifs;
    try match goal with |- context [match ?n with Some _ => _ | None => _ end] =>
      destruct n end;
    cbn [nvic nerr write_irq with_nvic global_irq_enabled set_lines
         set_last_error id];
    rewrite ?Hinj; done.
Qed.

End nvic_more.

Section names.
Import sim_nvic.

Lemma strncpy_name_length s : (String.length (strncpy_name s) ≤ 31)%nat.
Proof.
  unfold strncpy_name. generalize 31%nat. intros n. revert s.
  induction n as [|n IH]; intros [|c s]; cbn; try lia.
  specialize (IH s). lia.
Qed.

Lemma fresh_lines_names : Forall name_fits fresh_lines.
Proof.
  apply Forall_forall. intros l Hl.
  assert (forallb (fun l => Nat.leb (String.length (irq_name l)) 31) fresh_lines = true)
    as Hall by (vm_compute; reflexivity).
  rewrite forallb_forall in Hall.
  apply Nat.leb_le, Hall. by apply list_elem_of_In.
Qed.

Lemma names_write_irq w i f :
  (∀ l, name_fits l → name_fits (f l)) →
  names_fit w → names_fit (write_irq i f w).
Proof. intros Hf Hw. unfold names_fit. cbn. apply Forall_alter; [done|]. eauto. Qed.

Lemma names_ext w w' :
  irq_lines (nvic w') = irq_lines (nvic w) → names_fit w → names_fit w'.
Proof. unfold names_fit. by intros ->. Qed.

Lemma names_ready w : names_fit w → names_fit (nvic_ready w).
Proof.
  intros Hw. rewrite nvic_ready_eq. destruct (truthy _); [done|].
  apply fresh_lines_names.
Qed.

Lemma nvic_call_names c w :
  is_gpio_call c = false → names_fit w → names_fit (run_call c w).2.
Proof.
  intros Hc Hw. apply names_ready in Hw.
  assert (names_fit (inject_error (nvic_ready w)).2) as Hinj
    by (by apply (names_ext (nvic_ready w)); [apply irq_lines_inject|]).
  destruct c; try discriminate Hc; call_eqs; split_ifs;
    try match goal with |- context [match ?n with Some _ => _ | None => _ end] =>
      destruct n end;
    try done;
    change (names_fit (nerr ?e ?w')) with (names_fit w');
    repeat (apply names_write_irq; [try by intros []|]);
    try done.
  intros l _. apply strncpy_name_length.
Qed.

Lemma step_names s w : names_fit w → names_fit (run_step s w).
Proof.
  intros Hw. destruct s as [c| |enable| |enable| |]; cbn [run_step]; try done.
  - destruct (is_gpio_call c) eqn:Hc.
    + apply (names_ext w); [|done]. by destruct (gpio_call_frame c w Hc) as [_ ->].
    + by apply nvic_call_names.
  - apply (names_ext w); [|done]. by rewrite <- gpio_ready_init, gpio_ready_nvic.
  - rewrite <- nvic_ensure_init_eq. by apply names_ready.
Qed.

(** X23.  The name buffers never overflow: in every state a client can reach
    from program start through the API, whatever names it passes to
    [VirtualNVIC_SetHandler], the name of every IRQ line has at most 31
    characters, so the 32-byte buffer keeps its terminating 0; a name that
    is too long is cut to its first 31 characters and a NULL name leaves the
    old one. *)
Theorem irq_names_fit_the_buffer ss tape :
  names_fit (run_steps ss (boot tape)) ∧
  ∀ irq h name w, irq < 240 → nvic_wf w →
    irq_name (irq_at (VirtualNVIC_SetHandler irq h name w).2 (N.to_nat irq)) =
    match name with
    | Some s => String.substring 0 31 s
    | None => irq_name (irq_at (nvic_ready w) (N.to_nat irq))
    end.
Proof.
  split.
  - assert (names_fit (boot tape)) as Hboot.
    { unfold names_fit, boot. cbn [nvic irq_lines].
      apply Forall_replicate. unfold name_fits. cbn. lia. }
    revert Hboot. generalize (boot tape). induction ss as [|s ss IH]; intros w Hw; [done|].
    unfold run_steps. cbn [foldl]. fold (run_steps ss (run_step s w)).
    by apply IH, step_names.
  - intros irq h name w Hirq Hwf. pose proof (ready_length w Hwf) as Hlen.
    rewrite set_handler_eq, irq_range by done. rewrite snd_pair, irq_at_nerr.
    destruct name as [s|]; unfold id.
    + rewrite irq_at_write_same by (cbn; rewrite length_alter; lia).
      by rewrite irq_at_write_same by lia.
    + by rewrite irq_at_write_same by lia.
Qed.

End names.

(** ** Randomness and reachable states *)

Section randomness.

Lemma faults_off_gpio_inject w :
  gpio_error_injection_enabled (gpio w) = 0 →
  sim_gpio.inject_error (gpio_ready w) = (0, gpio_ready w).
Proof. intros H. apply gpio_inject_error_off. by rewrite gpio_ready_injection. Qed.

Lemma faults_off_nvic_inject w :
  nvic_error_injection_enabled (nvic w) = 0 →
  sim_nvic.inject_error (nvic_ready w) = (0, nvic_ready w).
Proof.
  intros H. rewrite nvic_inject_error_eq, nvic_ready_injection.
  apply truthy_false in H. by rewrite H.
Qed.

(** X24.  With fault injection off in both files the API is deterministic
    except for one case: the only call that consumes a value of [rand()] is
    [VirtualGPIO_ReadPin] on a valid pin in input mode with neither pull-up
    nor pull-down, which consumes exactly one. *)
Theorem without_faults_only_floating_reads_use_rand c w :
  faults_off w →
  rand_pos (run_call c w).2 = (rand_used c w + rand_pos w)%nat.
Proof.
  intros [Hg Hn].
  pose proof (proj2 (gpio_ready_rand w)) as Hgr.
  pose proof (proj2 (nvic_ready_rand w)) as Hnr.
  pose proof (faults_off_gpio_inject w Hg) as Hgi.
  pose proof (faults_off_nvic_inject w Hn) as Hni.
  destruct c; cbn [rand_used]; call_eqs; rewrite ?Hgi, ?Hni;
    try (split_ifs;
         try match goal with |- context [match ?n with Some _ => _ | None => _ end] =>
           destruct n end;
         done).
  unfold in_range, floating_input, input_level,
    sim_gpio.MAX_GPIO_PORTS, sim_gpio.MAX_GPIO_PINS.
  cbn [fst snd].
  destruct (N.leb_spec 9 port), (N.ltb_spec port 9); try lia;
    destruct (N.leb_spec 16 pin), (N.ltb_spec pin 16); try lia;
    cbn [orb andb fst snd]; try done.
  change (truthy 0) with false. cbn iota.
  destruct (_ =? sim_gpio.GPIO_MODE_INPUT); cbn [andb negb]; [|done].
  destruct (_ =? sim_gpio.GPIO_PUPD_UP); cbn [andb negb]; [done|].
  destruct (_ =? sim_gpio.GPIO_PUPD_DOWN); cbn [andb negb]; [done|].
  cbn. by rewrite Hgr.
Qed.

(** X25.  The tables stay well formed: from program start, after every
    sequence of API steps, the pin table has 9 ports of 16 pins whose levels
    are 0 or 1, and the IRQ table has 240 lines whose priorities are at most
    15, so every pin level read from the table is 0 or 1 and
    [VirtualNVIC_GetPriority] never returns more than 15. *)
Theorem api_steps_keep_the_tables_well_formed ss tape :
  let w := run_steps ss (boot tape) in
  gpio_wf w ∧ nvic_wf w ∧
  (∀ port pin, value (sim_gpio.pin_at w port pin) ≤ 1) ∧
  (∀ irq, (sim_nvic.VirtualNVIC_GetPriority irq w).1 ≤ 15).
Proof.
  cbn zeta. destruct (boot_steps_wf ss tape) as [Hg Hn].
  split; [done|]. split; [done|]. split.
  - intros port pin. destruct Hg as (_ & Hports & _).
    unfold sim_gpio.pin_at, sim_gpio.port_at.
    destruct (gpio_ports _ !! _) as [P|] eqn:EP; cbn; [|by rewrite lookup_nil].
    eapply Forall_lookup_1 in Hports as [_ Hpins]; [|exact EP].
    destruct (pins P !! _) as [p|] eqn:Ep; cbn; [|lia].
    by eapply Forall_lookup_1 in Hpins; [|exact Ep].
  - intros irq. rewrite get_priority_eq.
    destruct (sim_nvic.MAX_IRQ_LINES <=? irq); cbn [fst].
    + unfold sim_nvic.MAX_PRIORITY. lia.
    + apply wf_line_priority. by apply nvic_ready_wf.
Qed.

End randomness.

(** ** Concrete runs of the further properties *)

Section further_runs.
Import sim_gpio sim_nvic sim_hal_gpio.



Lemma masked_pending_world_wf : nvic_wf masked_pending_world.
Proof. apply (run_step_nvic_wf StepDisableGlobalIRQ), two_pending_world_wf. Qed.

Lemma button_world_wf : gpio_wf button_world.
Proof. apply run_calls_gpio_wf, boot_gpio_wf. Qed.



(** Behind the closed gate the two pending IRQs are counted 101 times and
    none is dispatched. *)
Lemma masked_process_all_pending_spins_to_the_cap_witness :
  VirtualNVIC_ProcessInterrupts idle_irq_handlers masked_pending_world =
    ([], masked_pending_world) ∧
  ((∃ j, eligible masked_pending_world j) →
   VirtualNVIC_ProcessAllPending idle_irq_handlers 101 masked_pending_world =
     (Some (101, []), masked_pending_world)) ∧
  ((∀ j, ¬ eligible masked_pending_world j) →
   VirtualNVIC_ProcessAllPending idle_irq_handlers 101 masked_pending_world =
     (Some (0, []), masked_pending_world)).
Proof.
  apply (masked_process_all_pending_spins_to_the_cap idle_irq_handlers 101
           masked_pending_world).
  - apply masked_pending_world_wf.
  - vm_compute. discriminate.
  - by vm_compute.
  - lia.
Defined.

Lemma set_priority_then_get_priority_witness :
  let w1 := (VirtualNVIC_SetPriority 6 2 (boot quiet_tape)).2 in
  2 ≤ 15 ∧ 6 < 240 ∧
  VirtualNVIC_GetPriority 6 w1 = (2, w1) ∧
  irq_at w1 (N.to_nat 6) =
    set_priority 2 (irq_at (nvic_ready (boot quiet_tape)) (N.to_nat 6)) ∧
  ∀ irq', irq' ≠ 6 →
    (VirtualNVIC_GetPriority irq' w1).1 =
    (VirtualNVIC_GetPriority irq' (boot quiet_tape)).1.
Proof.
  intros w1.
  apply (set_priority_then_get_priority 6 2 (boot quiet_tape) w1).
  - apply boot_nvic_wf.
  - unfold w1. apply injective_projections; [by vm_compute|reflexivity].
Defined.

Lemma pending_flag_round_trip_witness :
  (VirtualNVIC_ClearPending 6 two_pending_world).1 = 1 ∧
  (VirtualNVIC_IsPending 6 (VirtualNVIC_ClearPending 6 two_pending_world).2).1 = 0 ∧
  ((VirtualNVIC_SetPending 6 two_pending_world).1 = 1 →
   (VirtualNVIC_IsPending 6 (VirtualNVIC_SetPending 6 two_pending_world).2).1 = 1).
Proof.
  apply (pending_flag_round_trip 6 two_pending_world).
  - apply two_pending_world_wf.
  - lia.
Defined.

(** A write to pin 16 of port A reports GPIO_ERROR_INVALID_PORT. *)
Lemma out_of_range_call_is_rejected_before_the_roll_witness :
  (run_call (CallWritePin 0 16 1) faulty_world).1 = 0 ∧
  last_error_of (CallWritePin 0 16 1) (run_call (CallWritePin 0 16 1) faulty_world).2 =
    range_error_code (CallWritePin 0 16 1) ∧
  rand_pos (run_call (CallWritePin 0 16 1) faulty_world).2 = rand_pos faulty_world ∧
  pin_table (run_call (CallWritePin 0 16 1) faulty_world).2 = pin_table faulty_world ∧
  irq_table (run_call (CallWritePin 0 16 1) faulty_world).2 = irq_table faulty_world.
Proof.
  apply (out_of_range_call_is_rejected_before_the_roll (CallWritePin 0 16 1) faulty_world).
  reflexivity.
Defined.

Lemma configure_pin_assigns_only_the_configuration_witness :
  let w1 := (VirtualGPIO_ConfigurePin 0 6 GPIO_MODE_OUTPUT GPIO_OTYPE_OD
               GPIO_SPEED_FAST GPIO_PUPD_UP led_world).2 in
  0 < 9 ∧ 6 < 16 ∧
  clock_enabled (port_at (gpio_ready led_world) 0) ≠ 0 ∧
  pin_at w1 0 6 =
    set_pupd GPIO_PUPD_UP (set_speed GPIO_SPEED_FAST
      (set_output_type GPIO_OTYPE_OD (set_mode GPIO_MODE_OUTPUT (pin_at led_world 0 6)))) ∧
  ∀ port' pin', (port', pin') ≠ (0, 6) →
    pin_at w1 port' pin' = pin_at led_world port' pin'.
Proof.
  intros w1.
  apply (configure_pin_assigns_only_the_configuration 0 6 GPIO_MODE_OUTPUT
           GPIO_OTYPE_OD GPIO_SPEED_FAST GPIO_PUPD_UP led_world w1).
  - apply led_world_wf.
  - unfold w1. apply injective_projections; [by vm_compute|reflexivity].
Defined.

Lemma write_pin_then_read_pin_witness :
  let w1 := (VirtualGPIO_WritePin 0 5 7 led_world).2 in
  let r := (VirtualGPIO_ReadPin 0 5 w1).1.2 in
  let w2 := (VirtualGPIO_ReadPin 0 5 w1).2 in
  r = Some (level 7) ∧ gpio_ports (gpio w2) = gpio_ports (gpio w1).
Proof.
  intros w1 r w2.
  apply (write_pin_then_read_pin 0 5 7 led_world w1 r w2).
  - apply led_world_wf.
  - unfold w1. apply injective_projections; [by vm_compute|reflexivity].
  - vm_compute. discriminate.
  - unfold r, w2. apply injective_projections; [|reflexivity].
    apply injective_projections; [by vm_compute|reflexivity].
Defined.

(** PC13 was written low, yet the pull-up makes it read high. *)
Lemma read_input_pin_follows_the_pull_witness :
  let w2 := (VirtualGPIO_ReadPin 2 13 button_world).2 in
  value (pin_at button_world 2 13) = 0 ∧
  1 ≤ 1 ∧
  (pupd (pin_at button_world 2 13) = GPIO_PUPD_UP → 1 = 1) ∧
  (pupd (pin_at button_world 2 13) = GPIO_PUPD_DOWN → 1 = 0) ∧
  pin_at w2 2 13 = set_value 1 (pin_at button_world 2 13).
Proof.
  intros w2. split; [by vm_compute|].
  apply (read_input_pin_follows_the_pull 2 13 button_world 1 w2).
  - apply button_world_wf.
  - by vm_compute.
  - unfold w2. apply injective_projections; [by vm_compute|reflexivity].
Defined.

Lemma port_clock_is_never_disabled_witness :
  clock_enabled
    (port_at (gpio_ready (run_steps [StepGpioInit; StepCall (CallTogglePin 0 5);
                                     StepCall (CallEnableClock 9)] led_world)) 0) ≠ 0.
Proof.
  apply (port_clock_is_never_disabled
           [StepGpioInit; StepCall (CallTogglePin 0 5); StepCall (CallEnableClock 9)]
           led_world 0).
  vm_compute. discriminate.
Defined.

(** A both-edges request through the HAL yields a rising-edge pin without
    handler. *)
Lemma hal_gpio_init_interrupt_mode_registers_no_handler_witness :
  let r := HAL_GPIO_Init 2 (Some both_edges_request) (boot quiet_tape) in
  r.1 = HAL_OK ∧
  pin_at r.2 2 (u8 (Pin both_edges_request)) =
    set_irq_handler None (set_irq_enabled 1
      (set_mode (get_interrupt_type (Mode both_edges_request))
         (pin_at (boot quiet_tape) 2 (u8 (Pin both_edges_request))))) ∧
  clock_enabled (port_at r.2 2) = 1 ∧
  (VirtualGPIO_SimulateInterrupt idle_pin_handlers 2 (u8 (Pin both_edges_request))
     0 r.2).1 = [].
Proof.
  apply (hal_gpio_init_interrupt_mode_registers_no_handler idle_pin_handlers 2
           both_edges_request (boot quiet_tape) 0).
  - apply boot_gpio_wf.
  - reflexivity.
  - lia.
  - by vm_compute.
  - vm_compute. discriminate.
Defined.

Lemma hal_gpio_init_configures_the_pin_witness :
  let r := HAL_GPIO_Init 0 (Some alternate_request) (boot quiet_tape) in
  let m := hal_mode_to_virtual (Mode alternate_request) in
  let configured :=
    set_pupd (u8 (Pull alternate_request)) (set_speed (u8 (Speed alternate_request))
      (set_output_type (if truthy (N.land (Mode alternate_request) 0x10) then 1 else 0)
        (set_mode m (pin_at (boot quiet_tape) 0 (u8 (Pin alternate_request)))))) in
  r.1 = HAL_OK ∧
  clock_enabled (port_at r.2 0) = 1 ∧
  pin_at r.2 0 (u8 (Pin alternate_request)) =
    if m =? sim_gpio.GPIO_MODE_ALTERNATE
    then set_alt_function (u8 (Alternate alternate_request)) configured
    else configured.
Proof.
  apply (hal_gpio_init_configures_the_pin 0 alternate_request (boot quiet_tape)).
  - apply boot_gpio_wf.
  - reflexivity.
  - lia.
  - by vm_compute.
  - by vm_compute.
Defined.


Lemma hal_write_pin_then_read_pin_witness :
  (HAL_GPIO_ReadPin 0 5 (HAL_GPIO_WritePin 0 5 GPIO_PIN_RESET led_world).2).1 =
    GPIO_PIN_RESET.
Proof.
  apply (hal_write_pin_then_read_pin 0 5 GPIO_PIN_RESET led_world).
  - apply led_world_wf.
  - by vm_compute.
  - lia.
  - by vm_compute.
  - vm_compute. discriminate.
Defined.

(** IRQ 23, the line [two_pending_world] would serve first, is skipped once
    disabled. *)
Lemma disabled_irq_is_not_dispatched_witness :
  let r := VirtualNVIC_DisableIRQ 23 two_pending_world in
  r.1 = 1 ∧
  irq_at r.2 (N.to_nat 23) =
    set_enabled 0 (irq_at (nvic_ready two_pending_world) (N.to_nat 23)) ∧
  N.to_nat 23 ∉ (VirtualNVIC_ProcessInterrupts idle_irq_handlers r.2).1.
Proof.
  apply (disabled_irq_is_not_dispatched idle_irq_handlers 23 two_pending_world).
  - apply two_pending_world_wf.
  - lia.
Defined.

Lemma enabled_pending_irq_is_dispatched_witness :
  (VirtualNVIC_ProcessInterrupts idle_irq_handlers
     (VirtualNVIC_SetPending 6 (VirtualNVIC_EnableIRQ 6 (boot quiet_tape)).2).2).1
  = [N.to_nat 6].
Proof.
  apply (enabled_pending_irq_is_dispatched idle_irq_handlers 6 (boot quiet_tape)).
  - apply boot_nvic_wf.
  - reflexivity.
  - lia.
  - vm_compute. discriminate.
  - by vm_compute.
  - intros j _. by apply fresh_lines_not_eligible.
Defined.

Lemma global_mask_before_first_use_is_lost_witness :
  global_irq_enabled
    (nvic (run_call (CallSetPending 6)
             (VirtualNVIC_DisableGlobalIRQ (boot quiet_tape)).2).2) = 1.
Proof.
  apply (global_mask_before_first_use_is_lost (CallSetPending 6) (boot quiet_tape)).
  reflexivity.
Defined.

Lemma without_faults_only_floating_reads_use_rand_witness :
  rand_pos (run_call (CallReadPin 0 3) led_world).2 = (1 + rand_pos led_world)%nat.
Proof.
  apply (without_faults_only_floating_reads_use_rand (CallReadPin 0 3) led_world).
  split; by vm_compute.
Defined.

End further_runs.
